(** * Protein language-model notebooks: data preparation and inference glue

    A shallow embedding of the Python that the three notebooks of the
    repository run themselves:

    - [Localization-Fine-Tuning-With-PEFT.ipynb]: the DeepLoc data loading
      (length filter, train/validation/test split), [labels], [id2label],
      [label2id], [preprocess_data], the example cell, the estimator cell
      and the endpoint clean-up cell;
    - the ESM-2 domain-adaptation notebook: [tokenize_data] and the
      estimator cell;
    - the ESMFold notebook: [input_fn] and [output_fn] of
      [code/inference.py] with the [print] calls of [input_fn], the
      tokenizer call without special tokens and the call of the endpoint.

    Python values are modelled as follows.  A [str] is a [string] holding its
    UTF-8 bytes (so one [ascii] is one character for the ASCII text the
    notebooks handle); a [list] is a [list]; a [dict] is a [gmap] when only
    look-ups matter; an exception is a [Raise] in the [result] monad.  What
    the code can tell of the interpreter it runs in (recursion limit, digit
    limit of [int], error handler of the log) is a parameter.  Calls
    into libraries ([json], [pandas], [numpy], [transformers], the SageMaker
    SDK) are modelled by the behaviour of the call as the notebook writes it,
    each next to the cell that calls it. *)

From Stdlib Require Import ZArith QArith String Ascii List Lia.
From stdpp Require Import base list strings gmap pretty.

Open Scope string_scope.

(** ** Python exceptions and results *)

Module Py.

Inductive exn : Type :=
| ValueError (msg : string)
| KeyError (key : string)
| IndexError
| NameError (name : string)
| JSONDecodeError (msg : string)
| ClientError (msg : string)
| RecursionError
| UnicodeEncodeError
| KeyboardInterrupt.

Inductive result (A : Type) : Type :=
| Ok (a : A)
| Raise (e : exn).

Arguments Ok {A} a.
Arguments Raise {A} e.

#[export] Instance result_ret : MRet result := fun _ a => Ok a.

#[export] Instance result_bind : MBind result := fun _ _ f r =>
  match r with
  | Ok a => f a
  | Raise e => Raise e
  end.

#[export] Instance result_fmap : FMap result := fun _ _ f r =>
  match r with
  | Ok a => Ok (f a)
  | Raise e => Raise e
  end.

(** [raises r]: the call ended with an exception. *)
Definition raises {A} (r : result A) : Prop :=
  match r with
  | Ok _ => False
  | Raise _ => True
  end.

(** [returns r]: the call returned normally. *)
Definition returns {A} (r : result A) : Prop :=
  match r with
  | Ok _ => True
  | Raise _ => False
  end.

(** [try: body / except: pass]: a bare [except] catches every exception,
    [KeyboardInterrupt] included, and the handler does nothing. *)
Definition try_except_pass (body : result unit) : result unit :=
  match body with
  | Ok u => Ok u
  | Raise _ => Ok tt
  end.

(** *** The interpreter

    What the code can tell of the interpreter it runs in: how deep the JSON
    scanner and [repr] may still nest, the digit limit of the conversion
    between [int] and [str], and what the log does with text it cannot
    encode. *)

(** The error handler of a text stream.  [Replacing] stands for the
    handlers that never raise ([replace], [ignore], [backslashreplace],
    [xmlcharrefreplace], [namereplace], and [surrogatepass] for UTF-8). *)
Inductive error_handler : Type :=
| Strict
| Surrogateescape
| Replacing.

Record interpreter : Type := {
  (** The number of containers that may enclose a container where the JSON
      scanner runs: the recursion limit less the depth already in use,
      less one.  An interpreter in which the handler runs at all has room
      for the frames of one call, so the first container always fits. *)
  json_nesting : nat;
  (** The number of calls of [repr], one inside the other, that the
      interpreter has room for where [print] runs, beyond the two that a
      list of strings or numbers takes. *)
  repr_nesting : nat;
  (** [sys.get_int_max_str_digits()]: 4300 unless set otherwise, 0 for no
      limit (also the releases that do not have the limit). *)
  int_max_str_digits : nat;
  (** [sys.stdout.errors]; [sys.stdout] is an open UTF-8 text stream, as
      Python 3.7 and later set it up under a C or a UTF-8 locale. *)
  stdout_errors : error_handler
}.

(** A [str] is held as its UTF-8 bytes, a lone surrogate being written
    like any other code point of its range: the three bytes [ED], [A0] to
    [BF], [80] to [BF].  [encodable errors cs]: the stream can encode the
    text.  UTF-8 encodes everything but surrogates; [surrogateescape]
    writes the surrogates U+DC80 to U+DCFF (second byte [B2] or [B3]) as
    the byte they stand for. *)
Fixpoint encodable (errors : error_handler) (cs : list ascii) : bool :=
  match cs with
  | [] => true
  | a :: rest =>
    match rest with
    | b :: _ =>
      let n := N_of_ascii b in
      if (N_of_ascii a =? 237)%N && (160 <=? n)%N && (n <=? 191)%N then
        match errors with
        | Strict => false
        | Surrogateescape => ((n =? 178)%N || (n =? 179)%N) && encodable errors rest
        | Replacing => encodable errors rest
        end
      else encodable errors rest
    | [] => true
    end
  end.

(** [file.write(s)] on [sys.stdout]. *)
Definition write (py : interpreter) (s : string) : result unit :=
  if encodable (stdout_errors py) (list_ascii_of_string s) then Ok tt
  else Raise UnicodeEncodeError.

End Py.

Import Py.

(** ** The endpoint clean-up cell

    <<
    try:
        predictor.delete_endpoint()
    except:
        pass
    >>

    The cell reads the notebook global [predictor] and calls the SageMaker
    SDK.  The global may be unbound (the deploy cell did not run), and the
    SDK call may fail in any way; both happen inside the [try]. *)

Module Cleanup.

Section WithEndpoint.

(** The deployed predictor object and the SDK's [delete_endpoint], which
    either returns [None] or raises. *)
Variable Predictor : Type.
Variable delete_endpoint : Predictor -> result unit.

(** Evaluating a name in the notebook's global namespace [ns] (as far as
    this cell reads it: the predictor objects bound there). *)
Definition load_name (ns : gmap string Predictor) (name : string) : result Predictor :=
  match ns !! name with
  | Some p => Ok p
  | None => Raise (NameError name)
  end.

(** The body of the [try] block. *)
Definition cleanup_body (ns : gmap string Predictor) : result unit :=
  p ← load_name ns "predictor"; delete_endpoint p.

(** The whole cell. *)
Definition cleanup_cell (ns : gmap string Predictor) : result unit :=
  try_except_pass (cleanup_body ns).

(** What Jupyter shows for a cell: nothing for a normal end, the traceback
    of the exception otherwise. *)
Definition reported (r : result unit) : option exn :=
  match r with
  | Ok _ => None
  | Raise e => Some e
  end.

End WithEndpoint.

End Cleanup.


(** ** Python's [json] module, as [inference.py] calls it

    [json.loads] on a [str] and [json.dumps] on a list of [str], both with
    their default arguments.  The parser follows the decoder's scanner:
    leading and trailing white space is skipped, one value is read, anything
    left over is an error.  A float keeps its lexeme (its binary value is not
    computed); error messages carry no position.  The scanner enters a
    recursive call for every container, and raises [RecursionError] when
    the interpreter has no room for it; an integer literal with more
    digits than the interpreter converts is a [ValueError].  The loops over
    the items of a container are given as many rounds as there are
    characters left, which is more than they take
    ([array_loop_rounds] and [object_loop_rounds] below). *)

Module Json.

#[local] Set Warnings "-register-all".

(** The Python values [json.loads] returns. *)
Inductive value : Type :=
| JNull
| JBool (b : bool)
| JInt (z : Z)
| JFloat (lexeme : string)
| JStr (s : string)
| JList (items : list value)
| JDict (pairs : list (string * value)).

Definition dquote : ascii := ascii_of_nat 34.
Definition backslash : ascii := ascii_of_nat 92.

Definition code (c : ascii) : N := N_of_ascii c.
Definition chr (n : N) : ascii := ascii_of_N n.

(** [WHITESPACE]: space, tab, line feed, carriage return. *)
Definition is_ws (c : ascii) : bool :=
  let n := code c in
  (n =? 32)%N || (n =? 9)%N || (n =? 10)%N || (n =? 13)%N.

Fixpoint skip_ws (cs : list ascii) : list ascii :=
  match cs with
  | c :: r => if is_ws c then skip_ws r else cs
  | [] => []
  end.

Definition is_digit (c : ascii) : bool :=
  let n := code c in (48 <=? n)%N && (n <=? 57)%N.

Definition hex_val (c : ascii) : option N :=
  let n := code c in
  if (48 <=? n)%N && (n <=? 57)%N then Some (n - 48)%N
  else if (97 <=? n)%N && (n <=? 102)%N then Some (n - 87)%N
  else if (65 <=? n)%N && (n <=? 70)%N then Some (n - 55)%N
  else None.

(** The four hexadecimal digits of a [\uXXXX] escape. *)
Definition hex4 (a b c d : ascii) : option N :=
  match hex_val a, hex_val b, hex_val c, hex_val d with
  | Some x, Some y, Some z, Some w => Some (((x * 16 + y) * 16 + z) * 16 + w)%N
  | _, _, _, _ => None
  end.

(** The UTF-8 bytes of a code point (a lone surrogate is written the same
    way, with three bytes). *)
Definition utf8 (cp : N) : list ascii :=
  if (cp <? 128)%N then [chr cp]
  else if (cp <? 2048)%N then
    [chr (192 + cp / 64); chr (128 + cp mod 64)]
  else if (cp <? 65536)%N then
    [chr (224 + cp / 4096); chr (128 + (cp / 64) mod 64); chr (128 + cp mod 64)]
  else
    [chr (240 + cp / 262144); chr (128 + (cp / 4096) mod 64);
     chr (128 + (cp / 64) mod 64); chr (128 + cp mod 64)].

(** [BACKSLASH]: the one-letter escapes. *)
Definition unescape (c : ascii) : option ascii :=
  let n := code c in
  if (n =? 34)%N then Some dquote
  else if (n =? 92)%N then Some backslash
  else if (n =? 47)%N then Some "/"%char
  else if (n =? 98)%N then Some (chr 8)
  else if (n =? 102)%N then Some (chr 12)
  else if (n =? 110)%N then Some (chr 10)
  else if (n =? 114)%N then Some (chr 13)
  else if (n =? 116)%N then Some (chr 9)
  else None.

Definition is_high_surrogate (u : N) : bool := (55296 <=? u)%N && (u <=? 56319)%N.
Definition is_low_surrogate (u : N) : bool := (56320 <=? u)%N && (u <=? 57343)%N.

(** [scanstring], strict: reads up to the closing quote; [acc] holds the
    characters read so far, last first. *)
Fixpoint scanstring (cs : list ascii) (acc : list ascii) : result (string * list ascii) :=
  match cs with
  | [] => Raise (JSONDecodeError "Unterminated string starting at")
  | c :: r =>
    if (code c =? 34)%N then Ok (string_of_list_ascii (rev acc), r)
    else if (code c =? 92)%N then
      match r with
      | [] => Raise (JSONDecodeError "Unterminated string starting at")
      | e :: r1 =>
        if (code e =? 117)%N then
          match r1 with
          | h1 :: h2 :: h3 :: h4 :: r2 =>
            match hex4 h1 h2 h3 h4 with
            | None => Raise (JSONDecodeError "Invalid \uXXXX escape")
            | Some u =>
              match r2 with
              | b :: e2 :: g1 :: g2 :: g3 :: g4 :: r3 =>
                if is_high_surrogate u && (code b =? 92)%N && (code e2 =? 117)%N then
                  match hex4 g1 g2 g3 g4 with
                  | None => Raise (JSONDecodeError "Invalid \uXXXX escape")
                  | Some u2 =>
                    if is_low_surrogate u2 then
                      scanstring r3
                        (rev (utf8 (65536 + (u - 55296) * 1024 + (u2 - 56320))%N) ++ acc)
                    else scanstring r2 (rev (utf8 u) ++ acc)
                  end
                else scanstring r2 (rev (utf8 u) ++ acc)
              | _ => scanstring r2 (rev (utf8 u) ++ acc)
              end
            end
          | _ => Raise (JSONDecodeError "Invalid \uXXXX escape")
          end
        else
          match unescape e with
          | Some ch => scanstring r1 (ch :: acc)
          | None => Raise (JSONDecodeError "Invalid \escape")
          end
      end
    else if (code c <? 32)%N then Raise (JSONDecodeError "Invalid control character at")
    else scanstring r (c :: acc)
  end.

(** The longest run of digits at the head. *)
Fixpoint span_digits (cs : list ascii) : list ascii * list ascii :=
  match cs with
  | c :: r =>
    if is_digit c then let '(ds, rest) := span_digits r in (c :: ds, rest)
    else ([], cs)
  | [] => ([], [])
  end.

Definition digits_to_Z (ds : list ascii) : Z :=
  fold_left (fun acc d => (acc * 10 + Z.of_N (code d - 48))%Z) ds 0%Z.

(** The integer part of [NUMBER_RE]: an optional minus sign, then a
    single 0 or a non-zero digit followed by digits. *)
Definition match_int (cs : list ascii) : option (bool * list ascii * list ascii) :=
  let '(neg, cs1) :=
    match cs with
    | c :: r => if (code c =? 45)%N then (true, r) else (false, cs)
    | [] => (false, cs)
    end in
  match cs1 with
  | c :: r =>
    if (code c =? 48)%N then Some (neg, [c], r)
    else if is_digit c then let '(ds, rest) := span_digits r in Some (neg, c :: ds, rest)
    else None
  | [] => None
  end.

(** The optional fraction of [NUMBER_RE]: a dot and at least one digit. *)
Definition match_frac (cs : list ascii) : list ascii * list ascii :=
  match cs with
  | c :: r =>
    if (code c =? 46)%N then
      match span_digits r with
      | ([], _) => ([], cs)
      | (ds, rest) => (c :: ds, rest)
      end
    else ([], cs)
  | [] => ([], cs)
  end.

(** The optional exponent of [NUMBER_RE]: e or E, an optional sign, at
    least one digit. *)
Definition match_exp (cs : list ascii) : list ascii * list ascii :=
  match cs with
  | c :: r =>
    if (code c =? 101)%N || (code c =? 69)%N then
      let '(sign, r1) :=
        match r with
        | s :: r' => if (code s =? 45)%N || (code s =? 43)%N then ([s], r') else ([], r)
        | [] => ([], r)
        end in
      match span_digits r1 with
      | ([], _) => ([], cs)
      | (ds, rest) => (c :: sign ++ ds, rest)
      end
    else ([], cs)
  | [] => ([], cs)
  end.

(** [int(integer)] for the digits of a literal: a literal of more than 640
    digits is checked against the interpreter's limit (the sign is not
    counted). *)
Definition int_of_digits (max_str_digits : nat) (neg : bool) (ds : list ascii) : result Z :=
  let digits := length ds in
  if (640 <? digits)%nat && (0 <? max_str_digits)%nat && (max_str_digits <? digits)%nat then
    Raise (ValueError ("Exceeds the limit (" ++ pretty max_str_digits
                       ++ " digits) for integer string conversion: value has "
                       ++ pretty digits
                       ++ " digits; use sys.set_int_max_str_digits() to increase the limit"))
  else
    let z := digits_to_Z ds in Ok (if neg then (- z)%Z else z).

(** [match_number]: an integer becomes an [int], anything with a fraction
    or an exponent a [float]. *)
Definition match_number (max_str_digits : nat) (cs : list ascii)
  : option (result (value * list ascii)) :=
  match match_int cs with
  | None => None
  | Some (neg, ds, r) =>
    let '(frac, r1) := match_frac r in
    let '(ex, r2) := match_exp r1 in
    match frac, ex with
    | [], [] => Some (z ← int_of_digits max_str_digits neg ds; Ok (JInt z, r2))
    | _, _ =>
      let sign := if neg then ["-"%char] else [] in
      Some (Ok (JFloat (string_of_list_ascii (sign ++ ds ++ frac ++ ex)), r2))
    end
  end.

(** [s[idx:idx+len(lit)] == lit] *)
Fixpoint strip_prefix (lit cs : list ascii) : option (list ascii) :=
  match lit with
  | [] => Some cs
  | l :: lit' =>
    match cs with
    | c :: r => if Ascii.eqb l c then strip_prefix lit' r else None
    | [] => None
    end
  end.

(** [dict(pairs)]: a repeated key keeps its first place and takes the
    last value. *)
Fixpoint dict_set (k : string) (v : value) (d : list (string * value)) : list (string * value) :=
  match d with
  | [] => [(k, v)]
  | (k', v') :: d' => if String.eqb k k' then (k, v) :: d' else (k', v') :: dict_set k v d'
  end.

Definition dict_of_pairs (pairs : list (string * value)) : list (string * value) :=
  fold_left (fun d kv => dict_set kv.1 kv.2 d) pairs [].

Section Containers.

(** [scan_once], for the values inside an array or an object. *)
Variable scan : list ascii -> result (value * list ascii).

(** The loop of [JSONArray], entered at a value; [acc] holds the values
    read so far, last first; [n] bounds the number of rounds. *)
Fixpoint array_loop (n : nat) (cs : list ascii) (acc : list value) : result (value * list ascii) :=
  match n with
  | 0 => Raise RecursionError
  | S n' =>
    '(v, r) ← scan cs;
    match skip_ws r with
    | c :: r' =>
      if (code c =? 93)%N then Ok (JList (rev (v :: acc)), r')
      else if (code c =? 44)%N then array_loop n' (skip_ws r') (v :: acc)
      else Raise (JSONDecodeError "Expecting ',' delimiter")
    | [] => Raise (JSONDecodeError "Expecting ',' delimiter")
    end
  end.

(** [JSONArray], entered after the opening bracket. *)
Definition JSONArray (n : nat) (cs : list ascii) : result (value * list ascii) :=
  match skip_ws cs with
  | c :: r => if (code c =? 93)%N then Ok (JList [], r) else array_loop n (c :: r) []
  | [] => array_loop n [] []
  end.

(** The loop of [JSONObject], entered after the opening quote of a key. *)
Fixpoint object_loop (n : nat) (cs : list ascii) (acc : list (string * value)) : result (value * list ascii) :=
  match n with
  | 0 => Raise RecursionError
  | S n' =>
    '(k, r) ← scanstring cs [];
    match skip_ws r with
    | c :: r1 =>
      if (code c =? 58)%N then
        '(v, r2) ← scan (skip_ws r1);
        match skip_ws r2 with
        | d :: r3 =>
          if (code d =? 125)%N then Ok (JDict (dict_of_pairs (rev ((k, v) :: acc))), r3)
          else if (code d =? 44)%N then
            match skip_ws r3 with
            | q :: r4 =>
              if (code q =? 34)%N then object_loop n' r4 ((k, v) :: acc)
              else Raise (JSONDecodeError "Expecting property name enclosed in double quotes")
            | [] => Raise (JSONDecodeError "Expecting property name enclosed in double quotes")
            end
          else Raise (JSONDecodeError "Expecting ',' delimiter")
        | [] => Raise (JSONDecodeError "Expecting ',' delimiter")
        end
      else Raise (JSONDecodeError "Expecting ':' delimiter")
    | [] => Raise (JSONDecodeError "Expecting ':' delimiter")
    end
  end.

(** [JSONObject], entered after the opening brace. *)
Definition JSONObject (n : nat) (cs : list ascii) : result (value * list ascii) :=
  match skip_ws cs with
  | c :: r =>
    if (code c =? 125)%N then Ok (JDict [], r)
    else if (code c =? 34)%N then object_loop n r []
    else Raise (JSONDecodeError "Expecting property name enclosed in double quotes")
  | [] => Raise (JSONDecodeError "Expecting property name enclosed in double quotes")
  end.

End Containers.

Definition lit (s : string) : list ascii := list_ascii_of_string s.

(** [scan_once]: one value at the head of [cs].  [depth] is the number of
    containers the scanner may still enter, one inside the other: entering
    one more is a [RecursionError]. *)
Fixpoint scan_once (max_str_digits : nat) (depth : nat) (cs : list ascii)
  : result (value * list ascii) :=
  match cs with
  | [] => Raise (JSONDecodeError "Expecting value")
  | c :: r =>
    if (code c =? 34)%N then '(s, r') ← scanstring r []; Ok (JStr s, r')
    else if (code c =? 123)%N then
      match depth with
      | 0 => Raise RecursionError
      | S depth' => JSONObject (scan_once max_str_digits depth') (S (length r)) r
      end
    else if (code c =? 91)%N then
      match depth with
      | 0 => Raise RecursionError
      | S depth' => JSONArray (scan_once max_str_digits depth') (S (length r)) r
      end
    else
      match strip_prefix (lit "null") cs, strip_prefix (lit "true") cs,
            strip_prefix (lit "false") cs with
      | Some r', _, _ => Ok (JNull, r')
      | _, Some r', _ => Ok (JBool true, r')
      | _, _, Some r' => Ok (JBool false, r')
      | None, None, None =>
        match match_number max_str_digits cs with
        | Some res => res
        | None =>
          match strip_prefix (lit "NaN") cs, strip_prefix (lit "Infinity") cs,
                strip_prefix (lit "-Infinity") cs with
          | Some r', _, _ => Ok (JFloat "NaN", r')
          | _, Some r', _ => Ok (JFloat "Infinity", r')
          | _, _, Some r' => Ok (JFloat "-Infinity", r')
          | None, None, None => Raise (JSONDecodeError "Expecting value")
          end
        end
      end
  end.

(** A [str] that starts with U+FEFF. *)
Definition starts_with_bom (cs : list ascii) : bool :=
  match cs with
  | a :: b :: c :: _ => (code a =? 239)%N && (code b =? 187)%N && (code c =? 191)%N
  | _ => false
  end.

(** [json.loads(s)] *)
Definition loads (py : interpreter) (s : string) : result value :=
  let cs := list_ascii_of_string s in
  if starts_with_bom cs then Raise (JSONDecodeError "Unexpected UTF-8 BOM (decode using utf-8-sig)")
  else
    let cs := skip_ws cs in
    '(v, r) ← scan_once (int_max_str_digits py) (S (json_nesting py)) cs;
    match skip_ws r with
    | [] => Ok v
    | _ :: _ => Raise (JSONDecodeError "Extra data")
    end.

(** The number of containers nested in one another in a value. *)
Fixpoint nesting (v : value) : nat :=
  match v with
  | JList items => S (foldr (fun item m => Nat.max (nesting item) m) 0 items)
  | JDict pairs =>
    S (foldr (fun kv m => Nat.max (match kv with (_, item) => nesting item end) m) 0 pairs)
  | _ => 0
  end.

(** The number of calls of [repr], one inside the other, that writing a
    value takes: one for the value, and for a container those of its
    items (of a dict: its keys and values). *)
Fixpoint repr_depth (v : value) : nat :=
  match v with
  | JList items => S (foldr (fun item m => Nat.max (repr_depth item) m) 0 items)
  | JDict pairs =>
    S (foldr (fun kv m => Nat.max (match kv with (_, item) => repr_depth item end) m) 0 pairs)
  | _ => 1
  end.

Definition hex_digit (n : N) : ascii :=
  if (n <? 10)%N then chr (48 + n) else chr (87 + n).

(** ['\\u{0:04x}'.format(n)] *)
Definition u_escape (n : N) : list ascii :=
  [backslash; "u"%char; hex_digit (n / 4096); hex_digit ((n / 256) mod 16);
   hex_digit ((n / 16) mod 16); hex_digit (n mod 16)].

(** The escape of one code point in [encode_basestring_ascii]. *)
Definition escape_cp (n : N) : list ascii :=
  if (n =? 34)%N then [backslash; dquote]
  else if (n =? 92)%N then [backslash; backslash]
  else if (n =? 10)%N then [backslash; "n"%char]
  else if (n =? 13)%N then [backslash; "r"%char]
  else if (n =? 9)%N then [backslash; "t"%char]
  else if (n =? 12)%N then [backslash; "f"%char]
  else if (n =? 8)%N then [backslash; "b"%char]
  else if (32 <=? n)%N && (n <=? 126)%N then [chr n]
  else if (n <? 65536)%N then u_escape n
  else
    let v := (n - 65536)%N in
    u_escape (55296 + (v / 1024) mod 1024) ++ u_escape (56320 + v mod 1024).

Definition is_cont (c : ascii) : bool := (128 <=? code c)%N && (code c <? 192)%N.

(** The body of [encode_basestring_ascii]: every character outside the
    printable ASCII range is escaped; a multi-byte UTF-8 sequence is one
    character. *)
Fixpoint escape_chars (cs : list ascii) : list ascii :=
  match cs with
  | [] => []
  | a :: r =>
    let n := code a in
    if (n <? 128)%N then escape_cp n ++ escape_chars r
    else
      match r with
      | b :: r1 =>
        if (192 <=? n)%N && (n <? 224)%N && is_cont b then
          escape_cp ((n - 192) * 64 + (code b - 128)) ++ escape_chars r1
        else
          match r1 with
          | c :: r2 =>
            if (224 <=? n)%N && (n <? 240)%N && is_cont b && is_cont c then
              escape_cp (((n - 224) * 64 + (code b - 128)) * 64 + (code c - 128))
                ++ escape_chars r2
            else
              match r2 with
              | d :: r3 =>
                if (240 <=? n)%N && is_cont b && is_cont c && is_cont d then
                  escape_cp ((((n - 240) * 64 + (code b - 128)) * 64 + (code c - 128)) * 64
                             + (code d - 128))
                    ++ escape_chars r3
                else escape_cp n ++ escape_chars r
              | [] => escape_cp n ++ escape_chars r
              end
          | [] => escape_cp n ++ escape_chars r
          end
      | [] => escape_cp n
      end
  end.

Definition encode_str (s : string) : list ascii :=
  dquote :: escape_chars (list_ascii_of_string s) ++ [dquote].

Fixpoint join_items (items : list (list ascii)) : list ascii :=
  match items with
  | [] => []
  | [x] => x
  | x :: rest => x ++ lit ", " ++ join_items rest
  end.

(** [json.dumps(pdbs)] for a list of [str]. *)
Definition dumps_strs (l : list string) : string :=
  string_of_list_ascii (lit "[" ++ join_items (map encode_str l) ++ lit "]").

End Json.

(** ** [code/inference.py]: the request and response handlers

    The handlers return Python objects; the ones that occur are a [str]
    ([JStr]), a list of [str] ([JList] of [JStr]) and whatever [json.loads]
    yields, so [Json.value] serves as the type of returned objects.  The
    [print] calls write to the container log; what the log then holds is
    not modelled, that a call can fail is. *)

Module Inference.

Import Json.

(** [print] writes [str(arg)] for one argument.  The text of a [str] is
    the [str] itself, which the stream may be unable to encode.  The text
    of any other value is its [repr]: there every character that cannot be
    printed, a surrogate among them, is written as an escape, and an [int]
    that the scanner accepted is within the digit limit, so the stream
    takes the text; but [repr] is a recursive call for every value it
    writes, the items of a container inside the call for the container. *)
Definition printable (py : interpreter) (arg : value) : bool :=
  match arg with
  | JStr s => encodable (stdout_errors py) (list_ascii_of_string s)
  | _ => (repr_depth arg <=? S (S (repr_nesting py)))%nat
  end.

Definition write_object (py : interpreter) (arg : value) : result unit :=
  match arg with
  | JStr s => write py s
  | _ => if printable py arg then Ok tt else Raise RecursionError
  end.

(** [print], given several arguments: the arguments in turn (the spaces between them and the
    line end are ASCII). *)
Fixpoint print (py : interpreter) (args : list value) : result unit :=
  match args with
  | [] => Ok tt
  | arg :: rest => _ ← write_object py arg; print py rest
  end.

(** <<
    def input_fn(request_body: str, request_content_type: str = "text/csv"):
        print(request_content_type)
        if request_content_type == "text/csv":
            sequence = request_body
            print("Input protein sequence: ", sequence)
            return sequence
        elif request_content_type == "application/json":
            sequence = json.loads(request_body)
            print("Input protein sequence: ", sequence)
            return sequence
        else:
            raise ValueError("Unsupported content type: {}".format(request_content_type))
    >> *)
Definition input_fn (py : interpreter) (request_body : string) (request_content_type : string)
  : result value :=
  _ ← print py [JStr request_content_type];
  if String.eqb request_content_type "text/csv" then
    let sequence := JStr request_body in
    _ ← print py [JStr "Input protein sequence: "; sequence];
    Ok sequence
  else if String.eqb request_content_type "application/json" then
    sequence ← loads py request_body;
    _ ← print py [JStr "Input protein sequence: "; sequence];
    Ok sequence
  else
    Raise (ValueError ("Unsupported content type: " ++ request_content_type)).

(** The call with the content type left out. *)
Definition input_fn_default (py : interpreter) (request_body : string) : result value :=
  input_fn py request_body "text/csv".

(** The content types both handlers accept. *)
Definition supported (content_type : string) : Prop :=
  content_type = "text/csv" \/ content_type = "application/json".

Section OutputFn.

(** What [predict_fn] hands over: the folding model's output for a batch.
    Its tensors are read through two functions: the batch size
    [outputs["aatype"].shape[0]], and the PDB text of the [i]-th structure,
    [to_pdb(OFProtein(...))] built from the [i]-th slice of each tensor. *)
Variable ModelOutput : Type.
Variable batch_size : ModelOutput -> nat.
Variable to_pdb : ModelOutput -> nat -> string.

(** The loop [for i in range(outputs["aatype"].shape[0]): pdbs.append(...)]. *)
Definition pdbs_of (outputs : ModelOutput) : list string :=
  map (to_pdb outputs) (seq 0 (batch_size outputs)).

(** <<
    def output_fn(outputs, response_content_type: str = "text/csv"):
        ...
        if response_content_type == "text/csv":
            return pdbs
        elif response_content_type == "application/json":
            return json.dumps(pdbs)
        else:
            raise ValueError("Unsupported content type: {}".format(response_content_type))
    >> *)
Definition output_fn (outputs : ModelOutput) (response_content_type : string) : result value :=
  let pdbs := pdbs_of outputs in
  if String.eqb response_content_type "text/csv" then
    Ok (JList (map JStr pdbs))
  else if String.eqb response_content_type "application/json" then
    Ok (JStr (dumps_strs pdbs))
  else
    Raise (ValueError ("Unsupported content type: " ++ response_content_type)).

End OutputFn.

End Inference.

(** ** Data loading: the length filter and the train/validation/test split

    <<
    df = pd.read_csv(...).drop(["Unnamed: 0", "Partition"], axis=1)
    df["Membrane"] = df["Membrane"].astype("float32")
    df = df[df["Sequence"].apply(lambda x: len(x)).between(100, 512)]
    train = df.sample(frac=0.8)
    df = df.drop(train.index)
    val = df.sample(frac=0.5)
    test = df.drop(val.index)
    train = train.reset_index(drop=True)
    val = val.reset_index(drop=True)
    test = test.reset_index(drop=True)
    dataset = DatasetDict({"train": ..., "test": ..., "validation": ...})
    >>

    A data frame is the list of its rows, each with its index label. *)

Module DataLoading.

(** One line of the DeepLoc file, without the two dropped columns: the
    columns the notebook names, and the remaining (label) columns in file
    order. *)
Record Row : Type := {
  ACC : string;
  Kingdom : string;
  Membrane : Q;
  Sequence : string;
  localization : list (string * Q)
}.

Abbreviation DataFrame := (list (nat * Row)).

(** [df.index] *)
Definition index (df : DataFrame) : list nat := df.*1.

(** The rows without their labels: what [Dataset.from_pandas] keeps of a
    frame whose index was reset. *)
Definition values (df : DataFrame) : list Row := df.*2.

(** [pd.read_csv]: the rows are labelled 0, 1, 2, ... *)
Definition read_csv (lines : list Row) : DataFrame :=
  zip (seq 0 (length lines)) lines.

(** [Series.between(left, right)], inclusive on both sides. *)
Definition between (left right x : nat) : bool :=
  (left <=? x)%nat && (x <=? right)%nat.

(** [len(x)] of a sequence. *)
Definition len (s : string) : nat := String.length s.

Definition in_window (r : Row) : bool := between 100 512 (len (Sequence r)).

(** [df[df["Sequence"].apply(lambda x: len(x)).between(100, 512)]] *)
Definition length_filter (df : DataFrame) : DataFrame :=
  filter (fun ir => in_window ir.2) df.

(** Python's [round] of the fraction [p / q], [q > 0]: to the nearest
    integer, a tie to the even one. *)
Definition round_half_even (p q : nat) : nat :=
  let d := p / q in
  let r := p mod q in
  if (2 * r <? q)%nat then d
  else if (q <? 2 * r)%nat then S d
  else if Nat.even d then d else S d.

(** [round(frac * len(df))], the number of rows [sample] draws, for the
    fraction [num / den].  (0.8 times an integer is never half-way between
    two integers, and the rounding of the floating-point product is far
    smaller than the distance to the nearest half; 0.5 times an integer is
    exact.) *)
Definition sample_size (num den n : nat) : nat := round_half_even (num * n) den.

(** [DataFrame.take]: the rows at the given positions, in that order; a
    position outside the frame is an [IndexError]. *)
Fixpoint take_rows (df : DataFrame) (locs : list nat) : result DataFrame :=
  match locs with
  | [] => Ok []
  | i :: locs' =>
    match df !! i with
    | Some row => rows ← take_rows df locs'; Ok (row :: rows)
    | None => Raise IndexError
    end
  end.

(** [df.drop(labels)]: the rows whose label is not listed; a label that
    the frame does not have is a [KeyError]. *)
Definition drop (labels : list nat) (df : DataFrame) : result DataFrame :=
  if decide (labels ⊆ index df) then
    Ok (filter (fun ir => ir.1 ∉ labels) df)
  else Raise (KeyError "not found in axis").

(** [df.reset_index(drop=True)] *)
Definition reset_index (df : DataFrame) : DataFrame :=
  zip (seq 0 (length df)) (values df).

Record DatasetDict : Type := {
  train : list Row;
  test : list Row;
  validation : list Row
}.

(** What a random state may answer to [choice(n, size=k, replace=False)]:
    [k] distinct positions below [n]. *)
Definition sampler (choice : nat -> nat -> list nat) : Prop :=
  forall n k, k <= n ->
    length (choice n k) = k /\ NoDup (choice n k) /\ Forall (fun i => i < n) (choice n k).

Section WithRandomState.

(** The answers of numpy's global random state to the first and to the
    second [sample] call. *)
Variable choice1 choice2 : nat -> nat -> list nat.

(** [df.sample(frac=num/den)] with the random state answering [choice]. *)
Definition sample (choice : nat -> nat -> list nat) (num den : nat) (df : DataFrame) : result DataFrame :=
  take_rows df (choice (length df) (sample_size num den (length df))).

(** The three frames before their index is reset. *)
Definition split (lines : list Row) : result (DataFrame * DataFrame * DataFrame) :=
  let df := length_filter (read_csv lines) in
  train ← sample choice1 4 5 df;
  df ← drop (index train) df;
  val ← sample choice2 1 2 df;
  test ← drop (index val) df;
  Ok (train, val, test).

(** The whole cell. *)
Definition data_loading (lines : list Row) : result DatasetDict :=
  '(train, val, test) ← split lines;
  let train := reset_index train in
  let val := reset_index val in
  let test := reset_index test in
  Ok {| train := values train; test := values test; validation := values val |}.

End WithRandomState.

End DataLoading.

(** ** The ESM-2 tokenizer, as the two notebooks call it

    [AutoTokenizer.from_pretrained("facebook/esm2_...")] is the
    [transformers] library's [EsmTokenizer] with the vocabulary file of the
    ESM-2 checkpoints.  The notebooks call it as

    <<
    tokenizer(text, padding="max_length", truncation=True, max_length=L)
    tokenizer.decode(example["input_ids"])
    >>

    with [add_special_tokens] left at its default [True] (the ESMFold
    notebook passes [add_special_tokens=False] where it wants none).  The
    model follows the library: the text is cut into vocabulary tokens, what
    lies between them is split at white space and looked up as a whole, the
    ids are truncated to leave room for the two special tokens, framed by
    [<cls>] and [<eos>], and padded on the right. *)

Module Esm.

(** [vocab.txt] of the ESM-2 checkpoints; a token's id is its position. *)
Definition vocab : list string :=
  ["<cls>"; "<pad>"; "<eos>"; "<unk>";
   "L"; "A"; "G"; "V"; "S"; "E"; "R"; "T"; "I"; "D"; "P"; "K"; "Q"; "N"; "F"; "Y";
   "M"; "H"; "W"; "C"; "X"; "B"; "U"; "Z"; "O"; "."; "-";
   "<null_1>"; "<mask>"].

Definition cls_token_id : nat := 0.
Definition pad_token_id : nat := 1.
Definition eos_token_id : nat := 2.
Definition unk_token_id : nat := 3.
Definition mask_token_id : nat := 32.

Definition unk_token : string := "<unk>".

(** The position of [tok] in [l], counted from [i]. *)
Fixpoint position (tok : string) (l : list string) (i : nat) : option nat :=
  match l with
  | [] => None
  | t :: rest => if String.eqb tok t then Some i else position tok rest (S i)
  end.

(** [_convert_token_to_id]: unknown tokens get the id of [<unk>]. *)
Definition convert_token_to_id (tok : string) : nat :=
  default unk_token_id (position tok vocab 0).

(** [_convert_id_to_token]: unknown ids give [<unk>]. *)
Definition convert_id_to_token (id : nat) : string :=
  default unk_token (vocab !! id).

(** [text.startswith(tok)] *)
Fixpoint starts_with (tok text : string) : bool :=
  match tok with
  | EmptyString => true
  | String a tok' =>
    match text with
    | EmptyString => false
    | String b text' => Ascii.eqb a b && starts_with tok' text'
    end
  end.

(** The vocabulary token the text starts with, if any (no token is the
    beginning of another). *)
Definition leading_token (text : string) : option string :=
  List.find (fun tok => starts_with tok text) vocab.

(** White space for [str.split()], within ASCII. *)
Definition is_space (c : ascii) : bool :=
  let n := N_of_ascii c in
  ((9 <=? n)%N && (n <=? 13)%N) || ((28 <=? n)%N && (n <=? 32)%N).

(** An unknown word that ended: one token, unless empty. *)
Definition flush (word : list ascii) : list string :=
  match word with
  | [] => []
  | _ :: _ => [string_of_list_ascii (rev word)]
  end.

(** [tokenize]: [skip] counts the characters still to pass of a token
    already emitted, [word] holds the current unknown word, last character
    first. *)
Fixpoint tokenize_from (text : string) (skip : nat) (word : list ascii) : list string :=
  match text with
  | EmptyString => flush word
  | String c rest =>
    match skip with
    | S k => tokenize_from rest k word
    | 0 =>
      match leading_token text with
      | Some tok => flush word ++ tok :: tokenize_from rest (String.length tok - 1) []
      | None =>
        if is_space c then flush word ++ tokenize_from rest 0 []
        else tokenize_from rest 0 (c :: word)
      end
    end
  end.

Definition tokenize (text : string) : list string := tokenize_from text 0 [].

Definition convert_tokens_to_ids (tokens : list string) : list nat :=
  map convert_token_to_id tokens.

(** [truncate_sequences] for one sequence, truncation on the right: the
    ids and the two special tokens together may take [max_length] places.
    Nothing is cut when no id would be left, or when [max_length] is 0. *)
Definition truncate (max_length : nat) (ids : list nat) : list nat :=
  let total_len := length ids + 2 in
  if (0 <? max_length)%nat && (max_length <? total_len)%nat then
    let num_tokens_to_remove := total_len - max_length in
    if (num_tokens_to_remove <? length ids)%nat
    then firstn (length ids - num_tokens_to_remove) ids
    else ids
  else ids.

(** [build_inputs_with_special_tokens] *)
Definition build_inputs_with_special_tokens (ids : list nat) : list nat :=
  cls_token_id :: ids ++ [eos_token_id].

Record Encoding : Type := {
  input_ids : list nat;
  attention_mask : list nat
}.

(** [_pad] with [padding="max_length"], padding on the right. *)
Definition pad (max_length : nat) (ids : list nat) : Encoding :=
  let difference := max_length - length ids in
  {| input_ids := ids ++ repeat pad_token_id difference;
     attention_mask := repeat 1 (length ids) ++ repeat 0 difference |}.

(** The call on one text. *)
Definition encode (text : string) (max_length : nat) : Encoding :=
  pad max_length
    (build_inputs_with_special_tokens
       (truncate max_length (convert_tokens_to_ids (tokenize text)))).

Record BatchEncoding : Type := {
  batch_input_ids : list (list nat);
  batch_attention_mask : list (list nat)
}.

(** The call on a list of texts. *)
Definition tokenizer (text : list string) (max_length : nat) : BatchEncoding :=
  {| batch_input_ids := map (fun t => input_ids (encode t max_length)) text;
     batch_attention_mask := map (fun t => attention_mask (encode t max_length)) text |}.

(** [" ".join(tokens)] *)
Fixpoint join_space (tokens : list string) : string :=
  match tokens with
  | [] => ""
  | [t] => t
  | t :: rest => t ++ " " ++ join_space rest
  end.

(** [text.replace(old, new)] for a non-empty [old]; [skip] counts the
    characters still to pass of an occurrence already replaced. *)
Fixpoint replace_from (old new : string) (text : string) (skip : nat) : string :=
  match text with
  | EmptyString => ""
  | String c rest =>
    match skip with
    | S k => replace_from old new rest k
    | 0 =>
      if starts_with old text
      then new ++ replace_from old new rest (String.length old - 1)
      else String c (replace_from old new rest 0)
    end
  end.

Definition replace (old new text : string) : string := replace_from old new text 0.

Definition apostrophe : string := String (ascii_of_nat 39) "".

(** [clean_up_tokenization] *)
Definition clean_up_tokenization (out_string : string) : string :=
  let q := apostrophe in
  replace (" " ++ q ++ "re") (q ++ "re")
   (replace (" " ++ q ++ "ve") (q ++ "ve")
    (replace (" " ++ q ++ "s") (q ++ "s")
     (replace (" " ++ q ++ "m") (q ++ "m")
      (replace (" n" ++ q ++ "t") ("n" ++ q ++ "t")
       (replace (" " ++ q ++ " ") q
        (replace " ," ","
         (replace " !" "!"
          (replace " ?" "?"
           (replace " ." "." out_string))))))))).

(** [tokenizer.decode(ids)], special tokens kept: the tokens joined by
    spaces, then cleaned up. *)
Definition decode (ids : list nat) : string :=
  clean_up_tokenization (join_space (map convert_id_to_token ids)).

(** [text[:n]] *)
Fixpoint str_take (n : nat) (text : string) : string :=
  match n, text with
  | S n', String c rest => String c (str_take n' rest)
  | _, _ => ""
  end.

(** The ids that stand for special tokens ([all_special_ids]). *)
Definition is_special (id : nat) : bool :=
  (id =? cls_token_id)%nat || (id =? pad_token_id)%nat || (id =? eos_token_id)%nat
  || (id =? unk_token_id)%nat || (id =? mask_token_id)%nat.

(** The tokens of [ids] that are not special, written one after the other. *)
Definition residues (ids : list nat) : string :=
  String.concat "" (map convert_id_to_token (List.filter (fun id => negb (is_special id)) ids)).

(** The number of pad tokens at the end of an array. *)
Fixpoint leading_pads (ids : list nat) : nat :=
  match ids with
  | id :: rest => if (id =? pad_token_id)%nat then S (leading_pads rest) else 0
  | [] => 0
  end.

Definition trailing_pads (ids : list nat) : nat := leading_pads (rev ids).

(** The token of a one-letter symbol. *)
Definition single (c : ascii) : string := String c "".

(** Text made of the vocabulary's one-letter symbols only. *)
Definition symbol (c : ascii) : bool :=
  match position (String c "") vocab 0 with
  | Some _ => true
  | None => false
  end.

Fixpoint symbols_only (text : string) : bool :=
  match text with
  | EmptyString => true
  | String c rest => symbol c && symbols_only rest
  end.

End Esm.

(** ** [labels], [preprocess_data] and [tokenize_data]

    [Dataset.map(..., batched=True)] hands the function a batch: a [dict]
    from column name to the list of that column's values, every list as long
    as the batch. *)

Module Preprocess.

(** A column of a batch holds text or numbers. *)
Inductive column : Type :=
| ColText (cells : list string)
| ColNum (cells : list Q).

(** [examples[key]] *)
Definition getitem (examples : gmap string column) (key : string) : result column :=
  match examples !! key with
  | Some c => Ok c
  | None => Raise (KeyError key)
  end.

(** <<
    labels = [
        label
        for label in dataset["train"].features.keys()
        if label not in ["ACC", "Kingdom", "Membrane", "Sequence"]
    ]
    >> *)
Definition labels_of (features : list string) : list string :=
  List.filter
    (fun label => negb (existsb (String.eqb label) ["ACC"; "Kingdom"; "Membrane"; "Sequence"]))
    features.

(** [np.zeros((rows, cols))] *)
Definition zeros (rows cols : nat) : list (list Q) := repeat (repeat 0%Q cols) rows.

(** [labels_matrix[:, idx] = values]: the values go down column [idx], one
    per row; a single value is broadcast to every row; any other length is
    refused.  Text is refused as well (numpy parses text that spells a
    number; such label columns are left out of the model). *)
Definition assign_column (labels_matrix : list (list Q)) (idx : nat) (values : column)
  : result (list (list Q)) :=
  match values with
  | ColText _ => Raise (ValueError "could not convert string to float")
  | ColNum cells =>
    if (length cells =? length labels_matrix)%nat then
      Ok (zip_with (fun row v => <[idx := v]> row) labels_matrix cells)
    else
      match cells with
      | [v] => Ok (map (fun row => <[idx := v]> row) labels_matrix)
      | _ => Raise (ValueError "could not broadcast input array")
      end
  end.

(** <<
    for idx, label in enumerate(labels):
        labels_matrix[:, idx] = labels_batch[label]
    >>
    from position [idx] on. *)
Fixpoint fill_labels (labels_batch : gmap string column) (idx : nat) (labels : list string)
    (labels_matrix : list (list Q)) : result (list (list Q)) :=
  match labels with
  | [] => Ok labels_matrix
  | label :: rest =>
    values ← getitem labels_batch label;
    labels_matrix ← assign_column labels_matrix idx values;
    fill_labels labels_batch (S idx) rest labels_matrix
  end.

(** The tokenizer wants text. *)
Definition as_text (c : column) : result (list string) :=
  match c with
  | ColText cells => Ok cells
  | ColNum _ => Raise (ValueError "text input must be of type str")
  end.

(** What [preprocess_data] returns: the tokenizer's encoding with the key
    ["labels"] added. *)
Record Encoded : Type := {
  input_ids : list (list nat);
  attention_mask : list (list nat);
  labels_field : list (list Q)
}.

(** <<
    def preprocess_data(examples, max_length=512):
        text = examples["Sequence"]
        encoding = tokenizer(
            text, padding="max_length", truncation=True, max_length=max_length
        )
        labels_batch = {k: examples[k] for k in examples.keys() if k in labels}
        labels_matrix = np.zeros((len(text), len(labels)))
        for idx, label in enumerate(labels):
            labels_matrix[:, idx] = labels_batch[label]
        encoding["labels"] = labels_matrix.tolist()
        return encoding
    >>
    [labels] is the notebook global computed by [labels_of]. *)
Definition preprocess_data (labels : list string) (examples : gmap string column)
    (max_length : nat) : result Encoded :=
  text ← getitem examples "Sequence";
  text ← as_text text;
  let encoding := Esm.tokenizer text max_length in
  let labels_batch := filter (fun kv => kv.1 ∈ labels) examples in
  let labels_matrix := zeros (length text) (length labels) in
  labels_matrix ← fill_labels labels_batch 0 labels labels_matrix;
  Ok {| input_ids := Esm.batch_input_ids encoding;
        attention_mask := Esm.batch_attention_mask encoding;
        labels_field := labels_matrix |}.

(** The default [max_length=512], which [dataset.map(preprocess_data, ...)]
    uses. *)
Definition preprocess_data_default (labels : list string) (examples : gmap string column)
  : result Encoded :=
  preprocess_data labels examples 512.

(** <<
    def tokenize_data(examples, tokenizer, sequence_length):
        encoding = tokenizer(
            examples["text"],
            padding="max_length",
            truncation=True,
            max_length=sequence_length,
        )
        return encoding
    >> *)
Definition tokenize_data (examples : gmap string column)
    (tokenizer : list string -> nat -> Esm.BatchEncoding) (sequence_length : nat)
  : result Esm.BatchEncoding :=
  text ← getitem examples "text";
  text ← as_text text;
  Ok (tokenizer text sequence_length).

(** [sequence_length = 142], the value passed through [fn_kwargs]. *)
Definition sequence_length : nat := 142.

(** A batch as [Dataset.map] builds it for [preprocess_data]: the sequences
    under ["Sequence"], and under every label a numeric column with one
    value per sequence. *)
Definition well_formed_batch (labels : list string) (examples : gmap string column)
    (text : list string) : Prop :=
  examples !! "Sequence" = Some (ColText text) /\
  forall label, label ∈ labels ->
    exists cells, examples !! label = Some (ColNum cells) /\ length cells = length text.

End Preprocess.

(** ** The training-job configurations

    <<
    hyperparameters = {"epochs": 2, "max_length": 512, ...}
    huggingface_estimator_g5_3b = HuggingFace(
        base_job_name="esm-3B-loc-ft-lora",
        entry_point="lora-train.py",
        ...
        hyperparameters=hyperparameters,
        metric_definitions=metric_definitions,
        ...
    )
    >>

    The notebooks write the hyperparameters as a [dict] literal and pass it,
    with the metric definitions, to the estimator of the SageMaker SDK.  The
    estimator object records its arguments for the job request; neither the
    notebooks nor the constructor look at the names of the hyperparameters.
    Of the arguments, those that make up the job configuration are kept:
    the names of the job and of its script, the instance type and count, the
    container image, the hyperparameters and the metric definitions (the
    role, the session, the output path and the tags are the notebook's
    ambient values). *)

Module JobConfig.

(** A hyperparameter value: a number, a string or a truth value. *)
Inductive hvalue : Type :=
| HInt (z : Z)
| HStr (s : string)
| HBool (b : bool).

(** A [dict] literal: of two entries with one key the later one stays. *)
Definition py_dict {V : Type} (items : list (string * V)) : gmap string V :=
  foldl (fun d kv => <[kv.1 := kv.2]> d) ∅ items.

Record MetricDefinition : Type := {
  Name : string;
  Regex : string
}.

(** The container image: the framework versions from which the SDK picks
    the image, or the image itself. *)
Inductive image : Type :=
| Versions (transformers_version pytorch_version py_version : string)
| ImageUri (image_uri : string).

Record Estimator : Type := {
  base_job_name : string;
  entry_point : string;
  source_dir : string;
  instance_type : string;
  instance_count : nat;
  container : image;
  hyperparameters : gmap string hvalue;
  metric_definitions : list MetricDefinition
}.

(** [HuggingFace(...)] *)
Definition HuggingFace (base_job_name entry_point source_dir instance_type : string)
    (instance_count : nat) (transformers_version pytorch_version py_version : string)
    (hyperparameters : gmap string hvalue) (metric_definitions : list MetricDefinition)
  : result Estimator :=
  Ok {| base_job_name := base_job_name;
        entry_point := entry_point;
        source_dir := source_dir;
        instance_type := instance_type;
        instance_count := instance_count;
        container := Versions transformers_version pytorch_version py_version;
        hyperparameters := hyperparameters;
        metric_definitions := metric_definitions |}.

(** [PyTorch(...)] *)
Definition PyTorch (base_job_name entry_point source_dir instance_type : string)
    (instance_count : nat) (image_uri : string)
    (hyperparameters : gmap string hvalue) (metric_definitions : list MetricDefinition)
  : result Estimator :=
  Ok {| base_job_name := base_job_name;
        entry_point := entry_point;
        source_dir := source_dir;
        instance_type := instance_type;
        instance_count := instance_count;
        container := ImageUri image_uri;
        hyperparameters := hyperparameters;
        metric_definitions := metric_definitions |}.

(** *** The fine-tuning notebook *)

Definition metric (name regex : string) : MetricDefinition :=
  {| Name := name; Regex := regex |}.

Definition metric_definitions_peft : list MetricDefinition :=
  [metric "epoch" "'epoch': ([0-9.]*)";
   metric "train_loss" "'loss': ([0-9.e-]*)";
   metric "learning_rate" "'learning_rate': ([0-9.e-]*)";
   metric "train_runtime" "'train_runtime': ([0-9.e-]*)";
   metric "train_samples_per_second" "'train_samples_per_second': ([0-9.e-]*)";
   metric "train_steps_per_second" "'train_steps_per_second': ([0-9.e-]*)";
   metric "eval_loss" "'eval_loss': ([0-9.e-]*)";
   metric "eval_accuracy" "'eval_accuracy': ([0-9.e-]*)";
   metric "eval_f1" "'eval_f1': ([0-9.e-]*)";
   metric "eval_roc_auc" "'eval_roc_auc': ([0-9.e-]*)";
   metric "eval_runtime" "'eval_runtime': ([0-9.e-]*)";
   metric "eval_samples_per_second" "'eval_samples_per_second': ([0-9.e-]*)";
   metric "eval_steps_per_second" "'eval_steps_per_second': ([0-9.e-]*)"].

Definition hyperparameters_peft : gmap string hvalue :=
  py_dict
    [("epochs", HInt 2);
     ("max_length", HInt 512);
     ("model_id", HStr "facebook/esm2_t36_3B_UR50D");
     ("num_labels", HInt 10);
     ("problem_type", HStr "multi_label_classification");
     ("per_device_train_batch_size", HInt 2);
     ("per_device_eval_batch_size", HInt 32);
     ("gradient_accumulation_steps", HInt 16)].

(** The estimator cell, for any value of the global [hyperparameters]. *)
Definition huggingface_estimator_g5_3b (hyperparameters : gmap string hvalue)
  : result Estimator :=
  HuggingFace "esm-3B-loc-ft-lora" "lora-train.py" "scripts/training/peft"
    "ml.g5.2xlarge" 1 "4.28" "2.0" "py310" hyperparameters metric_definitions_peft.

(** *** The domain-adaptation notebook *)

Definition metric_definitions_oas : list MetricDefinition :=
  [metric "epoch" "Epoch: ([0-9.]*)";
   metric "step" "Step: ([0-9.]*)";
   metric "train_loss" "Training Loss: ([0-9.e-]*)";
   metric "train_perplexity" "Training Perplexity: ([0-9.e-]*)";
   metric "train_samples_per_second" "Training Samples/sec: ([0-9.e-]*)";
   metric "train_tokens_per_second" "Training Tokens/sec: ([0-9.e-]*)";
   metric "eval_loss" "Eval Loss: ([0-9.e-]*)";
   metric "eval_perplexity" "Eval Perplexity: ([0-9.e-]*)";
   metric "eval_samples_per_second" "Eval Samples/sec: ([0-9.e-]*)";
   metric "eval_tokens_per_second" "Eval Tokens/sec: ([0-9.e-]*)"].

Definition MODEL_ID : string := "facebook/esm2_t6_8M_UR50D".

Definition hyperparameters_trn1 : gmap string hvalue :=
  py_dict
    [("num_train_epochs", HInt 2);
     ("model_id", HStr MODEL_ID);
     ("per_device_train_batch_size", HInt 2);
     ("per_device_eval_batch_size", HInt 8);
     ("bf16", HBool true);
     ("logging_steps", HInt 8);
     ("optim", HStr "adamw_torch");
     ("gradient_accumulation_steps", HInt 4);
     ("device", HStr "xla")].

(** The estimator cell, for any region and any value of [hyperparameters]. *)
Definition trn1_estimator (REGION_NAME : string) (hyperparameters : gmap string hvalue)
  : result Estimator :=
  PyTorch "esm-2-oas-trn1" "trn1-oas-mlm-train-dp.py" "scripts/training/neuron"
    "ml.trn1.32xlarge" 1
    ("763104351884.dkr.ecr." ++ REGION_NAME
       ++ ".amazonaws.com/pytorch-training-neuronx:1.13.1-neuronx-py310-sdk2.12.0-ubuntu20.04")
    hyperparameters metric_definitions_oas.

End JobConfig.

(** ** Example inputs

    Two random states, a small DeepLoc file and a batch, for the examples
    further down. *)

Module Demo.

Import DataLoading Preprocess.

(** An interpreter with the defaults of a recent CPython in a container:
    the recursion limit of 1000 with some of it in use, the digit limit of
    4300, and a log that escapes what it can. *)
Definition cpython : interpreter :=
  {| json_nesting := 900; repr_nesting := 900; int_max_str_digits := 4300;
     stdout_errors := Surrogateescape |}.

(** A request body: the JSON string that holds the escape of the lone
    surrogate U+D800. *)
Definition lone_surrogate_body : string :=
  String Json.dquote (String Json.backslash ("ud800" ++ String Json.dquote "")).

(** A random state for the examples: it always draws the first positions. *)
Definition first_positions (n k : nat) : list nat := seq 0 k.

(** Another one: it draws the last positions, highest first. *)
Definition last_positions (n k : nat) : list nat := reverse (seq (n - k) k).

(** A sequence of [n] alanines. *)
Fixpoint poly_A (n : nat) : string :=
  match n with
  | 0 => ""
  | S n' => String "A" (poly_A n')
  end.

Definition row_of_length (acc : string) (n : nat) : Row :=
  {| ACC := acc; Kingdom := "Metazoa"; Membrane := 0%Q; Sequence := poly_A n;
     localization :=
       [("Cytoplasm", 1%Q); ("Nucleus", 0%Q); ("Extracellular", 0%Q);
        ("Cell membrane", 0%Q); ("Mitochondrion", 0%Q); ("Plastid", 0%Q);
        ("Endoplasmic reticulum", 0%Q); ("Lysosome/Vacuole", 0%Q);
        ("Golgi apparatus", 0%Q); ("Peroxisome", 0%Q)] |}.

(** Seven lines: two outside the window (99 and 513 residues), five inside. *)
Definition demo_lines : list Row :=
  [row_of_length "P0" 99; row_of_length "P1" 100; row_of_length "P2" 512;
   row_of_length "P3" 513; row_of_length "P4" 250; row_of_length "P5" 101;
   row_of_length "P6" 300].

(** The columns of the DeepLoc file that reach the data set. *)
Definition demo_features : list string :=
  ["ACC"; "Kingdom"; "Membrane"; "Cytoplasm"; "Nucleus"; "Extracellular";
   "Cell membrane"; "Mitochondrion"; "Plastid"; "Endoplasmic reticulum";
   "Lysosome/Vacuole"; "Golgi apparatus"; "Peroxisome"; "Sequence"].

Definition demo_labels : list string := labels_of demo_features.

Definition demo_text : list string := [poly_A 100; "MKV" ++ poly_A 508].

(** A batch of two records: the first in the cytoplasm and the nucleus, the
    second in the plastid. *)
Definition demo_examples : gmap string column :=
  list_to_map
    [("ACC", ColText ["P1"; "P2"]);
     ("Kingdom", ColText ["Metazoa"; "Viridiplantae"]);
     ("Membrane", ColNum [0%Q; 1%Q]);
     ("Cytoplasm", ColNum [1%Q; 0%Q]);
     ("Nucleus", ColNum [1%Q; 0%Q]);
     ("Extracellular", ColNum [0%Q; 0%Q]);
     ("Cell membrane", ColNum [0%Q; 0%Q]);
     ("Mitochondrion", ColNum [0%Q; 0%Q]);
     ("Plastid", ColNum [0%Q; 1%Q]);
     ("Endoplasmic reticulum", ColNum [0%Q; 0%Q]);
     ("Lysosome/Vacuole", ColNum [0%Q; 0%Q]);
     ("Golgi apparatus", ColNum [0%Q; 0%Q]);
     ("Peroxisome", ColNum [0%Q; 0%Q]);
     ("Sequence", ColText demo_text)].

End Demo.
(** ** The endpoint's client

    <<
    endpoint_prediction = predictor.predict(experimental_sequence)[0]
    >>

    The predictor that [HuggingFaceModel.deploy] returns sends its argument
    as [json.dumps(data)] with the content type [application/json], asks
    for [application/json] back, and returns [json.loads] of the response
    body. *)

Module Endpoint.

Import Json.

(** [json.dumps(data)] for a [str]. *)
Definition dumps_str (data : string) : string :=
  string_of_list_ascii (encode_str data).

(** Text within ASCII, as sequences and PDB files are. *)
Definition ascii_only (s : string) : bool :=
  forallb (fun c => (code c <? 128)%N) (list_ascii_of_string s).

End Endpoint.

(** ** The JSON text of a value

    [input_fn] is to return "the JSON-parsed value of the body".  To say
    which value that is, the text of a value is written out here, in the
    form [json.dumps] gives it with its default separators: the text a
    client sends for the value.  A [float] is written by the literal the
    value holds. *)

Module JsonText.

Import Json Endpoint.

(** The decimal digits of [n] in front of [acc], most significant first;
    [fuel] bounds their number. *)
Fixpoint decimal_go (fuel : nat) (n : N) (acc : list ascii) : list ascii :=
  match fuel with
  | 0 => acc
  | S fuel' =>
    let acc' := chr (48 + n mod 10) :: acc in
    if (n <? 10)%N then acc' else decimal_go fuel' (n / 10) acc'
  end.

(** [n] has no more decimal digits than binary ones. *)
Definition decimal (n : N) : list ascii :=
  decimal_go (S (N.to_nat (N.log2 n))) n [].

Definition int_text (z : Z) : list ascii :=
  ((if (z <? 0)%Z then ["-"%char] else []) ++ decimal (Z.abs_N z))%list.

Fixpoint text_of (v : value) : list ascii :=
  match v with
  | JNull => lit "null"
  | JBool true => lit "true"
  | JBool false => lit "false"
  | JInt z => int_text z
  | JFloat lexeme => list_ascii_of_string lexeme
  | JStr s => encode_str s
  | JList items => (lit "[" ++ join_items (map text_of items) ++ lit "]")%list
  | JDict pairs =>
    (lit "{"
       ++ join_items
            (map (fun kv => match kv with
                            | (k, item) => (encode_str k ++ lit ": " ++ text_of item)%list
                            end) pairs)
       ++ lit "}")%list
  end.

(** The values whose text is spelled out in full here: made of ASCII
    strings, integers, booleans and [None], in lists and in dicts with
    distinct ASCII keys. *)
Fixpoint plain (v : value) : bool :=
  match v with
  | JNull | JBool _ | JInt _ => true
  | JFloat _ => false
  | JStr s => ascii_only s
  | JList items => forallb plain items
  | JDict pairs =>
    forallb (fun kv => match kv with (k, item) => ascii_only k && plain item end) pairs
    && bool_decide (NoDup pairs.*1)
  end.

(** Every integer of the value has no more digits than the interpreter
    converts. *)
Fixpoint within_digits (max_str_digits : nat) (v : value) : bool :=
  match v with
  | JInt z =>
    let digits := length (decimal (Z.abs_N z)) in
    negb ((640 <? digits)%nat && (0 <? max_str_digits)%nat && (max_str_digits <? digits)%nat)
  | JList items => forallb (within_digits max_str_digits) items
  | JDict pairs =>
    forallb (fun kv => match kv with (_, item) => within_digits max_str_digits item end) pairs
  | _ => true
  end.

(** What may follow a value in a text: nothing, a comma, or the end of the
    container. *)
Definition ends_value (rest : list ascii) : bool :=
  match rest with
  | [] => true
  | c :: _ => (code c =? 44)%N || (code c =? 93)%N || (code c =? 125)%N
  end.

End JsonText.

(** ** The ESMFold notebook's call of the tokenizer

    <<
    tokenized_input = tokenizer(
        [experimental_sequence], return_tensors="pt", add_special_tokens=False
    )["input_ids"]
    >>

    and the same call in [predict_fn].  Without special tokens, padding and
    truncation (both off by default) the ids of a text are the ids of its
    tokens. *)

Module Folding.

Import Esm.



End Folding.

(** ** [id2label], [label2id] and the listing of a record's compartments

    <<
    id2label = {idx: label for idx, label in enumerate(labels)}
    label2id = {label: idx for idx, label in enumerate(labels)}
    ...
    example = encoded_dataset["train"][0]
    print([id2label[idx] for idx, label in enumerate(example["labels"]) if label == 1.0])
    >> *)

Module LabelMaps.

(** [enumerate(l)], counting from [i]. *)
Fixpoint enumerate_from {A} (i : nat) (l : list A) : list (nat * A) :=
  match l with
  | [] => []
  | x :: rest => (i, x) :: enumerate_from (S i) rest
  end.

Definition enumerate {A} (l : list A) : list (nat * A) := enumerate_from 0 l.

(** A dict comprehension: the pairs are stored one after the other, so a
    key that comes again keeps its last value. *)
Definition dict_of `{Countable K} {V} (pairs : list (K * V)) : gmap K V :=
  fold_left (fun d kv => <[kv.1 := kv.2]> d) pairs ∅.

Definition id2label (labels : list string) : gmap nat string :=
  dict_of (enumerate labels).

Definition label2id (labels : list string) : gmap string nat :=
  dict_of (map (fun il => (il.2, il.1)) (enumerate labels)).

(** [[id2label[idx] for idx, label in pairs if label == 1.0]]; a position
    that [id2label] lacks is a [KeyError]. *)
Fixpoint listing (id2label : gmap nat string) (pairs : list (nat * Q)) : result (list string) :=
  match pairs with
  | [] => Ok []
  | (idx, label) :: rest =>
    if Qeq_bool label 1 then
      match id2label !! idx with
      | Some name => names ← listing id2label rest; Ok (name :: names)
      | None => Raise (KeyError (pretty idx))
      end
    else listing id2label rest
  end.

(** The last line of the cell, for the label vector of one record. *)
Definition compartments (labels : list string) (vec : list Q) : result (list string) :=
  listing (id2label labels) (enumerate vec).

End LabelMaps.

(** * Proofs *)

Import Demo.

(** *** Results of the monad *)

Lemma raises_not_returns {A} (r : result A) : raises r <-> ~ returns r.
Proof. destruct r; simpl; tauto. Qed.

Lemma not_raises_returns {A} (r : result A) : ~ raises r -> returns r.
Proof. destruct r; simpl; tauto. Qed.

(** *** Strings and their characters *)

Lemma string_of_list_ascii_of_string s : string_of_list_ascii (list_ascii_of_string s) = s.
Proof. induction s as [|c s IH]; simpl; [reflexivity | f_equal; exact IH]. Qed.

Lemma list_ascii_of_string_of_list cs : list_ascii_of_string (string_of_list_ascii cs) = cs.
Proof. induction cs as [|c cs IH]; simpl; [reflexivity | f_equal; exact IH]. Qed.

Lemma list_ascii_of_string_app (a b : string) :
  list_ascii_of_string (a ++ b) = (list_ascii_of_string a ++ list_ascii_of_string b)%list.
Proof. induction a as [|c a IH]; simpl; [reflexivity | f_equal; exact IH]. Qed.

(** *** The clean-up cell *)

(** C7: whatever the delete call does (return, raise a service error, raise
    because [predictor] is unbound, be interrupted), the clean-up cell ends
    normally and nothing is reported. *)
Theorem cleanup_never_propagates :
  forall (Predictor : Type) (delete_endpoint : Predictor -> result unit)
         (ns : gmap string Predictor),
    Cleanup.cleanup_cell Predictor delete_endpoint ns = Ok tt /\
    Cleanup.reported (Cleanup.cleanup_cell Predictor delete_endpoint ns) = None.
Proof.
  intros Predictor delete_endpoint ns.
  assert (H : Cleanup.cleanup_cell Predictor delete_endpoint ns = Ok tt).
  { unfold Cleanup.cleanup_cell, Cleanup.cleanup_body, Cleanup.load_name.
    destruct (ns !! "predictor") as [p|]; simpl.
    - destruct (delete_endpoint p) as [[]|e]; reflexivity.
    - reflexivity. }
  rewrite H. split; reflexivity.
Qed.

(** *** The JSON scanner: what is left of the input, the rounds of the
    loops, and the room for nesting

    Every value read shortens the input, so a loop over the items of a
    container takes fewer rounds than there are characters: with the rounds
    the scanner gives, a loop never runs out of them, and more rounds change
    nothing.  A text no longer than the scanner may nest never makes it
    raise [RecursionError]. *)

Import Json.

Ltac break_match H :=
  match type of H with
  | context [match ?x with _ => _ end] => destruct x eqn:?
  end.

Lemma skip_ws_length cs : length (skip_ws cs) <= length cs.
Proof.
  induction cs as [|c cs IH]; simpl; [lia|].
  destruct (is_ws c); simpl; lia.
Qed.

Lemma scanstring_rest cs :
  forall acc s r, scanstring cs acc = Ok (s, r) -> length r < length cs.
Proof.
  remember (length cs) as n eqn:Hn. revert cs Hn.
  induction n as [n IH] using lt_wf_ind. intros cs Hn acc s r H.
  assert (Hrec : forall cs' acc', length cs' < n ->
                   scanstring cs' acc' = Ok (s, r) -> length r < length cs').
  { intros cs' acc' Hlt H'. eapply (IH (length cs') Hlt cs' eq_refl). exact H'. }
  clear IH. subst n.
  destruct cs as [|c cs]; cbn [scanstring] in H; [discriminate H|].
  repeat (break_match H; try discriminate H);
    try (injection H as <- <-; cbn [length]; lia);
    try (apply Hrec in H; cbn [length] in *; lia).
Qed.

Lemma scanstring_fuel cs : forall acc, scanstring cs acc <> Raise RecursionError.
Proof.
  remember (length cs) as n eqn:Hn. revert cs Hn.
  induction n as [n IH] using lt_wf_ind. intros cs Hn acc H.
  assert (Hrec : forall cs' acc', length cs' < n ->
                   scanstring cs' acc' <> Raise RecursionError).
  { intros cs' acc' Hlt. eapply (IH (length cs') Hlt cs' eq_refl). }
  clear IH. subst n.
  destruct cs as [|c cs]; cbn [scanstring] in H; [discriminate H|].
  repeat (break_match H; try discriminate H);
    try (apply Hrec in H; [exact H | cbn [length]; lia]).
Qed.

Lemma span_digits_rest cs ds r : span_digits cs = (ds, r) -> length r <= length cs.
Proof.
  revert ds r. induction cs as [|c cs IH]; intros ds r H; simpl in H.
  - injection H as <- <-. simpl. lia.
  - destruct (is_digit c).
    + destruct (span_digits cs) as [ds' r'] eqn:E. injection H as <- <-.
      specialize (IH ds' r' eq_refl). simpl. lia.
    + injection H as <- <-. simpl. lia.
Qed.

Lemma match_int_rest cs neg ds r :
  match_int cs = Some (neg, ds, r) -> length r < length cs.
Proof.
  unfold match_int. intros H.
  destruct cs as [|c cs]; [discriminate H|].
  destruct (code c =? 45)%N.
  - destruct cs as [|d cs]; [discriminate H|].
    destruct (code d =? 48)%N; [injection H as <- <- <-; simpl; lia|].
    destruct (is_digit d); [|discriminate H].
    destruct (span_digits cs) as [ds' r'] eqn:E. injection H as <- <- <-.
    apply span_digits_rest in E. simpl. lia.
  - destruct (code c =? 48)%N; [injection H as <- <- <-; simpl; lia|].
    destruct (is_digit c); [|discriminate H].
    destruct (span_digits cs) as [ds' r'] eqn:E. injection H as <- <- <-.
    apply span_digits_rest in E. simpl. lia.
Qed.

Lemma match_frac_rest cs ds r : match_frac cs = (ds, r) -> length r <= length cs.
Proof.
  unfold match_frac. intros H.
  destruct cs as [|c cs]; [injection H as <- <-; lia|].
  destruct (code c =? 46)%N; [|injection H as <- <-; lia].
  destruct (span_digits cs) as [ds' r'] eqn:E. apply span_digits_rest in E.
  destruct ds'; injection H as <- <-; simpl; lia.
Qed.

Lemma match_exp_rest cs ds r : match_exp cs = (ds, r) -> length r <= length cs.
Proof.
  unfold match_exp. intros H.
  destruct cs as [|c cs]; [injection H as <- <-; lia|].
  destruct ((code c =? 101)%N || (code c =? 69)%N); [|injection H as <- <-; lia].
  destruct cs as [|s cs].
  - simpl in H. injection H as <- <-. simpl. lia.
  - destruct ((code s =? 45)%N || (code s =? 43)%N).
    + destruct (span_digits cs) as [ds' r'] eqn:E. apply span_digits_rest in E.
      destruct ds'; injection H as <- <-; simpl; lia.
    + destruct (span_digits (s :: cs)) as [ds' r'] eqn:E. apply span_digits_rest in E.
      destruct ds'; injection H as <- <-; simpl in *; lia.
Qed.

Lemma match_number_rest m cs v r :
  match_number m cs = Some (Ok (v, r)) -> length r < length cs.
Proof.
  unfold match_number. intros H.
  destruct (match_int cs) as [[[neg ds] r0]|] eqn:Ei; [|discriminate H].
  apply match_int_rest in Ei.
  destruct (match_frac r0) as [frac r1] eqn:Ef. apply match_frac_rest in Ef.
  destruct (match_exp r1) as [ex r2] eqn:Ee. apply match_exp_rest in Ee.
  destruct frac, ex;
    try (destruct (int_of_digits m neg ds); cbn [mbind result_bind] in H);
    try discriminate H; injection H as <- <-; lia.
Qed.

Lemma match_number_room m cs : match_number m cs <> Some (Raise RecursionError).
Proof.
  unfold match_number. intros H.
  destruct (match_int cs) as [[[neg ds] r0]|]; [|discriminate H].
  destruct (match_frac r0) as [frac r1]. destruct (match_exp r1) as [ex r2].
  destruct frac, ex; try discriminate H.
  unfold int_of_digits in H. destruct (_ && _); discriminate H.
Qed.

Lemma strip_prefix_rest lit cs r :
  strip_prefix lit cs = Some r -> length r + length lit = length cs.
Proof.
  revert cs. induction lit as [|l lit IH]; intros cs H; simpl in H.
  - injection H as <-. simpl. lia.
  - destruct cs as [|c cs]; [discriminate H|].
    destruct (Ascii.eqb l c); [|discriminate H].
    apply IH in H. simpl. lia.
Qed.

Section ContainerLoops.

Variable scan : list ascii -> result (value * list ascii).
Variable bound : nat.
Hypothesis scan_rest : forall cs v r, scan cs = Ok (v, r) -> length r < length cs.
Hypothesis scan_fuel : forall cs, length cs < bound -> scan cs <> Raise RecursionError.

Lemma array_loop_rest n :
  forall cs acc v r, array_loop scan n cs acc = Ok (v, r) -> length r < length cs.
Proof.
  induction n as [|n IH]; intros cs acc v r H; cbn [array_loop] in H; [discriminate H|].
  destruct (scan cs) as [[v1 r1]|e] eqn:Es; [|discriminate H].
  apply scan_rest in Es. cbn [mbind result_bind] in H.
  pose proof (skip_ws_length r1) as Hw1.
  destruct (skip_ws r1) as [|c r2] eqn:Ew; [discriminate H|].
  cbn [length] in Hw1.
  destruct (code c =? 93)%N; [injection H as <- <-; lia|].
  destruct (code c =? 44)%N; [|discriminate H].
  apply IH in H. pose proof (skip_ws_length r2). lia.
Qed.

Lemma array_loop_fuel n :
  forall cs acc, length cs < n -> length cs < bound ->
                 array_loop scan n cs acc <> Raise RecursionError.
Proof.
  induction n as [|n IH]; intros cs acc Hn Hb H; [lia|].
  cbn [array_loop] in H.
  destruct (scan cs) as [[v1 r1]|e] eqn:Es.
  - apply scan_rest in Es. cbn [mbind result_bind] in H.
    pose proof (skip_ws_length r1) as Hw1.
    destruct (skip_ws r1) as [|c r2] eqn:Ew; [discriminate H|].
    cbn [length] in Hw1.
    destruct (code c =? 93)%N; [discriminate H|].
    destruct (code c =? 44)%N; [|discriminate H].
    pose proof (skip_ws_length r2).
    apply IH in H; [exact H | lia | lia].
  - cbn [mbind result_bind] in H. injection H as ->.
    exact (scan_fuel cs Hb Es).
Qed.

(** More rounds than characters: the number of rounds does not matter. *)
Lemma array_loop_rounds n :
  forall m cs acc, length cs < n -> length cs < m ->
                   array_loop scan n cs acc = array_loop scan m cs acc.
Proof.
  induction n as [|n IH]; intros m cs acc Hn Hm; [lia|].
  destruct m as [|m]; [lia|]. cbn [array_loop].
  destruct (scan cs) as [[v1 r1]|e] eqn:Es; [|reflexivity].
  apply scan_rest in Es. cbn [mbind result_bind].
  pose proof (skip_ws_length r1) as Hw1.
  destruct (skip_ws r1) as [|c r2] eqn:Ew; [reflexivity|].
  cbn [length] in Hw1.
  destruct (code c =? 93)%N; [reflexivity|].
  destruct (code c =? 44)%N; [|reflexivity].
  pose proof (skip_ws_length r2). apply IH; lia.
Qed.

Lemma JSONArray_rounds n m cs :
  length cs < n -> length cs < m -> JSONArray scan n cs = JSONArray scan m cs.
Proof.
  unfold JSONArray. intros Hn Hm. pose proof (skip_ws_length cs) as Hw.
  destruct (skip_ws cs) as [|c r1] eqn:Ew.
  - apply array_loop_rounds; simpl; lia.
  - cbn [length] in Hw. destruct (code c =? 93)%N; [reflexivity|].
    apply array_loop_rounds; cbn [length]; lia.
Qed.

Lemma JSONArray_rest n cs v r :
  JSONArray scan n cs = Ok (v, r) -> length r < S (length cs).
Proof.
  unfold JSONArray. intros H. pose proof (skip_ws_length cs) as Hw.
  destruct (skip_ws cs) as [|c r1] eqn:Ew.
  - apply array_loop_rest in H. simpl in H. lia.
  - cbn [length] in Hw.
    destruct (code c =? 93)%N; [injection H as <- <-; lia|].
    apply array_loop_rest in H. cbn [length] in H. lia.
Qed.

Lemma JSONArray_fuel n cs :
  length cs < n -> length cs < bound -> JSONArray scan n cs <> Raise RecursionError.
Proof.
  unfold JSONArray. intros Hn Hb H. pose proof (skip_ws_length cs) as Hw.
  destruct (skip_ws cs) as [|c r1] eqn:Ew.
  - apply array_loop_fuel in H; [exact H | simpl; lia | simpl; lia].
  - cbn [length] in Hw.
    destruct (code c =? 93)%N; [discriminate H|].
    apply array_loop_fuel in H; [exact H | cbn [length]; lia | cbn [length]; lia].
Qed.

Lemma object_loop_rest n :
  forall cs acc v r, object_loop scan n cs acc = Ok (v, r) -> length r < length cs.
Proof.
  induction n as [|n IH]; intros cs acc v r H; cbn [object_loop] in H; [discriminate H|].
  destruct (scanstring cs []) as [[k r0]|e] eqn:Ek; [|discriminate H].
  apply scanstring_rest in Ek. cbn [mbind result_bind] in H.
  pose proof (skip_ws_length r0) as Hw0.
  destruct (skip_ws r0) as [|c r1] eqn:Ew0; [discriminate H|].
  cbn [length] in Hw0.
  destruct (code c =? 58)%N; [|discriminate H].
  pose proof (skip_ws_length r1) as Hw1.
  destruct (scan (skip_ws r1)) as [[v1 r2]|e] eqn:Es; [|discriminate H].
  apply scan_rest in Es. cbn [mbind result_bind] in H.
  pose proof (skip_ws_length r2) as Hw2.
  destruct (skip_ws r2) as [|d r3] eqn:Ew2; [discriminate H|].
  cbn [length] in Hw2.
  destruct (code d =? 125)%N; [injection H as <- <-; lia|].
  destruct (code d =? 44)%N; [|discriminate H].
  pose proof (skip_ws_length r3) as Hw3.
  destruct (skip_ws r3) as [|q r4] eqn:Ew3; [discriminate H|].
  cbn [length] in Hw3.
  destruct (code q =? 34)%N; [|discriminate H].
  apply IH in H. lia.
Qed.

Lemma object_loop_fuel n :
  forall cs acc, length cs < n -> length cs < bound ->
                 object_loop scan n cs acc <> Raise RecursionError.
Proof.
  induction n as [|n IH]; intros cs acc Hn Hb H; [lia|].
  cbn [object_loop] in H.
  destruct (scanstring cs []) as [[k r0]|e] eqn:Ek.
  - apply scanstring_rest in Ek. cbn [mbind result_bind] in H.
    pose proof (skip_ws_length r0) as Hw0.
    destruct (skip_ws r0) as [|c r1] eqn:Ew0; [discriminate H|].
    cbn [length] in Hw0.
    destruct (code c =? 58)%N; [|discriminate H].
    pose proof (skip_ws_length r1) as Hw1.
    destruct (scan (skip_ws r1)) as [[v1 r2]|e] eqn:Es.
    + apply scan_rest in Es. cbn [mbind result_bind] in H.
      pose proof (skip_ws_length r2) as Hw2.
      destruct (skip_ws r2) as [|d r3] eqn:Ew2; [discriminate H|].
      cbn [length] in Hw2.
      destruct (code d =? 125)%N; [discriminate H|].
      destruct (code d =? 44)%N; [|discriminate H].
      pose proof (skip_ws_length r3) as Hw3.
      destruct (skip_ws r3) as [|q r4] eqn:Ew3; [discriminate H|].
      cbn [length] in Hw3.
      destruct (code q =? 34)%N; [|discriminate H].
      apply IH in H; [exact H | lia | lia].
    + cbn [mbind result_bind] in H. injection H as ->.
      apply (scan_fuel (skip_ws r1)); [lia | exact Es].
  - cbn [mbind result_bind] in H. injection H as ->.
    exact (scanstring_fuel cs [] Ek).
Qed.

Lemma object_loop_rounds n :
  forall m cs acc, length cs < n -> length cs < m ->
                   object_loop scan n cs acc = object_loop scan m cs acc.
Proof.
  induction n as [|n IH]; intros m cs acc Hn Hm; [lia|].
  destruct m as [|m]; [lia|]. cbn [object_loop].
  destruct (scanstring cs []) as [[k r0]|e] eqn:Ek; [|reflexivity].
  apply scanstring_rest in Ek. cbn [mbind result_bind].
  pose proof (skip_ws_length r0) as Hw0.
  destruct (skip_ws r0) as [|c r1] eqn:Ew0; [reflexivity|].
  cbn [length] in Hw0.
  destruct (code c =? 58)%N; [|reflexivity].
  pose proof (skip_ws_length r1) as Hw1.
  destruct (scan (skip_ws r1)) as [[v1 r2]|e] eqn:Es; [|reflexivity].
  apply scan_rest in Es. cbn [mbind result_bind].
  pose proof (skip_ws_length r2) as Hw2.
  destruct (skip_ws r2) as [|d r3] eqn:Ew2; [reflexivity|].
  cbn [length] in Hw2.
  destruct (code d =? 125)%N; [reflexivity|].
  destruct (code d =? 44)%N; [|reflexivity].
  pose proof (skip_ws_length r3) as Hw3.
  destruct (skip_ws r3) as [|q r4] eqn:Ew3; [reflexivity|].
  cbn [length] in Hw3.
  destruct (code q =? 34)%N; [|reflexivity].
  apply IH; lia.
Qed.

Lemma JSONObject_rounds n m cs :
  length cs < n -> length cs < m -> JSONObject scan n cs = JSONObject scan m cs.
Proof.
  unfold JSONObject. intros Hn Hm. pose proof (skip_ws_length cs) as Hw.
  destruct (skip_ws cs) as [|c r1] eqn:Ew; [reflexivity|].
  cbn [length] in Hw.
  destruct (code c =? 125)%N; [reflexivity|].
  destruct (code c =? 34)%N; [|reflexivity].
  apply object_loop_rounds; lia.
Qed.

Lemma JSONObject_rest n cs v r :
  JSONObject scan n cs = Ok (v, r) -> length r < S (length cs).
Proof.
  unfold JSONObject. intros H. pose proof (skip_ws_length cs) as Hw.
  destruct (skip_ws cs) as [|c r1] eqn:Ew; [discriminate H|].
  cbn [length] in Hw.
  destruct (code c =? 125)%N; [injection H as <- <-; lia|].
  destruct (code c =? 34)%N; [|discriminate H].
  apply object_loop_rest in H. lia.
Qed.

Lemma JSONObject_fuel n cs :
  length cs < n -> length cs < bound -> JSONObject scan n cs <> Raise RecursionError.
Proof.
  unfold JSONObject. intros Hn Hb H. pose proof (skip_ws_length cs) as Hw.
  destruct (skip_ws cs) as [|c r1] eqn:Ew; [discriminate H|].
  cbn [length] in Hw.
  destruct (code c =? 125)%N; [discriminate H|].
  destruct (code c =? 34)%N; [|discriminate H].
  apply object_loop_fuel in H; [exact H | lia | lia].
Qed.

End ContainerLoops.

Lemma scan_once_rest m depth :
  forall cs v r, scan_once m depth cs = Ok (v, r) -> length r < length cs.
Proof.
  induction depth as [|depth IH]; intros cs v r H;
    (destruct cs as [|c cs]; cbn [scan_once] in H; [discriminate H|]);
    (destruct (code c =? 34)%N;
     [destruct (scanstring cs []) as [[s r']|e] eqn:Es; [|discriminate H];
      apply scanstring_rest in Es; injection H as <- <-; cbn [length]; lia|]);
    (destruct (code c =? 123)%N;
     [first [discriminate H | apply (JSONObject_rest _ IH) in H; cbn [length]; lia]|]);
    (destruct (code c =? 91)%N;
     [first [discriminate H | apply (JSONArray_rest _ IH) in H; cbn [length]; lia]|]);
    repeat (break_match H; try discriminate H);
    try (injection H as <- <-);
    try subst;
    repeat match goal with
           | E : strip_prefix _ _ = Some _ |- _ =>
             apply strip_prefix_rest in E; unfold lit in E; simpl in E
           | E : match_number _ _ = Some (Ok _) |- _ => apply match_number_rest in E
           end;
    cbn [length] in *; lia.
Qed.

(** A text no longer than the scanner may nest leaves it room. *)
Lemma scan_once_room m depth :
  forall cs, length cs <= depth -> scan_once m depth cs <> Raise RecursionError.
Proof.
  induction depth as [|depth IH]; intros cs Hle H;
    (destruct cs as [|c cs]; cbn [scan_once] in H; [discriminate H|]);
    cbn [length] in Hle; [lia|].
  destruct (code c =? 34)%N.
  { destruct (scanstring cs []) as [[s r']|e] eqn:Es; [discriminate H|].
    cbn [mbind result_bind] in H. injection H as ->.
    exact (scanstring_fuel cs [] Es). }
  assert (Hroom : forall cs', length cs' < S depth ->
                              scan_once m depth cs' <> Raise RecursionError).
  { intros cs' Hlt. apply IH. lia. }
  destruct (code c =? 123)%N.
  { apply (JSONObject_fuel _ (S depth) (scan_once_rest m depth) Hroom) in H;
      [exact H | lia | lia]. }
  destruct (code c =? 91)%N.
  { apply (JSONArray_fuel _ (S depth) (scan_once_rest m depth) Hroom) in H;
      [exact H | lia | lia]. }
  repeat (break_match H; try discriminate H).
  subst. eapply match_number_room. eassumption.
Qed.

Lemma loads_room py s :
  String.length s <= S (json_nesting py) -> loads py s <> Raise RecursionError.
Proof.
  unfold loads. intros Hlen H.
  destruct (starts_with_bom _); [discriminate H|].
  pose proof (skip_ws_length (list_ascii_of_string s)) as Hw.
  set (cs := skip_ws (list_ascii_of_string s)) in *.
  assert (Hl : length (list_ascii_of_string s) = String.length s).
  { clear. induction s as [|c s IH]; simpl; [reflexivity | f_equal; exact IH]. }
  destruct (scan_once _ _ cs) as [[v r]|e] eqn:Es.
  - cbn [mbind result_bind] in H. destruct (skip_ws r); discriminate H.
  - cbn [mbind result_bind] in H. injection H as ->.
    apply (scan_once_room _ _ cs) in Es; [exact Es | lia].
Qed.

(** *** The handlers of [inference.py] *)

(** ASCII text can be written to any UTF-8 stream. *)
Lemma encodable_ascii errors cs :
  forallb (fun c => (code c <? 128)%N) cs = true -> encodable errors cs = true.
Proof.
  induction cs as [|a cs IH]; intros H; [reflexivity|].
  cbn [forallb] in H. apply andb_true_iff in H as [Ha Hcs].
  cbn [encodable]. destruct cs as [|b cs]; [reflexivity|].
  unfold code in Ha. apply N.ltb_lt in Ha.
  replace (N_of_ascii a =? 237)%N with false by (symmetry; apply N.eqb_neq; lia).
  cbn [andb]. exact (IH Hcs).
Qed.

Lemma printable_ascii py s :
  forallb (fun c => (code c <? 128)%N) (list_ascii_of_string s) = true ->
  Inference.printable py (JStr s) = true.
Proof. intros H. apply encodable_ascii, H. Qed.

Lemma write_object_printable py arg :
  Inference.printable py arg = true -> Inference.write_object py arg = Ok tt.
Proof.
  unfold Inference.write_object, write. destruct arg; cbn [Inference.printable];
    intros ->; reflexivity.
Qed.

Lemma write_object_raises py arg :
  raises (Inference.write_object py arg) <-> Inference.printable py arg = false.
Proof.
  unfold Inference.write_object, write.
  destruct arg; cbn [Inference.printable];
    match goal with |- context [if ?b then _ else _] => destruct b end;
    cbn [raises]; split; (discriminate || contradiction || reflexivity || exact (fun _ => I)).
Qed.

(** What [print] does after a label that is ASCII. *)
Lemma print_labelled py label arg :
  forallb (fun c => (code c <? 128)%N) (list_ascii_of_string label) = true ->
  Inference.print py [JStr label; arg] = Inference.write_object py arg.
Proof.
  intros H. cbn [Inference.print].
  rewrite (write_object_printable py (JStr label) (printable_ascii py label H)).
  cbn [mbind result_bind]. destruct (Inference.write_object py arg) as [[]|e]; reflexivity.
Qed.

Lemma print_one py arg : Inference.print py [arg] = Inference.write_object py arg.
Proof.
  cbn [Inference.print]. destruct (Inference.write_object py arg) as [[]|e]; reflexivity.
Qed.

(** The three cases of [input_fn]. *)
Lemma input_fn_csv py body :
  Inference.input_fn py body "text/csv"
  = _ ← Inference.write_object py (JStr body); Ok (JStr body).
Proof.
  unfold Inference.input_fn. rewrite print_one.
  rewrite (write_object_printable py (JStr "text/csv") (printable_ascii py "text/csv" eq_refl)).
  cbn [mbind result_bind String.eqb Ascii.eqb Bool.eqb]. cbv zeta.
  rewrite (print_labelled py "Input protein sequence: " _ eq_refl). reflexivity.
Qed.

Lemma input_fn_json py body :
  Inference.input_fn py body "application/json"
  = sequence ← loads py body; _ ← Inference.write_object py sequence; Ok sequence.
Proof.
  unfold Inference.input_fn. rewrite print_one.
  rewrite (write_object_printable py (JStr "application/json") (printable_ascii py "application/json" eq_refl)).
  cbn [mbind result_bind String.eqb Ascii.eqb Bool.eqb].
  destruct (loads py body) as [sequence|e]; [|reflexivity].
  cbn [mbind result_bind].
  rewrite (print_labelled py "Input protein sequence: " _ eq_refl). reflexivity.
Qed.

Lemma input_fn_other py body ct :
  ~ Inference.supported ct -> raises (Inference.input_fn py body ct).
Proof.
  unfold Inference.supported, Inference.input_fn. intros H.
  destruct (Inference.print py [JStr ct]) as [[]|e]; [|exact I].
  cbn [mbind result_bind].
  destruct (String.eqb_spec ct "text/csv") as [->|_]; [tauto|].
  destruct (String.eqb_spec ct "application/json") as [->|_]; [tauto|].
  exact I.
Qed.

(** An unsupported content type that the log takes is reported as such. *)
Lemma input_fn_unsupported py body ct :
  ~ Inference.supported ct -> Inference.printable py (JStr ct) = true ->
  Inference.input_fn py body ct = Raise (ValueError ("Unsupported content type: " ++ ct)).
Proof.
  unfold Inference.supported, Inference.input_fn. intros H Hp.
  rewrite print_one, (write_object_printable py _ Hp). cbn [mbind result_bind].
  destruct (String.eqb_spec ct "text/csv") as [->|_]; [tauto|].
  destruct (String.eqb_spec ct "application/json") as [->|_]; [tauto|].
  reflexivity.
Qed.

Lemma not_supported_dec ct : Inference.supported ct \/ ~ Inference.supported ct.
Proof.
  unfold Inference.supported.
  destruct (String.eqb_spec ct "text/csv"); [tauto|].
  destruct (String.eqb_spec ct "application/json"); tauto.
Qed.

(** The body of a request that carries a bare sequence is no JSON text. *)
Example loads_bare_sequence :
  forall py, Json.loads py "MKV" = Raise (JSONDecodeError "Expecting value").
Proof. intros py. reflexivity. Qed.

(** A JSON request as [predictor.predict] sends it: the sequence as a JSON
    string. *)
Example input_fn_json_string :
  Inference.input_fn cpython (String Json.dquote ("MKV" ++ String Json.dquote ""))
                     "application/json"
  = Ok (Json.JStr "MKV").
Proof. vm_compute. reflexivity. Qed.

(** The scanner reads it; the log cannot encode what it read. *)
Example loads_lone_surrogate :
  exists s, Json.loads cpython lone_surrogate_body = Ok (JStr s) /\
            Inference.printable cpython (JStr s) = false.
Proof. eexists. split; vm_compute; reflexivity. Qed.

(** C6, as the code has it: [input_fn] raises exactly when the content type
    is unsupported, or the log cannot encode the body of a [text/csv]
    request, or the body of an [application/json] request makes
    [json.loads] raise, or [print] cannot write the value it parsed to;
    [output_fn] raises exactly when the content type is unsupported.  In
    every other case they return normally. *)
Theorem handlers_raise_iff :
  (forall py body ct,
      raises (Inference.input_fn py body ct) <->
      ~ Inference.supported ct \/
      (ct = "text/csv" /\ Inference.printable py (JStr body) = false) \/
      (ct = "application/json" /\
       (raises (Json.loads py body) \/
        exists sequence, Json.loads py body = Ok sequence /\
                         Inference.printable py sequence = false))) /\
  (forall (ModelOutput : Type) (batch_size : ModelOutput -> nat)
          (to_pdb : ModelOutput -> nat -> string) (outputs : ModelOutput) ct,
      raises (Inference.output_fn ModelOutput batch_size to_pdb outputs ct) <->
      ~ Inference.supported ct) /\
  (forall py body ct,
      Inference.supported ct ->
      (ct = "text/csv" -> Inference.printable py (JStr body) = true) ->
      (ct = "application/json" ->
       exists sequence, Json.loads py body = Ok sequence /\
                        Inference.printable py sequence = true) ->
      returns (Inference.input_fn py body ct)) /\
  (forall (ModelOutput : Type) (batch_size : ModelOutput -> nat)
          (to_pdb : ModelOutput -> nat -> string) (outputs : ModelOutput) ct,
      Inference.supported ct ->
      returns (Inference.output_fn ModelOutput batch_size to_pdb outputs ct)).
Proof.
  assert (Hin : forall py body ct,
      raises (Inference.input_fn py body ct) <->
      ~ Inference.supported ct \/
      (ct = "text/csv" /\ Inference.printable py (JStr body) = false) \/
      (ct = "application/json" /\
       (raises (Json.loads py body) \/
        exists sequence, Json.loads py body = Ok sequence /\
                         Inference.printable py sequence = false))); [|
  assert (Hout : forall (ModelOutput : Type) (batch_size : ModelOutput -> nat)
          (to_pdb : ModelOutput -> nat -> string) (outputs : ModelOutput) ct,
      raises (Inference.output_fn ModelOutput batch_size to_pdb outputs ct) <->
      ~ Inference.supported ct); [|
  split; [exact Hin|]; split; [exact Hout|]; split]].
  3: { intros py body ct Hs Hcsv Hjson. apply not_raises_returns. rewrite Hin.
       intros [Hno|[[-> Hp]|[-> [Hr|[v [Hv Hp]]]]]].
       - exact (Hno Hs).
       - rewrite (Hcsv eq_refl) in Hp. discriminate Hp.
       - destruct (Hjson eq_refl) as [v [Hv _]]. rewrite Hv in Hr. exact Hr.
       - destruct (Hjson eq_refl) as [v' [Hv' Hp']]. congruence. }
  3: { intros ModelOutput batch_size to_pdb outputs ct Hs.
       apply not_raises_returns. rewrite Hout. intros Hno. exact (Hno Hs). }
  - intros py body ct. destruct (not_supported_dec ct) as [[->| ->]|Hno].
    + rewrite input_fn_csv. unfold Inference.supported.
      pose proof (write_object_raises py (JStr body)) as Hw.
      destruct (Inference.write_object py (JStr body)) as [[]|e];
        cbn [mbind result_bind raises] in *; split.
      * contradiction.
      * intros [H|[[_ H]|[H _]]]; [apply H; tauto | apply Hw, H | discriminate H].
      * intros _. right. left. split; [reflexivity | apply Hw; exact I].
      * intros _. exact I.
    + rewrite input_fn_json. unfold Inference.supported.
      destruct (Json.loads py body) as [v|e]; cbn [mbind result_bind raises].
      * pose proof (write_object_raises py v) as Hw.
        destruct (Inference.write_object py v) as [[]|e];
          cbn [mbind result_bind raises] in *; split.
        -- contradiction.
        -- intros [H|[[H _]|[_ [H|[v' [Hv' H]]]]]];
             [apply H; tauto | discriminate H | exact H |].
           injection Hv' as <-. apply Hw, H.
        -- intros _. right. right. split; [reflexivity|]. right.
           exists v. split; [reflexivity | apply Hw; exact I].
        -- intros _. exact I.
      * split; [|intros _; exact I].
        intros _. right. right. split; [reflexivity|]. left. exact I.
    + split; [intros _; left; exact Hno | intros _; apply input_fn_other, Hno].
  - intros ModelOutput batch_size to_pdb outputs ct.
    unfold Inference.output_fn, Inference.supported.
    destruct (String.eqb_spec ct "text/csv") as [->|Hc]; simpl; [tauto|].
    destruct (String.eqb_spec ct "application/json") as [->|Hj]; simpl; tauto.
Qed.

Lemma handlers_raise_iff_witness :
  returns (Inference.input_fn cpython (String Json.dquote ("MKV" ++ String Json.dquote ""))
                              "application/json").
Proof.
  apply (proj1 (proj2 (proj2 handlers_raise_iff))).
  - right. reflexivity.
  - intros H. discriminate H.
  - intros _. eexists. split; vm_compute; reflexivity.
Defined.

(** C6 as stated fails: a supported content type, and [input_fn] raises,
    on a body that is no JSON text and on one whose value the log cannot
    encode. *)
Lemma input_fn_raises_on_supported_type :
  Inference.supported "application/json" /\
  Inference.input_fn cpython "MKV" "application/json"
  = Raise (JSONDecodeError "Expecting value") /\
  raises (Inference.input_fn cpython "MKV" "application/json") /\
  Inference.input_fn cpython lone_surrogate_body "application/json"
  = Raise UnicodeEncodeError.
Proof.
  split; [right; reflexivity|].
  split; [vm_compute; reflexivity|]. split; [exact I | vm_compute; reflexivity].
Qed.

(** *** Data frames *)

Import DataLoading.

Lemma index_read_csv lines : index (read_csv lines) = seq 0 (length lines).
Proof. unfold index, read_csv. apply fst_zip. rewrite length_seq. lia. Qed.

Lemma values_read_csv lines : values (read_csv lines) = lines.
Proof. unfold values, read_csv. apply snd_zip. rewrite length_seq. lia. Qed.

Lemma unique_index_read_csv lines : NoDup (index (read_csv lines)).
Proof. rewrite index_read_csv. apply NoDup_seq. Qed.

Lemma unique_index_NoDup (df : DataFrame) : NoDup (index df) -> NoDup df.
Proof. apply NoDup_fmap_1. Qed.

Lemma unique_index_row (df : DataFrame) x y :
  NoDup (index df) -> x ∈ df -> y ∈ df -> x.1 = y.1 -> x = y.
Proof.
  unfold index. intros Hnd Hx Hy Hxy.
  apply list_elem_of_lookup in Hx as [i Hi].
  apply list_elem_of_lookup in Hy as [j Hj].
  assert (i = j) as ->.
  { eapply NoDup_lookup; [exact Hnd | |].
    - rewrite list_lookup_fmap, Hi. reflexivity.
    - rewrite list_lookup_fmap, Hj. simpl. congruence. }
  congruence.
Qed.

Lemma unique_index_filter (P : nat * Row -> Prop) `{!forall x, Decision (P x)} (df : DataFrame) :
  NoDup (index df) -> NoDup (index (filter P df)).
Proof.
  intros Hnd. unfold index.
  apply NoDup_fmap_2_strong; [|apply NoDup_filter, unique_index_NoDup, Hnd].
  intros x y Hx Hy Hxy.
  apply list_elem_of_filter in Hx as [_ Hx].
  apply list_elem_of_filter in Hy as [_ Hy].
  eapply unique_index_row; eassumption.
Qed.

(** *** [take_rows] *)

Lemma take_rows_ok (df : DataFrame) locs :
  Forall (fun i => i < length df) locs ->
  exists rows, take_rows df locs = Ok rows /\
               Forall2 (fun i row => df !! i = Some row) locs rows.
Proof.
  induction locs as [|i locs IH]; intros Hb.
  - exists []. split; [reflexivity | constructor].
  - inversion Hb as [|? ? Hi Hb']; subst.
    destruct (IH Hb') as [rows [Hrows Hall]].
    destruct (lookup_lt_is_Some_2 df i Hi) as [row Hrow].
    exists (row :: rows). split.
    + cbn [take_rows]. rewrite Hrow, Hrows. reflexivity.
    + constructor; assumption.
Qed.

Lemma taken_elem_of (df : DataFrame) locs (rows : DataFrame) :
  Forall2 (fun i row => df !! i = Some row) locs rows ->
  forall x, x ∈ rows -> x ∈ df.
Proof.
  induction 1 as [|i row locs rows Hi _ IH]; intros x Hx.
  - inversion Hx.
  - apply elem_of_cons in Hx as [->|Hx].
    + eapply list_elem_of_lookup_2. exact Hi.
    + apply IH. exact Hx.
Qed.

Lemma taken_NoDup (df : DataFrame) locs (rows : DataFrame) :
  NoDup df -> NoDup locs ->
  Forall2 (fun i row => df !! i = Some row) locs rows -> NoDup rows.
Proof.
  intros Hdf Hlocs H. induction H as [|i row locs rows Hi Hrest IH].
  - constructor.
  - apply NoDup_cons in Hlocs as [Hnotin Hlocs].
    apply NoDup_cons. split; [|apply IH; assumption].
    intros Hin. apply Hnotin.
    clear IH Hlocs Hnotin.
    induction Hrest as [|j row' locs rows Hj _ IH].
    + inversion Hin.
    + apply elem_of_cons in Hin as [->|Hin].
      * apply elem_of_cons. left. eapply NoDup_lookup; eassumption.
      * apply elem_of_cons. right. apply IH. exact Hin.
Qed.

(** *** [drop] *)

Lemma drop_ok (labels : list nat) (df : DataFrame) :
  labels ⊆ index df ->
  drop labels df = Ok (filter (fun ir => ir.1 ∉ labels) df).
Proof. intros H. unfold drop. destruct (decide (labels ⊆ index df)); [reflexivity | contradiction]. Qed.

(** Dropping the labels of rows taken from a frame leaves exactly the rows
    that were not taken. *)
Lemma taken_and_dropped (df s : DataFrame) :
  NoDup (index df) -> NoDup s -> (forall x, x ∈ s -> x ∈ df) ->
  s ++ filter (fun ir => ir.1 ∉ index s) df ≡ₚ df.
Proof.
  intros Hidx Hs Hsub.
  assert (Hdf : NoDup df) by (apply unique_index_NoDup, Hidx).
  assert (Hmem : forall x, x ∈ df -> (x.1 ∈ index s <-> x ∈ s)).
  { intros x Hx. unfold index. rewrite list_elem_of_fmap. split.
    - intros [y [Hy Hys]].
      assert (x = y) as ->; [|exact Hys].
      eapply unique_index_row; eauto.
    - intros Hxs. exists x. split; [reflexivity | exact Hxs]. }
  apply NoDup_Permutation.
  - apply NoDup_app. split; [exact Hs|]. split; [|apply NoDup_filter, Hdf].
    intros x Hx Hx'. apply list_elem_of_filter in Hx' as [Hnot Hxdf].
    apply Hnot. apply Hmem; assumption.
  - exact Hdf.
  - intros x. rewrite elem_of_app, list_elem_of_filter. split.
    + intros [Hx|[_ Hx]]; [apply Hsub, Hx | exact Hx].
    + intros Hx. destruct (decide (x.1 ∈ index s)) as [Hin|Hnin].
      * left. apply Hmem; assumption.
      * right. split; assumption.
Qed.

(** *** The number of rows drawn *)

Lemma round_half_even_le p q n : 0 < q -> p <= q * n -> round_half_even p q <= n.
Proof.
  intros Hq Hp. unfold round_half_even.
  pose proof (Nat.div_mod_eq p q) as Hdm.
  pose proof (Nat.mod_upper_bound p q ltac:(lia)) as Hr.
  set (d := p / q) in *. set (r := p mod q) in *.
  assert (Hd : d <= n) by nia.
  destruct (2 * r <? q)%nat eqn:E1; [exact Hd|].
  apply Nat.ltb_ge in E1.
  assert (Hlt : d < n) by nia.
  destruct (q <? 2 * r)%nat; [lia|].
  destruct (Nat.even d); lia.
Qed.

Lemma sample_size_le num den n : 0 < den -> num <= den -> sample_size num den n <= n.
Proof. intros Hd Hn. unfold sample_size. apply round_half_even_le; [exact Hd | nia]. Qed.

(** *** One [sample] followed by the [drop] of what it drew *)

Lemma sample_then_drop choice num den (df : DataFrame) :
  sampler choice -> 0 < den -> num <= den -> NoDup (index df) ->
  exists s rest,
    sample choice num den df = Ok s /\
    drop (index s) df = Ok rest /\
    length s = sample_size num den (length df) /\
    s ++ rest ≡ₚ df /\
    NoDup (index rest) /\
    (forall x, x ∈ rest -> x ∈ df).
Proof.
  intros Hch Hden Hnum Hidx.
  destruct (Hch (length df) (sample_size num den (length df))
              (sample_size_le num den (length df) Hden Hnum)) as [Hlen [Hnd Hb]].
  destruct (take_rows_ok df _ Hb) as [s [Hs Hall]].
  assert (Hsub : forall x, x ∈ s -> x ∈ df) by (eapply taken_elem_of; exact Hall).
  exists s, (filter (fun ir => ir.1 ∉ index s) df).
  split; [exact Hs|]. split; [|split; [|split; [|split]]].
  - apply drop_ok. intros l Hl. unfold index in *.
    apply list_elem_of_fmap in Hl as [x [-> Hx]].
    apply list_elem_of_fmap. exists x. split; [reflexivity | apply Hsub, Hx].
  - rewrite <- Hlen. symmetry. eapply Forall2_length. exact Hall.
  - apply taken_and_dropped; [exact Hidx | | exact Hsub].
    eapply taken_NoDup; [apply unique_index_NoDup, Hidx | exact Hnd | exact Hall].
  - apply unique_index_filter, Hidx.
  - intros x Hx. apply list_elem_of_filter in Hx as [_ Hx]. exact Hx.
Qed.

Lemma values_reset_index (df : DataFrame) : values (reset_index df) = values df.
Proof.
  unfold reset_index, values at 1. apply snd_zip.
  rewrite length_seq. unfold values. rewrite length_fmap. lia.
Qed.

Lemma index_reset_index (df : DataFrame) : index (reset_index df) = seq 0 (length df).
Proof.
  unfold reset_index, index. apply fst_zip.
  rewrite length_seq. unfold values. rewrite length_fmap. lia.
Qed.

Lemma in_window_spec r : in_window r = true <-> 100 <= len (Sequence r) <= 512.
Proof.
  unfold in_window, between.
  rewrite andb_true_iff, !Nat.leb_le. reflexivity.
Qed.

Lemma elem_of_length_filter (df : DataFrame) x :
  x ∈ length_filter df <-> 100 <= len (Sequence x.2) <= 512 /\ x ∈ df.
Proof.
  unfold length_filter. rewrite list_elem_of_filter, <- in_window_spec.
  rewrite Is_true_true. reflexivity.
Qed.

(** Disjoint index labels, read off a frame without repeated labels. *)
Lemma index_disjoint_app (a b : DataFrame) :
  NoDup (index (a ++ b)) -> index a ## index b.
Proof.
  unfold index. rewrite fmap_app. intros H.
  apply NoDup_app in H as (_ & H & _).
  intros l Ha Hb. exact (H l Ha Hb).
Qed.

(** The split, step by step. *)
Lemma split_spec choice1 choice2 lines :
  sampler choice1 -> sampler choice2 ->
  exists tr va te,
    split choice1 choice2 lines = Ok (tr, va, te) /\
    tr ++ va ++ te ≡ₚ length_filter (read_csv lines) /\
    length tr = sample_size 4 5 (length (length_filter (read_csv lines))) /\
    length va = sample_size 1 2 (length (length_filter (read_csv lines)) - length tr).
Proof.
  intros H1 H2. unfold split.
  set (df := length_filter (read_csv lines)).
  assert (Hdf : NoDup (index df)).
  { apply unique_index_filter, unique_index_read_csv. }
  destruct (sample_then_drop choice1 4 5 df H1 ltac:(lia) ltac:(lia) Hdf)
    as (tr & df2 & Htr & Hdrop1 & Hlen1 & Hperm1 & Hdf2 & _).
  destruct (sample_then_drop choice2 1 2 df2 H2 ltac:(lia) ltac:(lia) Hdf2)
    as (va & te & Hva & Hdrop2 & Hlen2 & Hperm2 & _ & _).
  exists tr, va, te.
  rewrite Htr. cbn [mbind result_bind]. rewrite Hdrop1. cbn [mbind result_bind].
  rewrite Hva. cbn [mbind result_bind]. rewrite Hdrop2. cbn [mbind result_bind].
  split; [reflexivity|]. split; [|split].
  - rewrite Hperm2. exact Hperm1.
  - exact Hlen1.
  - rewrite Hlen2. f_equal.
    apply Permutation_length in Hperm1. rewrite length_app in Hperm1. lia.
Qed.

Lemma data_loading_of_split choice1 choice2 lines tr va te :
  split choice1 choice2 lines = Ok (tr, va, te) ->
  data_loading choice1 choice2 lines =
    Ok {| train := values tr; test := values te; validation := values va |}.
Proof.
  intros H. unfold data_loading. rewrite H. cbn [mbind result_bind].
  rewrite !values_reset_index. reflexivity.
Qed.


Lemma first_positions_sampler : sampler first_positions.
Proof.
  intros n k Hk. unfold first_positions. split; [apply length_seq|].
  split; [apply NoDup_seq|].
  apply Forall_forall. intros i Hi. apply elem_of_seq in Hi. lia.
Qed.


Lemma last_positions_sampler : sampler last_positions.
Proof.
  intros n k Hk. unfold last_positions. split; [|split].
  - rewrite length_reverse. apply length_seq.
  - rewrite reverse_Permutation. apply NoDup_seq.
  - apply Forall_forall. intros i Hi.
    apply elem_of_reverse, elem_of_seq in Hi. lia.
Qed.


(** C9: whatever the two random draws give, the train, validation and
    test frames partition the length-filtered frame: their index labels are
    pairwise disjoint, together they hold exactly the rows of the filtered
    frame (as a permutation of it), train has round(0.8 n) of the n rows,
    validation round(0.5 m) of the m remaining ones, test the rest; the data
    set holds the rows of these three frames. *)
Theorem split_is_partition :
  forall choice1 choice2 lines,
    sampler choice1 -> sampler choice2 ->
    let df := length_filter (read_csv lines) in
    exists tr va te,
      split choice1 choice2 lines = Ok (tr, va, te) /\
      data_loading choice1 choice2 lines =
        Ok {| train := values tr; test := values te; validation := values va |} /\
      index tr ## index va /\ index tr ## index te /\ index va ## index te /\
      tr ++ va ++ te ≡ₚ df /\
      length tr = sample_size 4 5 (length df) /\
      length va = sample_size 1 2 (length df - length tr) /\
      length te = length df - length tr - length va.
Proof.
  intros choice1 choice2 lines H1 H2 df.
  destruct (split_spec choice1 choice2 lines H1 H2) as (tr & va & te & Hs & Hperm & Hl1 & Hl2).
  fold df in Hperm, Hl1, Hl2.
  assert (Hnd : NoDup (index (tr ++ va ++ te))).
  { unfold index. rewrite Hperm. apply unique_index_filter, unique_index_read_csv. }
  exists tr, va, te.
  split; [exact Hs|]. split; [apply data_loading_of_split, Hs|].
  split; [|split; [|split; [|split; [exact Hperm|split; [exact Hl1|split; [exact Hl2|]]]]]].
  - apply index_disjoint_app.
    unfold index in *. rewrite !fmap_app in *.
    rewrite app_assoc in Hnd. apply NoDup_app in Hnd as (Hnd & _ & _). exact Hnd.
  - unfold index in *. rewrite !fmap_app in Hnd.
    apply NoDup_app in Hnd as (_ & Hd & _).
    intros l Ha Hb. apply (Hd l Ha). apply elem_of_app. right. exact Hb.
  - apply index_disjoint_app.
    unfold index in *. rewrite !fmap_app in *.
    apply NoDup_app in Hnd as (_ & _ & Hnd). exact Hnd.
  - apply Permutation_length in Hperm. rewrite !length_app in Hperm. lia.
Qed.

Lemma split_is_partition_witness :
  let df := length_filter (read_csv demo_lines) in
  exists tr va te,
    split first_positions last_positions demo_lines = Ok (tr, va, te) /\
    data_loading first_positions last_positions demo_lines =
      Ok {| train := values tr; test := values te; validation := values va |} /\
    index tr ## index va /\ index tr ## index te /\ index va ## index te /\
    tr ++ va ++ te ≡ₚ df /\
    length tr = sample_size 4 5 (length df) /\
    length va = sample_size 1 2 (length df - length tr) /\
    length te = length df - length tr - length va.
Proof.
  exact (split_is_partition first_positions last_positions demo_lines
           first_positions_sampler last_positions_sampler).
Defined.

(** C4: whatever the two random draws give, data loading returns, every
    record of the train, validation and test partitions has a sequence of at
    least 100 and at most 512 symbols, and a line of the file outside that
    window is in no partition: neither its content nor its index label. *)
Theorem partitions_within_window :
  forall choice1 choice2 lines,
    sampler choice1 -> sampler choice2 ->
    exists tr va te ds,
      split choice1 choice2 lines = Ok (tr, va, te) /\
      data_loading choice1 choice2 lines = Ok ds /\
      (forall r, (r ∈ train ds) \/ (r ∈ validation ds) \/ (r ∈ test ds) ->
                 100 <= len (Sequence r) <= 512) /\
      (forall r, ~ (100 <= len (Sequence r) <= 512) ->
                 (r ∉ train ds) /\ (r ∉ validation ds) /\ (r ∉ test ds)) /\
      (forall i r, lines !! i = Some r -> ~ (100 <= len (Sequence r) <= 512) ->
                   (i ∉ index tr) /\ (i ∉ index va) /\ (i ∉ index te)).
Proof.
  intros choice1 choice2 lines H1 H2.
  destruct (split_spec choice1 choice2 lines H1 H2) as (tr & va & te & Hs & Hperm & _ & _).
  exists tr, va, te, {| train := values tr; test := values te; validation := values va |}.
  split; [exact Hs|]. split; [apply data_loading_of_split, Hs|].
  assert (Hall : forall x, (x ∈ tr) \/ (x ∈ va) \/ (x ∈ te) ->
                           100 <= len (Sequence x.2) <= 512 /\ x ∈ read_csv lines).
  { intros x Hx. apply elem_of_length_filter. rewrite <- Hperm.
    rewrite !elem_of_app. exact Hx. }
  assert (Hrows : forall r, (r ∈ values tr) \/ (r ∈ values va) \/ (r ∈ values te) ->
                            100 <= len (Sequence r) <= 512).
  { intros r Hr. unfold values in Hr. rewrite !list_elem_of_fmap in Hr.
    destruct Hr as [[x [-> Hx]]|[[x [-> Hx]]|[x [-> Hx]]]];
      apply (Hall x); tauto. }
  split; [exact Hrows|]. split.
  - intros r Hout. simpl. repeat split; intros Hin; apply Hout, Hrows; tauto.
  - intros i r Hi Hout.
    assert (Hlab : forall x, (x ∈ tr) \/ (x ∈ va) \/ (x ∈ te) -> x.1 <> i).
    { intros x Hx Heq. destruct (Hall x Hx) as [Hwin Hxin].
      apply Hout.
      assert (Hir : (i, r) ∈ read_csv lines).
      { unfold read_csv. apply list_elem_of_lookup. exists i.
        apply lookup_zip_with_Some. exists i, r.
        split; [reflexivity|]. split; [|exact Hi].
        apply lookup_seq. split; [reflexivity|]. eapply lookup_lt_Some. exact Hi. }
      assert (x = (i, r)) as ->; [|exact Hwin].
      eapply unique_index_row; [apply unique_index_read_csv | exact Hxin | exact Hir | exact Heq]. }
    unfold index. repeat split; intros Hin;
      apply list_elem_of_fmap in Hin as [x [Hx Hin]];
      apply (Hlab x); [tauto | congruence | tauto | congruence | tauto | congruence].
Qed.

Lemma partitions_within_window_witness :
  exists tr va te ds,
    split last_positions first_positions demo_lines = Ok (tr, va, te) /\
    data_loading last_positions first_positions demo_lines = Ok ds /\
    (forall r, (r ∈ train ds) \/ (r ∈ validation ds) \/ (r ∈ test ds) ->
               100 <= len (Sequence r) <= 512) /\
    (forall r, ~ (100 <= len (Sequence r) <= 512) ->
               (r ∉ train ds) /\ (r ∉ validation ds) /\ (r ∉ test ds)) /\
    (forall i r, demo_lines !! i = Some r -> ~ (100 <= len (Sequence r) <= 512) ->
                 (i ∉ index tr) /\ (i ∉ index va) /\ (i ∉ index te)).
Proof.
  exact (partitions_within_window last_positions first_positions demo_lines
           last_positions_sampler first_positions_sampler).
Defined.

(** The split of the seven example lines, computed: lines 0 and 3 are gone,
    four of the five others are drawn for training. *)
Example split_demo :
  (fun '(tr, va, te) => (index tr, index va, index te))
    <$> split first_positions last_positions demo_lines
  = Ok ([1; 2; 4; 5], [], [6]).
Proof. vm_compute. reflexivity. Qed.

(** *** The tokenizer *)

Import Esm.


Lemma symbol_leading_token c rest :
  symbol c = true -> leading_token (String c rest) = Some (single c).
Proof.
  destruct c as [[] [] [] [] [] [] [] []]; intros H; try discriminate H; reflexivity.
Qed.

Lemma symbol_id c :
  symbol c = true ->
  is_special (convert_token_to_id (single c)) = false /\
  convert_id_to_token (convert_token_to_id (single c)) = single c.
Proof.
  destruct c as [[] [] [] [] [] [] [] []]; intros H; try discriminate H; split; reflexivity.
Qed.

Lemma tokenize_symbols text :
  symbols_only text = true ->
  tokenize text = map single (list_ascii_of_string text).
Proof.
  unfold tokenize. induction text as [|c rest IH]; intros H.
  - reflexivity.
  - simpl in H. apply andb_true_iff in H as [Hc Hrest].
    cbn [tokenize_from]. rewrite (symbol_leading_token c rest Hc).
    cbn [flush app single String.length Nat.sub list_ascii_of_string map].
    f_equal. apply IH. exact Hrest.
Qed.

Lemma length_list_ascii text : length (list_ascii_of_string text) = String.length text.
Proof. induction text as [|c rest IH]; simpl; [reflexivity | f_equal; exact IH]. Qed.

Lemma str_take_list n text :
  string_of_list_ascii (firstn n (list_ascii_of_string text)) = str_take n text.
Proof.
  revert text. induction n as [|n IH]; intros [|c rest]; simpl; try reflexivity.
  f_equal. apply IH.
Qed.

Lemma symbols_only_Forall text :
  symbols_only text = true -> Forall (fun c => symbol c = true) (list_ascii_of_string text).
Proof.
  induction text as [|c rest IH]; simpl; intros H; [constructor|].
  apply andb_true_iff in H as [Hc Hrest]. constructor; [exact Hc | apply IH, Hrest].
Qed.

(** With room for the two special tokens, truncation keeps the first
    [max_length - 2] ids. *)
Lemma truncate_firstn max_length ids :
  2 < max_length -> truncate max_length ids = firstn (max_length - 2) ids.
Proof.
  intros HL. unfold truncate.
  destruct (0 <? max_length)%nat eqn:E0; [|apply Nat.ltb_ge in E0; lia].
  destruct (max_length <? length ids + 2)%nat eqn:E1; simpl.
  - apply Nat.ltb_lt in E1.
    destruct (length ids + 2 - max_length <? length ids)%nat eqn:E2.
    + f_equal. lia.
    + apply Nat.ltb_ge in E2. lia.
  - apply Nat.ltb_ge in E1. symmetry. apply firstn_all2. lia.
Qed.

Lemma length_truncate max_length ids :
  2 < max_length -> length (truncate max_length ids) = Nat.min (max_length - 2) (length ids).
Proof. intros HL. rewrite truncate_firstn by exact HL. apply length_firstn. Qed.

(** The shape of an encoded array. *)
Lemma input_ids_encode text max_length :
  input_ids (encode text max_length) =
    let ids := truncate max_length (convert_tokens_to_ids (tokenize text)) in
    (cls_token_id :: ids ++ [eos_token_id]
       ++ repeat pad_token_id (max_length - (length ids + 2)))%list.
Proof.
  unfold encode, pad, build_inputs_with_special_tokens. cbn [input_ids].
  cbn zeta. set (ids := truncate _ _).
  change ((cls_token_id :: ids ++ [eos_token_id]) ++ ?r)%list
    with (cls_token_id :: (ids ++ [eos_token_id]) ++ r)%list.
  rewrite <- app_assoc. do 4 f_equal.
  cbn [length]. rewrite length_app. cbn [length]. lia.
Qed.

Lemma length_input_ids text max_length :
  2 < max_length -> length (input_ids (encode text max_length)) = max_length.
Proof.
  intros HL. rewrite input_ids_encode. cbn zeta.
  cbn [length]. rewrite !length_app, repeat_length. cbn [length].
  rewrite length_truncate by exact HL. lia.
Qed.

Lemma leading_pads_repeat n rest :
  match rest with
  | [] => True
  | id :: _ => id <> pad_token_id
  end ->
  leading_pads (repeat pad_token_id n ++ rest)%list = n.
Proof.
  intros H. induction n as [|n IH]; simpl.
  - destruct rest as [|id rest]; [reflexivity|].
    simpl. destruct (Nat.eqb_spec id pad_token_id); [contradiction | reflexivity].
  - f_equal. exact IH.
Qed.

Lemma rev_repeat {A} (x : A) n : rev (repeat x n) = repeat x n.
Proof.
  induction n as [|n IH]; [reflexivity|].
  simpl. rewrite IH. clear IH. induction n as [|n IH]; [reflexivity|].
  simpl. f_equal. exact IH.
Qed.

(** The pads at the end of an encoded array are exactly those appended. *)
Lemma trailing_pads_encode text max_length :
  trailing_pads (input_ids (encode text max_length)) =
    max_length - (length (truncate max_length (convert_tokens_to_ids (tokenize text))) + 2).
Proof.
  rewrite input_ids_encode. cbn zeta. unfold trailing_pads.
  set (ids := truncate _ _). set (d := max_length - _).
  rewrite app_assoc.
  change (cls_token_id :: (ids ++ [eos_token_id]) ++ repeat pad_token_id d)%list
    with ((cls_token_id :: ids ++ [eos_token_id]) ++ repeat pad_token_id d)%list.
  rewrite rev_app_distr, rev_repeat.
  apply leading_pads_repeat.
  cbn [rev]. rewrite rev_app_distr. cbn [rev app]. discriminate.
Qed.

Lemma ids_of_symbols text :
  symbols_only text = true ->
  convert_tokens_to_ids (tokenize text) =
    map (fun c => convert_token_to_id (single c)) (list_ascii_of_string text).
Proof.
  intros H. rewrite (tokenize_symbols text H). unfold convert_tokens_to_ids.
  apply map_map.
Qed.

Lemma filter_symbol_ids cs :
  Forall (fun c => symbol c = true) cs ->
  List.filter (fun id => negb (is_special id))
              (map (fun c => convert_token_to_id (single c)) cs)
  = map (fun c => convert_token_to_id (single c)) cs.
Proof.
  induction 1 as [|c cs Hc _ IH]; [reflexivity|].
  cbn [map List.filter]. destruct (symbol_id c Hc) as [-> _]. cbn [negb].
  f_equal. exact IH.
Qed.

Lemma tokens_of_symbol_ids cs :
  Forall (fun c => symbol c = true) cs ->
  map convert_id_to_token (map (fun c => convert_token_to_id (single c)) cs) = map single cs.
Proof.
  induction 1 as [|c cs Hc _ IH]; [reflexivity|].
  cbn [map]. destruct (symbol_id c Hc) as [_ ->]. f_equal. exact IH.
Qed.

Lemma concat_singles cs : String.concat "" (map single cs) = string_of_list_ascii cs.
Proof.
  induction cs as [|c cs IH]; [reflexivity|].
  cbn [map string_of_list_ascii]. rewrite <- IH.
  destruct cs as [|c' cs]; reflexivity.
Qed.

Lemma filter_pads n :
  List.filter (fun id => negb (is_special id)) (repeat pad_token_id n) = [].
Proof. induction n as [|n IH]; [reflexivity | exact IH]. Qed.

(** The non-special tokens of an encoded array spell the beginning of the
    text. *)
Lemma residues_encode text max_length :
  2 < max_length -> symbols_only text = true ->
  residues (input_ids (encode text max_length)) = str_take (max_length - 2) text.
Proof.
  intros HL Hsym. rewrite input_ids_encode. cbn zeta.
  rewrite truncate_firstn by exact HL.
  rewrite (ids_of_symbols text Hsym), firstn_map.
  unfold residues.
  assert (Hall : Forall (fun c => symbol c = true)
                        (firstn (max_length - 2) (list_ascii_of_string text))).
  { apply Forall_take, symbols_only_Forall, Hsym. }
  set (f := fun id => negb (is_special id)).
  change (List.filter f (cls_token_id :: ?l)) with (List.filter f l).
  rewrite !List.filter_app. unfold f.
  rewrite (filter_symbol_ids _ Hall), filter_pads.
  change (List.filter _ [eos_token_id]) with (@nil nat).
  rewrite !app_nil_r, (tokens_of_symbol_ids _ Hall), concat_singles.
  apply str_take_list.
Qed.

(** *** The label matrix *)

Import Preprocess.

Lemma length_zeros rows cols : length (zeros rows cols) = rows.
Proof. apply repeat_length. Qed.

Lemma zeros_rows rows cols : Forall (fun row => length row = cols) (zeros rows cols).
Proof.
  unfold zeros. apply Forall_forall. intros row Hrow.
  apply list_elem_of_In, repeat_spec in Hrow. subst row. apply repeat_length.
Qed.

(** One column assignment, for a column as long as the matrix. *)
Lemma assign_column_ok (m : list (list Q)) idx (cells : list Q) :
  length cells = length m ->
  assign_column m idx (ColNum cells)
  = Ok (zip_with (fun row v => <[idx := v]> row) m cells).
Proof.
  intros H. unfold assign_column.
  destruct (Nat.eqb_spec (length cells) (length m)); [reflexivity | contradiction].
Qed.

Lemma assigned_row (m : list (list Q)) idx (cells : list Q) r row' :
  zip_with (fun row v => <[idx := v]> row) m cells !! r = Some row' ->
  exists row v, m !! r = Some row /\ cells !! r = Some v /\ row' = <[idx := v]> row.
Proof.
  intros H. apply lookup_zip_with_Some in H as (row & v & -> & Hrow & Hv).
  exists row, v. auto.
Qed.

(** The loop over the labels: it fills the columns from [idx] on, one per
    label, and leaves the columns before [idx] alone. *)
Lemma fill_labels_spec (lb : gmap string column) cols labels :
  forall idx (m : list (list Q)),
    idx + length labels <= cols ->
    Forall (fun row => length row = cols) m ->
    (forall label, label ∈ labels ->
       exists cells, lb !! label = Some (ColNum cells) /\ length cells = length m) ->
    exists m',
      fill_labels lb idx labels m = Ok m' /\
      length m' = length m /\
      Forall (fun row => length row = cols) m' /\
      forall r row', m' !! r = Some row' ->
        exists row, m !! r = Some row /\
          (forall j, j < idx -> row' !! j = row !! j) /\
          (forall i label cells, labels !! i = Some label ->
             lb !! label = Some (ColNum cells) -> row' !! (idx + i) = cells !! r).
Proof.
  induction labels as [|label rest IH]; intros idx m Hidx Hrows Hcols.
  - exists m. split; [reflexivity|]. split; [reflexivity|]. split; [exact Hrows|].
    intros r row' Hr. exists row'. split; [exact Hr|]. split; [reflexivity|].
    intros i l cells Hi. rewrite lookup_nil in Hi. discriminate Hi.
  - destruct (Hcols label) as [cells [Hlabel Hlen]]; [apply elem_of_cons; left; reflexivity|].
    cbn [fill_labels]. unfold getitem. rewrite Hlabel. cbn [mbind result_bind].
    rewrite (assign_column_ok m idx cells Hlen). cbn [mbind result_bind].
    set (m1 := zip_with (fun row v => <[idx := v]> row) m cells).
    assert (Hlen1 : length m1 = length m).
    { unfold m1. rewrite length_zip_with. lia. }
    assert (Hrows1 : Forall (fun row => length row = cols) m1).
    { apply Forall_lookup. intros r row1 Hr.
      apply assigned_row in Hr as (row & v & Hrow & _ & ->).
      rewrite length_insert. eapply (proj1 (Forall_lookup _ _) Hrows). exact Hrow. }
    cbn [length] in Hidx.
    destruct (IH (S idx) m1 ltac:(lia) Hrows1) as (m' & Hfill & Hlen' & Hrows' & Hcells).
    { intros l Hl. rewrite Hlen1. apply Hcols. apply elem_of_cons. right. exact Hl. }
    exists m'. split; [exact Hfill|]. split; [lia|]. split; [exact Hrows'|].
    intros r row' Hr.
    destruct (Hcells r row' Hr) as (row1 & Hrow1 & Hbefore & Hafter).
    apply assigned_row in Hrow1 as (row & v & Hrow & Hv & ->).
    exists row. split; [exact Hrow|]. split.
    + intros j Hj. rewrite (Hbefore j ltac:(lia)).
      apply list_lookup_insert_ne. lia.
    + intros i l cs Hi Hl. destruct i as [|i].
      * cbn in Hi. injection Hi as <-. rewrite Hlabel in Hl. injection Hl as <-.
        rewrite Nat.add_0_r, (Hbefore idx ltac:(lia)), Hv.
        apply list_lookup_insert_eq.
        rewrite (proj1 (Forall_lookup _ _) Hrows r row Hrow). lia.
      * cbn in Hi. replace (idx + S i) with (S idx + i) by lia.
        eapply Hafter; eassumption.
Qed.

Lemma lookup_labels_batch (labels : list string) (examples : gmap string column) label c :
  label ∈ labels -> examples !! label = Some c ->
  filter (fun kv : string * column => kv.1 ∈ labels) examples !! label = Some c.
Proof. intros Hl Hc. apply map_lookup_filter_Some. split; [exact Hc | exact Hl]. Qed.

(** [preprocess_data] on a well-formed batch: it returns, the ids and the
    mask are the tokenizer's, and the label matrix has the label columns of
    the batch, in the order of [labels]. *)
Lemma preprocess_data_ok labels (examples : gmap string column) text max_length :
  well_formed_batch labels examples text ->
  exists matrix,
    preprocess_data labels examples max_length
    = Ok {| input_ids := Esm.batch_input_ids (Esm.tokenizer text max_length);
            attention_mask := Esm.batch_attention_mask (Esm.tokenizer text max_length);
            labels_field := matrix |} /\
    length matrix = length text /\
    forall r vec, matrix !! r = Some vec ->
      length vec = length labels /\
      forall i label cells, labels !! i = Some label ->
        examples !! label = Some (ColNum cells) -> vec !! i = cells !! r.
Proof.
  intros [Hseq Hcols]. unfold preprocess_data, getitem. rewrite Hseq.
  cbn [mbind result_bind as_text].
  set (lb := filter _ examples).
  destruct (fill_labels_spec lb (length labels) labels 0 (zeros (length text) (length labels)))
    as (m' & Hfill & Hlen & Hrows & Hcells).
  - lia.
  - apply zeros_rows.
  - intros label Hl. rewrite length_zeros.
    destruct (Hcols label Hl) as [cells [Hc Hn]].
    exists cells. split; [|exact Hn]. apply lookup_labels_batch; assumption.
  - exists m'. rewrite Hfill. cbn [mbind result_bind].
    split; [reflexivity|]. split; [rewrite Hlen; apply length_zeros|].
    intros r vec Hr. split.
    + eapply (proj1 (Forall_lookup _ _) Hrows). exact Hr.
    + intros i label cells Hi Hc.
      destruct (Hcells r vec Hr) as (_ & _ & _ & Hafter).
      apply (Hafter i label cells Hi).
      apply lookup_labels_batch; [|exact Hc].
      eapply list_elem_of_lookup_2. exact Hi.
Qed.

(** *** The example batch *)


Example demo_labels_are_ten :
  demo_labels =
    ["Cytoplasm"; "Nucleus"; "Extracellular"; "Cell membrane"; "Mitochondrion";
     "Plastid"; "Endoplasmic reticulum"; "Lysosome/Vacuole"; "Golgi apparatus";
     "Peroxisome"] /\ length demo_labels = 10.
Proof. split; reflexivity. Qed.


Lemma demo_well_formed : well_formed_batch demo_labels demo_examples demo_text.
Proof.
  split; [vm_compute; reflexivity|].
  intros label Hl. destruct demo_labels_are_ten as [Heq _]. rewrite Heq in Hl.
  repeat (apply elem_of_cons in Hl as [->|Hl];
          [eexists; split; [vm_compute; reflexivity | reflexivity]|]).
  inversion Hl.
Qed.

Example demo_label_matrix :
  labels_field <$> preprocess_data_default demo_labels demo_examples
  = Ok [[1; 1; 0; 0; 0; 0; 0; 0; 0; 0]; [0; 0; 0; 0; 0; 1; 0; 0; 0; 0]]%Q.
Proof. vm_compute. reflexivity. Qed.

Lemma str_take_all n text : String.length text <= n -> str_take n text = text.
Proof.
  revert n. induction text as [|c rest IH]; intros [|n] H; simpl in *; try reflexivity; try lia.
  f_equal. apply IH. lia.
Qed.

(** The arrays of a batch are those of its texts, one by one. *)
Lemma batch_input_ids_lookup text max_length i seq :
  text !! i = Some seq ->
  batch_input_ids (tokenizer text max_length) !! i
  = Some (Esm.input_ids (encode seq max_length)).
Proof.
  intros H. unfold tokenizer. cbn [batch_input_ids].
  change (map ?f text) with (f <$> text).
  rewrite list_lookup_fmap, H. reflexivity.
Qed.

Lemma length_batch_input_ids text max_length :
  length (batch_input_ids (tokenizer text max_length)) = length text.
Proof. unfold tokenizer. cbn [batch_input_ids]. apply length_map. Qed.

(** The pads of one array, for a text of vocabulary symbols. *)
Lemma trailing_pads_symbols seq max_length :
  2 < max_length -> symbols_only seq = true ->
  trailing_pads (Esm.input_ids (encode seq max_length))
  = max_length - (String.length seq + 2).
Proof.
  intros HL Hsym. rewrite trailing_pads_encode, length_truncate by exact HL.
  rewrite (ids_of_symbols seq Hsym), length_map, length_list_ascii. lia.
Qed.

(** C1, as the code has it: the token array has exactly [L] entries, and
    for a sequence of [n] vocabulary symbols it ends in [L - (n + 2)] pad
    tokens (none when [n + 2 >= L]): [<cls>] and [<eos>] take two places.
    [preprocess_data] runs with [L = 512], [tokenize_data] with [L = 142]. *)
Theorem token_arrays_have_length_L :
  (forall labels (examples : gmap string column) text,
      well_formed_batch labels examples text ->
      exists enc,
        preprocess_data_default labels examples = Ok enc /\
        length (input_ids enc) = length text /\
        forall i seq, text !! i = Some seq ->
          exists ids, input_ids enc !! i = Some ids /\
            length ids = 512 /\
            (symbols_only seq = true ->
             trailing_pads ids = 512 - (String.length seq + 2))) /\
  (forall (examples : gmap string column) text,
      examples !! "text" = Some (ColText text) ->
      exists enc,
        tokenize_data examples tokenizer sequence_length = Ok enc /\
        length (batch_input_ids enc) = length text /\
        forall i seq, text !! i = Some seq ->
          exists ids, batch_input_ids enc !! i = Some ids /\
            length ids = 142 /\
            (symbols_only seq = true ->
             trailing_pads ids = 142 - (String.length seq + 2))).
Proof.
  split.
  - intros labels examples text Hwf.
    destruct (preprocess_data_ok labels examples text 512 Hwf) as (matrix & Hok & _).
    eexists. split; [exact Hok|]. cbn [input_ids].
    split; [apply length_batch_input_ids|].
    intros i seq Hi. eexists. split; [apply batch_input_ids_lookup, Hi|].
    split; [apply length_input_ids; lia|].
    intros Hsym. apply trailing_pads_symbols; [lia | exact Hsym].
  - intros examples text Htext.
    exists (tokenizer text sequence_length). split.
    + unfold tokenize_data, getitem. rewrite Htext. reflexivity.
    + split; [apply length_batch_input_ids|].
      intros i seq Hi. eexists. split; [apply batch_input_ids_lookup, Hi|].
      unfold sequence_length.
      split; [apply length_input_ids; lia|].
      intros Hsym. apply trailing_pads_symbols; [lia | exact Hsym].
Qed.

Lemma token_arrays_have_length_L_witness :
  exists enc,
    preprocess_data_default demo_labels demo_examples = Ok enc /\
    length (input_ids enc) = length demo_text /\
    forall i seq, demo_text !! i = Some seq ->
      exists ids, input_ids enc !! i = Some ids /\
        length ids = 512 /\
        (symbols_only seq = true ->
         trailing_pads ids = 512 - (String.length seq + 2)).
Proof.
  exact (proj1 token_arrays_have_length_L demo_labels demo_examples demo_text demo_well_formed).
Defined.

(** C1 as stated fails: a sequence of 100 symbols is shorter than 512, and
    its array of 512 entries ends in 410 pad tokens, not in 512 - 100 = 412;
    a sequence of 511 symbols gets no pad token, not one; with
    [tokenize_data] the sequence of 100 symbols gets 40, not 142 - 100 = 42. *)
Lemma trailing_pads_two_short :
  map String.length demo_text = [100; 511] /\
  ((fun enc => map (fun ids => (length ids, trailing_pads ids)) (input_ids enc))
     <$> preprocess_data_default demo_labels demo_examples)
  = Ok [(512, 410); (512, 0)] /\
  ((fun enc => map (fun ids => (length ids, trailing_pads ids)) (batch_input_ids enc))
     <$> tokenize_data {["text" := ColText [poly_A 100]]} tokenizer sequence_length)
  = Ok [(142, 40)] /\
  (410 =? 512 - 100)%nat = false /\ (40 =? 142 - 100)%nat = false.
Proof. repeat split; vm_compute; reflexivity. Qed.

(** C2: on a batch that has the sequences and, for every label, a numeric
    column of the batch's length, [preprocess_data] returns one label vector
    per record, of length [len(labels)], whose [i]-th entry is the record's
    value in the column of the [i]-th label. *)
Theorem label_vectors_follow_labels :
  forall features (examples : gmap string column) text max_length,
    let labels := labels_of features in
    well_formed_batch labels examples text ->
    exists enc,
      preprocess_data labels examples max_length = Ok enc /\
      length (labels_field enc) = length text /\
      forall r, r < length text ->
        exists vec, labels_field enc !! r = Some vec /\
          length vec = length labels /\
          forall i label cells, labels !! i = Some label ->
            examples !! label = Some (ColNum cells) -> vec !! i = cells !! r.
Proof.
  intros features examples text max_length labels Hwf.
  destruct (preprocess_data_ok labels examples text max_length Hwf)
    as (matrix & Hok & Hlen & Hvec).
  eexists. split; [exact Hok|]. cbn [labels_field]. split; [exact Hlen|].
  intros r Hr.
  destruct (lookup_lt_is_Some_2 matrix r ltac:(lia)) as [vec Hv].
  exists vec. split; [exact Hv|]. exact (Hvec r vec Hv).
Qed.

Lemma label_vectors_follow_labels_witness :
  exists enc,
    preprocess_data (labels_of demo_features) demo_examples 512 = Ok enc /\
    length (labels_field enc) = length demo_text /\
    forall r, r < length demo_text ->
      exists vec, labels_field enc !! r = Some vec /\
        length vec = length (labels_of demo_features) /\
        forall i label cells, labels_of demo_features !! i = Some label ->
          demo_examples !! label = Some (ColNum cells) -> vec !! i = cells !! r.
Proof.
  exact (label_vectors_follow_labels demo_features demo_examples demo_text 512 demo_well_formed).
Defined.

(** *** [decode] on an encoded array *)

Lemma symbol_ids_not_special cs :
  Forall (fun c => symbol c = true) cs ->
  Forall (fun id => is_special id = false)
         (map (fun c => convert_token_to_id (single c)) cs).
Proof.
  induction 1 as [|c cs Hc _ IH]; cbn [map]; constructor; [|exact IH].
  exact (proj1 (symbol_id c Hc)).
Qed.

Lemma not_special_not_pad id : is_special id = false -> (id =? pad_token_id)%nat = false.
Proof.
  unfold is_special. intros H.
  repeat (apply orb_false_iff in H as [H ?]).
  assumption.
Qed.

Lemma map_over_repeat {A B} (f : A -> B) x n : map f (repeat x n) = repeat (f x) n.
Proof. induction n as [|n IH]; cbn; [reflexivity | f_equal; exact IH]. Qed.

(** A text that lacks a character of [old] has no occurrence of [old]. *)
Lemma starts_with_lacking x old :
  forall text, x ∈ list_ascii_of_string old -> x ∉ list_ascii_of_string text ->
               starts_with old text = false.
Proof.
  induction old as [|a old IH]; intros text Hx Hno.
  - cbn in Hx. inversion Hx.
  - destruct text as [|b text]; [reflexivity|].
    cbn [starts_with]. cbn [list_ascii_of_string] in Hx, Hno.
    apply not_elem_of_cons in Hno as [Hxb Hno].
    apply elem_of_cons in Hx as [->|Hx].
    + destruct (Ascii.eqb_spec a b) as [->|_]; [contradiction | reflexivity].
    + rewrite (IH text Hx Hno). apply andb_false_r.
Qed.

Lemma replace_lacking x old new :
  forall text, x ∈ list_ascii_of_string old -> x ∉ list_ascii_of_string text ->
               replace old new text = text.
Proof.
  unfold replace. induction text as [|c text IH]; intros Hx Hno; [reflexivity|].
  cbn [replace_from]. rewrite (starts_with_lacking x old _ Hx Hno).
  f_equal. apply IH; [exact Hx|].
  cbn [list_ascii_of_string] in Hno. apply not_elem_of_cons in Hno as [_ Hno]. exact Hno.
Qed.

(** [replace] brings in no character that neither the text nor [new] has. *)
Lemma replace_from_lacks x old new :
  x ∉ list_ascii_of_string new ->
  forall text skip, x ∉ list_ascii_of_string text ->
                    x ∉ list_ascii_of_string (replace_from old new text skip).
Proof.
  intros Hnew. induction text as [|c text IH]; intros skip Hno; [exact Hno|].
  cbn [list_ascii_of_string] in Hno. apply not_elem_of_cons in Hno as [Hxc Hno].
  cbn [replace_from]. destruct skip as [|skip]; [|apply IH, Hno].
  destruct (starts_with old (String c text)).
  - rewrite list_ascii_of_string_app. apply not_elem_of_app. split; [exact Hnew | apply IH, Hno].
  - cbn [list_ascii_of_string]. apply not_elem_of_cons. split; [exact Hxc | apply IH, Hno].
Qed.

Lemma join_space_lacks x tokens :
  x <> " "%char -> Forall (fun t => x ∉ list_ascii_of_string t) tokens ->
  x ∉ list_ascii_of_string (join_space tokens).
Proof.
  intros Hsp. induction 1 as [|t tokens Ht Hrest IH]; [cbn; apply not_elem_of_nil|].
  destruct tokens as [|t' tokens]; [exact Ht|].
  change (join_space (t :: t' :: tokens)) with (t ++ " " ++ join_space (t' :: tokens)).
  rewrite !list_ascii_of_string_app. apply not_elem_of_app. split; [exact Ht|].
  apply not_elem_of_app. split; [|exact IH].
  cbn. apply not_elem_of_cons. split; [exact Hsp | apply not_elem_of_nil].
Qed.

(** On text without question mark, exclamation mark, comma and apostrophe
    the clean-up only draws a full stop to the token before it. *)
Lemma clean_up_tokenization_plain text :
  Forall (fun x => x ∉ list_ascii_of_string text)
         ["?"%char; "!"%char; ","%char; ascii_of_nat 39] ->
  clean_up_tokenization text = replace " ." "." text.
Proof.
  intros H.
  assert (Hlacks : Forall (fun x => x ∉ list_ascii_of_string (replace " ." "." text))
                          ["?"%char; "!"%char; ","%char; ascii_of_nat 39]).
  { eapply Forall_impl; [|intros x Hx; exact Hx].
    repeat match goal with
           | H : Forall _ (_ :: _) |- _ => apply Forall_cons in H as [? H]
           end.
    repeat constructor; (apply replace_from_lacks; [|assumption]); cbn;
      intros Hin; repeat (apply elem_of_cons in Hin as [Hin|Hin]; [discriminate Hin|]);
      inversion Hin. }
  clear H. unfold clean_up_tokenization. cbv zeta.
  set (t := replace " ." "." text) in *. clearbody t.
  repeat match goal with
         | H : Forall _ (_ :: _) |- _ => apply Forall_cons in H as [? H]
         end.
  repeat match goal with
         | Hno : ?x ∉ list_ascii_of_string t |- context [replace ?old ?new t] =>
           rewrite (replace_lacking x old new t
                      ltac:(apply list_elem_of_In; vm_compute;
                            repeat (first [left; reflexivity | right]))
                      Hno)
         end.
  reflexivity.
Qed.

Lemma list_str_take n seq :
  list_ascii_of_string (str_take n seq) = firstn n (list_ascii_of_string seq).
Proof. rewrite <- str_take_list. apply list_ascii_of_string_of_list. Qed.

Lemma symbols_str_take n seq :
  symbols_only seq = true ->
  Forall (fun c => symbol c = true) (list_ascii_of_string (str_take n seq)).
Proof. intros H. rewrite list_str_take. apply Forall_take, symbols_only_Forall, H. Qed.

(** The tokens of an encoded array. *)
Lemma tokens_of_encoded seq max_length :
  2 < max_length -> symbols_only seq = true ->
  let kept := str_take (max_length - 2) seq in
  Esm.input_ids (encode seq max_length)
  = (cls_token_id :: map (fun c => convert_token_to_id (single c)) (list_ascii_of_string kept)
       ++ eos_token_id :: repeat pad_token_id (max_length - (String.length kept + 2)))%list /\
  map convert_id_to_token (Esm.input_ids (encode seq max_length))
  = ("<cls>" :: map single (list_ascii_of_string kept)
       ++ "<eos>" :: repeat "<pad>" (max_length - (String.length kept + 2)))%list.
Proof.
  intros HL Hsym kept.
  assert (Hkept : firstn (max_length - 2) (list_ascii_of_string seq) = list_ascii_of_string kept).
  { symmetry. apply list_str_take. }
  pose proof (symbols_str_take (max_length - 2) seq Hsym) as Hall. fold kept in Hall.
  assert (Hids : Esm.input_ids (encode seq max_length)
                 = (cls_token_id
                      :: map (fun c => convert_token_to_id (single c)) (list_ascii_of_string kept)
                      ++ eos_token_id
                      :: repeat pad_token_id (max_length - (String.length kept + 2)))%list).
  { rewrite input_ids_encode. cbn zeta.
    rewrite truncate_firstn by exact HL.
    rewrite (ids_of_symbols seq Hsym), firstn_map, Hkept, length_map, length_list_ascii.
    reflexivity. }
  split; [exact Hids|]. rewrite Hids.
  cbn [map]. rewrite map_app. cbn [map].
  rewrite (tokens_of_symbol_ids _ Hall), map_over_repeat. reflexivity.
Qed.

(** The ids of an encoded array other than the pad token. *)
Lemma unpadded_encoded seq max_length :
  2 < max_length -> symbols_only seq = true ->
  let kept := str_take (max_length - 2) seq in
  map convert_id_to_token
      (List.filter (fun id => negb (id =? pad_token_id)%nat)
                   (Esm.input_ids (encode seq max_length)))
  = ("<cls>" :: map single (list_ascii_of_string kept) ++ ["<eos>"])%list.
Proof.
  intros HL Hsym kept.
  destruct (tokens_of_encoded seq max_length HL Hsym) as [Hids _]. fold kept in Hids.
  pose proof (symbols_str_take (max_length - 2) seq Hsym) as Hall. fold kept in Hall.
  rewrite Hids. cbn [List.filter Nat.eqb cls_token_id pad_token_id negb].
  rewrite List.filter_app. cbn [List.filter Nat.eqb eos_token_id pad_token_id negb].
  assert (Hpads : forall n, List.filter (fun id => negb (id =? 1)%nat) (repeat 1 n) = []).
  { induction n as [|n IH]; [reflexivity | exact IH]. }
  rewrite Hpads.
  assert (Hkeep : forall ids, Forall (fun id => (id =? pad_token_id)%nat = false) ids ->
                              List.filter (fun id => negb (id =? 1)%nat) ids = ids).
  { induction 1 as [|id ids Hid _ IH]; [reflexivity|].
    cbn [List.filter]. change 1 with pad_token_id. rewrite Hid. cbn [negb]. f_equal. exact IH. }
  rewrite Hkeep.
  - cbn [map]. rewrite map_app. cbn [map]. rewrite (tokens_of_symbol_ids _ Hall). reflexivity.
  - eapply Forall_impl; [apply symbol_ids_not_special, Hall|].
    intros id. apply not_special_not_pad.
Qed.

(** The tokens of an encoded array hold only the characters of the
    sequence and of the three special tokens. *)
Lemma encoded_tokens_lack x cs n :
  x ∉ cs -> x ∉ list_ascii_of_string "<cls>" -> x ∉ list_ascii_of_string "<eos>" ->
  x ∉ list_ascii_of_string "<pad>" ->
  Forall (fun t => x ∉ list_ascii_of_string t)
         ("<cls>" :: map single cs ++ "<eos>" :: repeat "<pad>" n)%list.
Proof.
  intros Hcs Hcls Heos Hpad. constructor; [exact Hcls|].
  apply Forall_app. split.
  - apply Forall_forall. intros t Ht. apply list_elem_of_In, in_map_iff in Ht as [c [<- Hc]].
    cbn. intros Hx. apply elem_of_cons in Hx as [->|Hx]; [|inversion Hx].
    apply Hcs, list_elem_of_In, Hc.
  - constructor; [exact Heos|]. apply Forall_forall. intros t Ht.
    apply list_elem_of_In, repeat_spec in Ht. subst t. exact Hpad.
Qed.

Lemma not_symbol_lacking x cs :
  symbol x = false -> Forall (fun c => symbol c = true) cs -> x ∉ cs.
Proof.
  intros Hx Hall Hin. rewrite Forall_forall in Hall. specialize (Hall x Hin). congruence.
Qed.

(** [decode] on tokens of vocabulary symbols and special tokens. *)
Lemma decode_tokens ids cs n :
  Forall (fun c => symbol c = true) cs ->
  map convert_id_to_token ids
  = ("<cls>" :: map single cs ++ "<eos>" :: repeat "<pad>" n)%list ->
  decode ids = replace " ." "." (join_space (map convert_id_to_token ids)) /\
  ("."%char ∉ cs -> decode ids = join_space (map convert_id_to_token ids)).
Proof.
  intros Hall Htok. unfold decode.
  assert (Hplain : clean_up_tokenization (join_space (map convert_id_to_token ids))
                   = replace " ." "." (join_space (map convert_id_to_token ids))).
  { apply clean_up_tokenization_plain. rewrite Htok.
    repeat constructor;
      (apply join_space_lacks; [discriminate|]);
      (apply encoded_tokens_lack;
       [apply not_symbol_lacking; [reflexivity | exact Hall] | | |]);
      cbn; intros Hin; repeat (apply elem_of_cons in Hin as [Hin|Hin]; [discriminate Hin|]);
      inversion Hin. }
  split; [exact Hplain|].
  intros Hdot. rewrite Hplain. apply (replace_lacking "."%char).
  - cbn. apply list_elem_of_further, list_elem_of_here.
  - rewrite Htok. apply join_space_lacks; [discriminate|].
    apply encoded_tokens_lack; [exact Hdot | | |];
      cbn; intros Hin; repeat (apply elem_of_cons in Hin as [Hin|Hin]; [discriminate Hin|]);
      inversion Hin.
Qed.

(** C3, as the code has it: for [L > 2] (the notebooks use 512 and 142) and
    a sequence of vocabulary symbols other than the full stop,
    [tokenizer.decode] of the encoded array is the text of its tokens with
    single spaces between them: [<cls>], the first [L - 2] symbols of the
    sequence, [<eos>] and [L - (n + 2)] pad tokens; with the pad tokens left
    out, the same without them.  The symbols are the whole sequence when it
    has at most [L - 2]. *)
Theorem decode_of_encoded_sequence :
  forall text max_length i seq,
    2 < max_length -> text !! i = Some seq -> symbols_only seq = true ->
    "."%char ∉ list_ascii_of_string seq ->
    let kept := str_take (max_length - 2) seq in
    let symbols := map single (list_ascii_of_string kept) in
    let pads := repeat "<pad>" (max_length - (String.length kept + 2)) in
    exists ids,
      batch_input_ids (tokenizer text max_length) !! i = Some ids /\
      decode ids = join_space ("<cls>" :: symbols ++ "<eos>" :: pads) /\
      decode (List.filter (fun id => negb (id =? pad_token_id)%nat) ids)
      = join_space ("<cls>" :: symbols ++ ["<eos>"]) /\
      (String.length seq <= max_length - 2 -> kept = seq).
Proof.
  intros text max_length i seq HL Hi Hsym Hdot kept symbols pads.
  eexists. split; [apply batch_input_ids_lookup, Hi|].
  pose proof (symbols_str_take (max_length - 2) seq Hsym) as Hall. fold kept in Hall.
  assert (Hdot' : "."%char ∉ list_ascii_of_string kept).
  { unfold kept. rewrite list_str_take. intros Hin. apply Hdot.
    eapply elem_of_sublist; [exact Hin | apply sublist_take]. }
  destruct (tokens_of_encoded seq max_length HL Hsym) as [_ Htok].
  pose proof (unpadded_encoded seq max_length HL Hsym) as Hun.
  cbv zeta in Htok, Hun. fold kept in Htok, Hun.
  destruct (decode_tokens _ _ _ Hall Htok) as [_ Hd].
  destruct (decode_tokens _ (list_ascii_of_string kept) 0 Hall Hun) as [_ Hu].
  rewrite Htok in Hd. rewrite Hun in Hu.
  split; [exact (Hd Hdot')|]. split; [exact (Hu Hdot')|].
  intros Hlen. apply str_take_all. exact Hlen.
Qed.

Lemma decode_of_encoded_sequence_witness :
  exists ids,
    batch_input_ids (tokenizer ["MKV"; "LAGVSERT"] 8) !! 1 = Some ids /\
    decode ids = "<cls> L A G V S E <eos>" /\
    decode (List.filter (fun id => negb (id =? pad_token_id)%nat) ids)
    = "<cls> L A G V S E <eos>".
Proof.
  assert (Hdot : forall seq, forallb (fun c => negb (Ascii.eqb c ".")) (list_ascii_of_string seq) = true ->
                             "."%char ∉ list_ascii_of_string seq).
  { intros seq H Hin. rewrite forallb_forall in H.
    specialize (H _ (proj1 (list_elem_of_In _ _) Hin)). discriminate H. }
  destruct (decode_of_encoded_sequence ["MKV"; "LAGVSERT"] 8 1 "LAGVSERT"
              ltac:(lia) eq_refl eq_refl (Hdot "LAGVSERT" eq_refl)) as (ids & Hids & Hd & Hu & _).
  exists ids. split; [exact Hids|].
  split; [rewrite Hd; vm_compute; reflexivity|].
  rewrite Hu. vm_compute. reflexivity.
Defined.

(** C3 as stated fails.  [decode] keeps the special tokens and puts spaces
    between the tokens, with the pad tokens left out or not; and a sequence
    of 512 symbols, which truncation at 512 would leave whole, comes back
    without its last two symbols even when special tokens and spaces are
    set aside. *)
Lemma decode_is_not_the_sequence :
  decode (Esm.input_ids (encode "MKV" 8)) = "<cls> M K V <eos> <pad> <pad> <pad>" /\
  decode (List.filter (fun id => negb (id =? pad_token_id)%nat) (Esm.input_ids (encode "MKV" 512)))
  = "<cls> M K V <eos>" /\
  str_take 512 "MKV" = "MKV" /\
  String.eqb "<cls> M K V <eos>" "MKV" = false /\
  str_take 512 (poly_A 512) = poly_A 512 /\
  residues (Esm.input_ids (encode (poly_A 512) 512)) = poly_A 510 /\
  String.eqb (poly_A 510) (poly_A 512) = false.
Proof. repeat split; vm_compute; reflexivity. Qed.

(** *** The job configurations *)

Lemma huggingface_keeps (hp : gmap string JobConfig.hvalue) :
  exists est, JobConfig.huggingface_estimator_g5_3b hp = Ok est /\
              JobConfig.hyperparameters est = hp.
Proof. eexists. split; reflexivity. Qed.

Lemma trn1_keeps region (hp : gmap string JobConfig.hvalue) :
  exists est, JobConfig.trn1_estimator region hp = Ok est /\
              JobConfig.hyperparameters est = hp.
Proof. eexists. split; reflexivity. Qed.

(** C5, as the code has it: the estimator cells check no key.  Whatever
    set of options counts as recognized, a mapping with a key outside it is
    accepted, and the key stays in the configuration with its value; the
    configuration holds the mapping as it was given. *)
Theorem builder_keeps_every_key :
  forall (recognized : gset string) (hyperparameters : gmap string JobConfig.hvalue)
         (REGION_NAME key : string) (v : JobConfig.hvalue),
    hyperparameters !! key = Some v -> key ∉ recognized ->
    (exists est,
        JobConfig.huggingface_estimator_g5_3b hyperparameters = Ok est /\
        JobConfig.hyperparameters est !! key = Some v /\
        JobConfig.hyperparameters est = hyperparameters) /\
    (exists est,
        JobConfig.trn1_estimator REGION_NAME hyperparameters = Ok est /\
        JobConfig.hyperparameters est !! key = Some v /\
        JobConfig.hyperparameters est = hyperparameters).
Proof.
  intros recognized hp region key v Hkey _. split.
  - destruct (huggingface_keeps hp) as [est [Hest Hhp]].
    exists est. split; [exact Hest|]. split; [|exact Hhp]. rewrite Hhp. exact Hkey.
  - destruct (trn1_keeps region hp) as [est [Hest Hhp]].
    exists est. split; [exact Hest|]. split; [|exact Hhp]. rewrite Hhp. exact Hkey.
Qed.

Lemma builder_keeps_every_key_witness :
  (exists est,
      JobConfig.huggingface_estimator_g5_3b
        (<["unsupported_option" := JobConfig.HInt 1]> JobConfig.hyperparameters_peft) = Ok est /\
      JobConfig.hyperparameters est !! "unsupported_option" = Some (JobConfig.HInt 1) /\
      JobConfig.hyperparameters est
      = <["unsupported_option" := JobConfig.HInt 1]> JobConfig.hyperparameters_peft) /\
  (exists est,
      JobConfig.trn1_estimator "us-east-1"
        (<["unsupported_option" := JobConfig.HInt 1]> JobConfig.hyperparameters_peft) = Ok est /\
      JobConfig.hyperparameters est !! "unsupported_option" = Some (JobConfig.HInt 1) /\
      JobConfig.hyperparameters est
      = <["unsupported_option" := JobConfig.HInt 1]> JobConfig.hyperparameters_peft).
Proof.
  refine (builder_keeps_every_key (dom JobConfig.hyperparameters_peft)
            (<["unsupported_option" := JobConfig.HInt 1]> JobConfig.hyperparameters_peft)
            "us-east-1" "unsupported_option" (JobConfig.HInt 1) _ _).
  - apply lookup_insert_eq.
  - apply not_elem_of_dom. vm_compute. reflexivity.
Defined.

(** C5 as stated fails: a key that is none of the notebook's own options,
    and the estimator cell returns with the key in the configuration. *)
Lemma unsupported_key_is_accepted :
  JobConfig.hyperparameters_peft !! "unsupported_option" = None /\
  ((fun est => JobConfig.hyperparameters est !! "unsupported_option")
     <$> JobConfig.huggingface_estimator_g5_3b
           (<["unsupported_option" := JobConfig.HInt 1]> JobConfig.hyperparameters_peft))
  = Ok (Some (JobConfig.HInt 1)) /\
  returns (JobConfig.huggingface_estimator_g5_3b
             (<["unsupported_option" := JobConfig.HInt 1]> JobConfig.hyperparameters_peft)).
Proof. repeat split; vm_compute; reflexivity. Qed.

(** The configuration agrees with the preprocessing: [max_length] is the
    default of [preprocess_data], [num_labels] the number of label columns. *)
Example peft_configuration_agrees :
  JobConfig.hyperparameters_peft !! "max_length" = Some (JobConfig.HInt 512) /\
  JobConfig.hyperparameters_peft !! "num_labels"
  = Some (JobConfig.HInt (Z.of_nat (length demo_labels))).
Proof. split; vm_compute; reflexivity. Qed.
(** * Further properties of the code *)

Import Endpoint.
(** *** [json.loads] after [json.dumps] *)

(** A [\uXXXX] escape of a code point that is no high surrogate is read as
    that code point. *)
Lemma scanstring_u_escape h1 h2 h3 h4 u rest acc :
  hex4 h1 h2 h3 h4 = Some u -> is_high_surrogate u = false ->
  scanstring (backslash :: "u"%char :: h1 :: h2 :: h3 :: h4 :: rest) acc
  = scanstring rest (rev (utf8 u) ++ acc).
Proof.
  intros Hhex Hhigh. cbn [scanstring].
  change (code backslash =? 34)%N with false. change (code backslash =? 92)%N with true.
  change (code "u" =? 117)%N with true. cbn iota.
  rewrite Hhex, Hhigh. cbn [andb].
  destruct rest as [|b [|e2 [|g1 [|g2 [|g3 [|g4 r3]]]]]]; reflexivity.
Qed.

(** Reading the escape of an ASCII character gives the character back. *)
Lemma scanstring_escape_cp c rest acc :
  (code c <? 128)%N = true ->
  scanstring (escape_cp (code c) ++ rest) acc = scanstring rest (c :: acc).
Proof.
  destruct c as [[] [] [] [] [] [] [] []]; intros H; try discriminate H;
    match goal with
    | |- scanstring (?l ++ rest)%list acc = _ =>
      let l' := eval vm_compute in l in
      change (scanstring (l' ++ rest)%list acc) with (scanstring (l' ++ rest)%list acc);
      change l with l'; cbn [app]
    end;
    first [ reflexivity
          | etransitivity; [apply scanstring_u_escape; reflexivity | reflexivity] ].
Qed.

Lemma scanstring_escape_chars cs rest acc :
  forallb (fun c => (code c <? 128)%N) cs = true ->
  scanstring (escape_chars cs ++ dquote :: rest) acc
  = Ok (string_of_list_ascii (rev acc ++ cs), rest).
Proof.
  revert acc. induction cs as [|c cs IH]; intros acc H.
  - cbn [escape_chars app]. rewrite app_nil_r. reflexivity.
  - cbn [forallb] in H. apply andb_true_iff in H as [Hc Hcs].
    cbn [escape_chars]. cbv zeta. rewrite Hc.
    rewrite <- app_assoc, (scanstring_escape_cp c _ acc Hc), (IH (c :: acc) Hcs).
    cbn [rev]. rewrite <- app_assoc. reflexivity.
Qed.

(** One encoded string, read by [scan_once]. *)
Lemma scan_once_encode_str m depth s rest :
  ascii_only s = true ->
  scan_once m depth (encode_str s ++ rest) = Ok (JStr s, rest).
Proof.
  intros H. unfold encode_str. destruct depth; cbn [scan_once app];
    change (code dquote =? 34)%N with true; cbn iota;
    rewrite <- app_assoc; cbn [app];
    rewrite (scanstring_escape_chars _ rest [] H); cbn [mbind result_bind rev app];
    rewrite string_of_list_ascii_of_string; reflexivity.
Qed.

Lemma starts_with_bom_dquote t : starts_with_bom (dquote :: t) = false.
Proof. destruct t as [|b [|c t]]; reflexivity. Qed.

(** The sequence that the client sends arrives as it was. *)
Lemma loads_dumps_str py s :
  ascii_only s = true -> loads py (dumps_str s) = Ok (JStr s).
Proof.
  intros H. unfold loads, dumps_str.
  rewrite list_ascii_of_string_of_list.
  unfold encode_str at 1. rewrite starts_with_bom_dquote. cbv zeta.
  change (skip_ws (encode_str s)) with (encode_str s).
  rewrite <- (app_nil_r (encode_str s)) at 1.
  rewrite (scan_once_encode_str _ _ s [] H). reflexivity.
Qed.

(** *** The response: [json.loads] after [json.dumps(pdbs)] *)

Lemma join_items_encoded_head p ps rest :
  exists t, (join_items (map encode_str (p :: ps)) ++ rest)%list = dquote :: t.
Proof.
  destruct ps as [|q ps]; cbn [map join_items]; unfold encode_str at 1;
    eexists; cbn [app]; reflexivity.
Qed.

Lemma skip_ws_dquote t : skip_ws (dquote :: t) = dquote :: t.
Proof. reflexivity. Qed.

(** The loop of the array reads the encoded items one by one. *)
Lemma array_loop_encoded m depth ps :
  forall n p acc rest,
    length ps < n ->
    forallb ascii_only (p :: ps) = true ->
    array_loop (scan_once m depth) n
      (join_items (map encode_str (p :: ps)) ++ "]"%char :: rest) acc
    = Ok (JList (rev acc ++ map JStr (p :: ps)), rest).
Proof.
  induction ps as [|q ps IH]; intros n p acc rest Hn Hall;
    (destruct n as [|n]; [cbn [length] in Hn; lia|]);
    cbn [forallb] in Hall; apply andb_true_iff in Hall as [Hp Hps].
  - cbn [map join_items array_loop].
    rewrite (scan_once_encode_str m depth p _ Hp). cbn [mbind result_bind].
    change (skip_ws ("]"%char :: rest)) with ("]"%char :: rest).
    change (code "]" =? 93)%N with true. cbn iota.
    cbn [rev]. reflexivity.
  - change (join_items (map encode_str (p :: q :: ps)))
      with (encode_str p ++ lit ", " ++ join_items (map encode_str (q :: ps)))%list.
    cbn [array_loop]. rewrite <- !app_assoc.
    rewrite (scan_once_encode_str m depth p _ Hp). cbn [mbind result_bind].
    destruct (join_items_encoded_head q ps ("]"%char :: rest)) as [t Ht].
    change (lit ", " ++ join_items (map encode_str (q :: ps)) ++ "]"%char :: rest)%list
      with (","%char :: " "%char :: (join_items (map encode_str (q :: ps)) ++ "]"%char :: rest))%list.
    change (skip_ws (","%char :: " "%char :: ?l)) with (","%char :: " "%char :: l).
    cbv beta iota.
    change (code "," =? 93)%N with false. change (code "," =? 44)%N with true. cbv iota.
    change (skip_ws (" "%char :: ?l)) with (skip_ws l).
    rewrite Ht, skip_ws_dquote, <- Ht.
    rewrite (IH n q (JStr p :: acc) rest); [|cbn [length] in Hn; lia|exact Hps].
    cbn [rev map]. rewrite <- app_assoc. reflexivity.
Qed.

Lemma length_join_items ps : length ps <= length (join_items (map encode_str ps)).
Proof.
  induction ps as [|p [|q ps] IH].
  - cbn. lia.
  - cbn [map join_items]. unfold encode_str. cbn [length]. lia.
  - change (join_items (map encode_str (p :: q :: ps)))
      with (encode_str p ++ lit ", " ++ join_items (map encode_str (q :: ps)))%list.
    rewrite !length_app. unfold encode_str at 1. cbn [length] in *. lia.
Qed.

Lemma starts_with_bom_bracket t : starts_with_bom ("["%char :: t) = false.
Proof. destruct t as [|b [|c t]]; reflexivity. Qed.

Lemma scan_once_bracket m depth r :
  scan_once m (S depth) ("["%char :: r) = JSONArray (scan_once m depth) (S (length r)) r.
Proof. reflexivity. Qed.

(** The list of texts that the server encodes arrives as it was. *)
Lemma loads_dumps_strs py ps :
  forallb ascii_only ps = true -> loads py (dumps_strs ps) = Ok (JList (map JStr ps)).
Proof.
  intros H. unfold loads, dumps_strs.
  rewrite list_ascii_of_string_of_list.
  change (lit "[" ++ ?l)%list with ("["%char :: l).
  rewrite starts_with_bom_bracket. cbv zeta.
  change (skip_ws ("["%char :: ?l)) with ("["%char :: l).
  pose proof (length_join_items ps) as Hlen.
  rewrite scan_once_bracket.
  unfold JSONArray. destruct ps as [|p ps].
  - reflexivity.
  - destruct (join_items_encoded_head p ps (lit "]")) as [t Ht].
    rewrite Ht, skip_ws_dquote. change (code dquote =? 93)%N with false. cbv iota.
    rewrite <- Ht. change (lit "]") with ["]"%char].
    rewrite (array_loop_encoded _ _ ps _ p [] []); [reflexivity | | exact H].
    rewrite length_app. cbn [length] in *. lia.
Qed.

(** *** The two label dictionaries *)

Import LabelMaps.

Lemma elem_of_enumerate_from {A} (l : list A) :
  forall k i x, (i, x) ∈ enumerate_from k l <-> k <= i /\ l !! (i - k) = Some x.
Proof.
  induction l as [|y l IH]; intros k i x; cbn [enumerate_from].
  - rewrite elem_of_nil, lookup_nil. split; [contradiction | intros [_ H]; discriminate H].
  - rewrite elem_of_cons, IH. split.
    + intros [H|[Hk Hl]].
      * injection H as -> ->. split; [lia|]. replace (k - k) with 0 by lia. reflexivity.
      * split; [lia|]. replace (i - k) with (S (i - S k)) by lia. exact Hl.
    + intros [Hk Hl]. destruct (decide (i = k)) as [->|Hne].
      * left. replace (k - k) with 0 in Hl by lia. cbn in Hl. congruence.
      * right. split; [lia|]. replace (i - k) with (S (i - S k)) in Hl by lia. exact Hl.
Qed.

Lemma elem_of_enumerate {A} (l : list A) i x : (i, x) ∈ enumerate l <-> l !! i = Some x.
Proof.
  unfold enumerate. rewrite elem_of_enumerate_from, Nat.sub_0_r.
  split; [intros [_ H]; exact H | intros H; split; [lia | exact H]].
Qed.

Lemma fst_enumerate_from {A} (l : list A) : forall k, (enumerate_from k l).*1 = seq k (length l).
Proof. induction l as [|y l IH]; intros k; cbn; [reflexivity | f_equal; apply IH]. Qed.

Lemma snd_enumerate_from {A} (l : list A) : forall k, (enumerate_from k l).*2 = l.
Proof. induction l as [|y l IH]; intros k; cbn; [reflexivity | f_equal; apply IH]. Qed.

(** A comprehension stores its pairs from left to right. *)
Lemma dict_of_list_to_map `{Countable K} {V} (pairs : list (K * V)) :
  dict_of pairs = list_to_map (reverse pairs).
Proof.
  unfold dict_of.
  enough (Hgen : forall d : gmap K V,
             fold_left (fun d kv => <[kv.1 := kv.2]> d) pairs d
             = foldr (fun p => <[p.1 := p.2]>) d (reverse pairs)) by apply Hgen.
  induction pairs as [|p pairs IH]; intros d; [reflexivity|].
  cbn [fold_left]. rewrite IH, reverse_cons, foldr_app. reflexivity.
Qed.

Lemma dict_of_lookup `{Countable K} {V} (pairs : list (K * V)) k v :
  NoDup pairs.*1 -> dict_of pairs !! k = Some v <-> (k, v) ∈ pairs.
Proof.
  intros Hnd. rewrite dict_of_list_to_map, <- elem_of_list_to_map.
  - apply elem_of_reverse.
  - rewrite fmap_reverse, reverse_Permutation. exact Hnd.
Qed.

(** [id2label] holds the labels by position. *)
Lemma id2label_lookup labels i : id2label labels !! i = labels !! i.
Proof.
  unfold id2label. apply option_eq. intros label.
  rewrite dict_of_lookup, elem_of_enumerate; [reflexivity|].
  unfold enumerate. rewrite fst_enumerate_from. apply NoDup_seq.
Qed.

(** [label2id] holds the position of every label, when no label comes twice. *)
Lemma label2id_lookup labels label i :
  NoDup labels -> label2id labels !! label = Some i <-> labels !! i = Some label.
Proof.
  intros Hnd. unfold label2id. rewrite dict_of_lookup.
  - rewrite <- elem_of_enumerate. rewrite list_elem_of_fmap. split.
    + intros [[j x] [Heq Hin]]. cbn in Heq. injection Heq as -> ->. exact Hin.
    + intros Hin. exists (i, label). split; [reflexivity | exact Hin].
  - change (map (fun il : nat * string => (il.2, il.1)) (enumerate labels)).*1
      with (fst <$> ((fun il : nat * string => (il.2, il.1)) <$> enumerate labels)).
    rewrite <- list_fmap_compose.
    change (fst ∘ (fun il : nat * string => (il.2, il.1))) with (@snd nat string).
    unfold enumerate. rewrite snd_enumerate_from. exact Hnd.
Qed.

Lemma NoDup_labels_of features : NoDup features -> NoDup (labels_of features).
Proof.
  unfold labels_of. induction 1 as [|x l Hx Hl IH]; cbn [List.filter]; [constructor|].
  destruct (negb _); [|exact IH].
  constructor; [|exact IH]. intros Hin. apply Hx.
  apply list_elem_of_In in Hin. apply filter_In in Hin as [Hin _].
  apply list_elem_of_In. exact Hin.
Qed.

(** *** The compartments of a record *)

(** The listing over the entries of a label vector, from position [i] on:
    it names the labels at the positions that hold 1.0, in the order of
    [labels], and finds every position in [id2label] when the vector is no
    longer than [labels]. *)
Lemma listing_spec labels :
  forall vec i, i + length vec <= length labels ->
    exists names,
      listing (id2label labels) (enumerate_from i vec) = Ok names /\
      sublist names (skipn i labels) /\
      forall name, name ∈ names <->
        exists j v, labels !! (i + j) = Some name /\ vec !! j = Some v /\ Qeq_bool v 1 = true.
Proof.
  induction vec as [|v vec IH]; intros i Hlen.
  - exists []. split; [reflexivity|]. split; [apply sublist_nil_l|].
    intros name. rewrite elem_of_nil. split; [contradiction|].
    intros (j & w & _ & Hw & _). rewrite lookup_nil in Hw. discriminate Hw.
  - cbn [length] in Hlen.
    destruct (lookup_lt_is_Some_2 labels i ltac:(lia)) as [name0 Hname0].
    destruct (IH (S i) ltac:(lia)) as (names & Hnames & Hsub & Hmem).
    rewrite (drop_S labels name0 i Hname0).
    cbn [enumerate_from listing]. destruct (Qeq_bool v 1) eqn:Hv.
    + rewrite id2label_lookup, Hname0, Hnames. cbn [mbind result_bind].
      exists (name0 :: names). split; [reflexivity|]. split; [apply sublist_skip, Hsub|].
      intros name. rewrite elem_of_cons, Hmem. split.
      * intros [->|(j & w & Hl & Hw & H1)].
        -- exists 0, v. rewrite Nat.add_0_r. auto.
        -- exists (S j), w. rewrite <- Nat.add_succ_comm. auto.
      * intros (j & w & Hl & Hw & H1). destruct j as [|j].
        -- left. rewrite Nat.add_0_r in Hl. congruence.
        -- right. exists j, w. rewrite Nat.add_succ_comm. auto.
    + exists names. split; [exact Hnames|]. split; [apply sublist_cons, Hsub|].
      intros name. rewrite Hmem. split.
      * intros (j & w & Hl & Hw & H1). exists (S j), w. rewrite <- Nat.add_succ_comm. auto.
      * intros (j & w & Hl & Hw & H1). destruct j as [|j].
        -- cbn in Hw. congruence.
        -- exists j, w. rewrite Nat.add_succ_comm. auto.
Qed.

(** *** A batch that lacks a column *)

Lemma fill_labels_app lb pre post :
  forall idx m,
    fill_labels lb idx (pre ++ post) m
    = m' ← fill_labels lb idx pre m; fill_labels lb (idx + length pre) post m'.
Proof.
  induction pre as [|label pre IH]; intros idx m.
  - cbn [app fill_labels length mbind result_bind]. rewrite Nat.add_0_r. reflexivity.
  - cbn [app fill_labels length].
    destruct (getitem lb label) as [values|e]; [|reflexivity]. cbn [mbind result_bind].
    destruct (assign_column m idx values) as [m1|e]; [|reflexivity]. cbn [mbind result_bind].
    rewrite IH, <- Nat.add_succ_comm. reflexivity.
Qed.

Lemma labels_batch_missing (labels : list string) (examples : gmap string column) label :
  examples !! label = None ->
  getitem (filter (fun kv : string * column => kv.1 ∈ labels) examples) label
  = Raise (KeyError label).
Proof.
  intros H. unfold getitem.
  rewrite (proj2 (map_lookup_filter_None _ examples label)); [reflexivity|].
  left. exact H.
Qed.

(** *** The attention mask and the call without special tokens *)

Import Folding.

Lemma truncate_Forall (P : nat -> Prop) max_length ids :
  Forall P ids -> Forall P (truncate max_length ids).
Proof.
  intros H. unfold truncate.
  destruct (_ && _); [|exact H].
  destruct (_ <? _)%nat; [|exact H].
  apply Forall_take, H.
Qed.

Lemma map_not_pad ids :
  Forall (fun id => (id =? pad_token_id)%nat = false) ids ->
  map (fun id => if (id =? pad_token_id)%nat then 0 else 1) ids = repeat 1 (length ids).
Proof.
  induction 1 as [|id ids Hid _ IH]; cbn [map length repeat]; [reflexivity|].
  rewrite Hid, IH. reflexivity.
Qed.

(** The mask of one encoded sequence: 0 on the pad tokens, 1 elsewhere. *)
Lemma attention_mask_encode text max_length :
  symbols_only text = true ->
  Esm.attention_mask (encode text max_length)
  = map (fun id => if (id =? pad_token_id)%nat then 0 else 1)
        (Esm.input_ids (encode text max_length)).
Proof.
  intros Hsym. unfold encode, pad. cbn [Esm.attention_mask Esm.input_ids].
  rewrite map_app, map_over_repeat. cbn [Nat.eqb pad_token_id].
  f_equal. symmetry. apply map_not_pad.
  unfold build_inputs_with_special_tokens.
  constructor; [reflexivity|].
  apply Forall_app. split; [|constructor; [reflexivity | constructor]].
  apply truncate_Forall. rewrite (ids_of_symbols text Hsym).
  eapply Forall_impl; [apply symbol_ids_not_special, symbols_only_Forall, Hsym|].
  intros id. apply not_special_not_pad.
Qed.

(** *** The test partition *)

Lemma drop_sublist (labels : list nat) (df rest : DataFrame) :
  DataLoading.drop labels df = Ok rest -> sublist rest df.
Proof.
  unfold DataLoading.drop. destruct (decide _); intros H; [|discriminate H].
  injection H as <-. apply sublist_filter.
Qed.

Lemma values_filtered_sublist lines :
  sublist (values (length_filter (read_csv lines))) lines.
Proof.
  rewrite <- (values_read_csv lines) at 2. unfold values, length_filter.
  apply fmap_sublist, sublist_filter.
Qed.

(** The frames of the split, and the order of the last one. *)
Lemma split_test_sublist choice1 choice2 lines tr va te :
  split choice1 choice2 lines = Ok (tr, va, te) ->
  sublist (values te) lines.
Proof.
  unfold split. intros H.
  destruct (sample choice1 4 5 _) as [tr'|e]; [|discriminate H]. cbn [mbind result_bind] in H.
  destruct (DataLoading.drop (index tr') _) as [df2|e] eqn:Hd1; [|discriminate H].
  cbn [mbind result_bind] in H.
  destruct (sample choice2 1 2 df2) as [va'|e]; [|discriminate H]. cbn [mbind result_bind] in H.
  destruct (DataLoading.drop (index va') df2) as [te'|e] eqn:Hd2; [|discriminate H].
  cbn [mbind result_bind] in H. injection H as _ _ <-.
  etransitivity; [|apply values_filtered_sublist].
  unfold values. apply fmap_sublist.
  etransitivity; [exact (drop_sublist _ _ _ Hd2) | exact (drop_sublist _ _ _ Hd1)].
Qed.

(** *** Properties of the handlers, the label cell, the tokenizer calls and the split *)

(** X1: the body that the client makes of an ASCII sequence with
    [json.dumps] is read back by [input_fn] under [application/json] as that
    sequence: the handler returns for it what it returns for the bare
    sequence under [text/csv]. *)
Theorem input_fn_reads_client_request :
  forall py sequence,
    ascii_only sequence = true ->
    Inference.input_fn py (dumps_str sequence) "application/json" = Ok (JStr sequence) /\
    Inference.input_fn py (dumps_str sequence) "application/json"
    = Inference.input_fn py sequence "text/csv".
Proof.
  intros py sequence H.
  rewrite input_fn_json, input_fn_csv, (loads_dumps_str py sequence H).
  cbn [mbind result_bind].
  rewrite (write_object_printable py _ (printable_ascii py sequence H)).
  split; reflexivity.
Qed.

Lemma input_fn_reads_client_request_witness :
  ascii_only "MKVLAAGIVG" = true /\
  Inference.input_fn cpython (dumps_str "MKVLAAGIVG") "application/json"
  = Ok (JStr "MKVLAAGIVG").
Proof.
  split; [reflexivity|].
  apply (input_fn_reads_client_request cpython "MKVLAAGIVG"). reflexivity.
Defined.

(** X2: when the PDB texts are ASCII, the [str] that [output_fn] returns
    under [application/json] is JSON text, and [json.loads] of it is the
    list that [output_fn] returns under [text/csv]: one PDB text per
    structure of the batch, in the order of the batch. *)
Theorem output_fn_json_decodes_to_csv :
  forall py (ModelOutput : Type) (batch_size : ModelOutput -> nat)
         (to_pdb : ModelOutput -> nat -> string) (outputs : ModelOutput),
    forallb ascii_only (Inference.pdbs_of ModelOutput batch_size to_pdb outputs) = true ->
    exists body,
      Inference.output_fn ModelOutput batch_size to_pdb outputs "application/json"
      = Ok (JStr body) /\
      loads py body = Inference.output_fn ModelOutput batch_size to_pdb outputs "text/csv" /\
      loads py body
      = Ok (JList (map (fun i => JStr (to_pdb outputs i)) (seq 0 (batch_size outputs)))).
Proof.
  intros py ModelOutput batch_size to_pdb outputs H.
  exists (dumps_strs (Inference.pdbs_of ModelOutput batch_size to_pdb outputs)).
  split; [reflexivity|].
  rewrite (loads_dumps_strs py _ H). split; [reflexivity|].
  unfold Inference.pdbs_of. rewrite map_map. reflexivity.
Qed.

Lemma output_fn_json_decodes_to_csv_witness :
  exists body,
    Inference.output_fn (list string) (@length string) (fun o i => nth i o "") ["ATOM      1"; "END"]
                        "application/json" = Ok (JStr body) /\
    loads cpython body = Ok (JList [JStr "ATOM      1"; JStr "END"]).
Proof.
  destruct (output_fn_json_decodes_to_csv cpython (list string) (@length string)
              (fun o i => nth i o "")
              ["ATOM      1"; "END"] eq_refl) as [body [Hbody [_ Hloads]]].
  exists body. split; [exact Hbody | exact Hloads].
Defined.

(** X3: for feature names that are distinct (they are the keys of a
    dict), [id2label] and [label2id] are inverse to each other: [id2label]
    holds at [i] the [i]-th label, [label2id] holds for a label its position
    in [labels], and no label is one of the four left-out columns. *)
Theorem label_dictionaries_inverse :
  forall features,
    NoDup features ->
    let labels := labels_of features in
    forall i label,
      (id2label labels !! i = Some label <-> labels !! i = Some label) /\
      (label2id labels !! label = Some i <-> labels !! i = Some label) /\
      (id2label labels !! i = Some label <-> label2id labels !! label = Some i) /\
      (label2id labels !! label = Some i ->
         label ∈ features /\ label ∉ ["ACC"; "Kingdom"; "Membrane"; "Sequence"]).
Proof.
  intros features Hnd labels i label.
  pose proof (NoDup_labels_of features Hnd) as Hl. fold labels in Hl.
  assert (H1 : id2label labels !! i = Some label <-> labels !! i = Some label)
    by (rewrite id2label_lookup; reflexivity).
  pose proof (label2id_lookup labels label i Hl) as H2.
  split; [exact H1|]. split; [exact H2|]. split; [rewrite H1, H2; reflexivity|].
  intros H. apply H2 in H. apply list_elem_of_lookup_2 in H.
  unfold labels, labels_of in H. apply list_elem_of_In, filter_In in H as [Hin Hno].
  split; [apply list_elem_of_In, Hin|].
  intros Hres. apply negb_true_iff in Hno.
  assert (Ht : existsb (String.eqb label) ["ACC"; "Kingdom"; "Membrane"; "Sequence"] = true).
  { apply existsb_exists. exists label. split; [apply list_elem_of_In, Hres | apply String.eqb_refl]. }
  congruence.
Qed.

Lemma label_dictionaries_inverse_witness :
  (id2label (labels_of demo_features) !! 5 = Some "Plastid"
   <-> label2id (labels_of demo_features) !! "Plastid" = Some 5) /\
  id2label (labels_of demo_features) !! 5 = Some "Plastid".
Proof.
  assert (Hnd : NoDup demo_features) by (apply (bool_decide_unpack _); vm_compute; exact I).
  split.
  - exact (proj1 (proj2 (proj2 (label_dictionaries_inverse demo_features Hnd 5 "Plastid")))).
  - vm_compute. reflexivity.
Defined.

(** X4: for a record of a well-formed batch, the last line of the example
    cell prints the labels whose column holds 1.0 for that record, in the
    order of [labels]; [id2label] has every position it looks up. *)
Theorem compartments_of_record :
  forall labels (examples : gmap string column) text max_length r,
    well_formed_batch labels examples text ->
    r < length text ->
    exists enc vec names,
      preprocess_data labels examples max_length = Ok enc /\
      labels_field enc !! r = Some vec /\
      compartments labels vec = Ok names /\
      sublist names labels /\
      forall name, name ∈ names <->
        name ∈ labels /\
        exists cells v, examples !! name = Some (ColNum cells) /\ cells !! r = Some v /\
                        Qeq_bool v 1 = true.
Proof.
  intros labels examples text max_length r Hwf Hr.
  destruct (preprocess_data_ok labels examples text max_length Hwf)
    as (matrix & Henc & Hlen & Hrows).
  destruct (lookup_lt_is_Some_2 matrix r ltac:(lia)) as [vec Hvec].
  destruct (Hrows r vec Hvec) as [Hlv Hcells].
  destruct (listing_spec labels vec 0 ltac:(lia)) as (names & Hnames & Hsub & Hmem).
  eexists _, vec, names. split; [exact Henc|]. cbn [labels_field].
  split; [exact Hvec|]. split; [exact Hnames|]. split; [exact Hsub|].
  intros name. rewrite Hmem. destruct Hwf as [_ Hcols]. split.
  - intros (j & v & Hl & Hv & H1). cbn [Nat.add] in Hl.
    assert (Hin : name ∈ labels) by (eapply list_elem_of_lookup_2; exact Hl).
    split; [exact Hin|].
    destruct (Hcols name Hin) as (cells & Hc & _).
    exists cells, v. split; [exact Hc|]. split; [|exact H1].
    rewrite <- (Hcells j name cells Hl Hc). exact Hv.
  - intros (Hin & cells & v & Hc & Hv & H1).
    apply list_elem_of_lookup_1 in Hin as [j Hl].
    exists j, v. split; [exact Hl|]. split; [|exact H1].
    rewrite (Hcells j name cells Hl Hc). exact Hv.
Qed.

Lemma compartments_of_record_witness :
  exists enc vec names,
    preprocess_data demo_labels demo_examples 512 = Ok enc /\
    labels_field enc !! 0 = Some vec /\
    compartments demo_labels vec = Ok names /\
    sublist names demo_labels /\
    forall name, name ∈ names <->
      name ∈ demo_labels /\
      exists cells v, demo_examples !! name = Some (ColNum cells) /\ cells !! 0 = Some v /\
                      Qeq_bool v 1 = true.
Proof.
  apply (compartments_of_record demo_labels demo_examples demo_text 512 0 demo_well_formed).
  cbn. lia.
Defined.

(** X5: a batch without the column ["Sequence"] makes [preprocess_data]
    raise [KeyError("Sequence")]; a batch that has the sequences and the
    columns of the labels before [label], but no column [label], makes it
    raise [KeyError(label)]. *)
Theorem preprocess_data_missing_column :
  forall labels (examples : gmap string column) max_length,
    (examples !! "Sequence" = None ->
     preprocess_data labels examples max_length = Raise (KeyError "Sequence")) /\
    (forall text pre label post,
        labels = (pre ++ label :: post)%list ->
        well_formed_batch pre examples text ->
        examples !! label = None ->
        preprocess_data labels examples max_length = Raise (KeyError label)).
Proof.
  intros labels examples max_length. split.
  - intros H. unfold preprocess_data, getitem. rewrite H. reflexivity.
  - intros text pre label post -> [Hseq Hcols] Hnone.
    unfold preprocess_data. unfold getitem at 1. rewrite Hseq.
    cbn [mbind result_bind as_text].
    rewrite fill_labels_app.
    set (labels := (pre ++ label :: post)%list).
    set (lb := filter _ examples).
    destruct (fill_labels_spec lb (length labels) pre 0 (zeros (length text) (length labels)))
      as (m' & Hm' & _).
    + unfold labels. rewrite length_app. lia.
    + apply zeros_rows.
    + intros l Hl. destruct (Hcols l Hl) as (cells & Hc & Hlen).
      exists cells. split; [|rewrite length_zeros; exact Hlen].
      apply lookup_labels_batch; [|exact Hc].
      unfold labels. apply elem_of_app. left. exact Hl.
    + rewrite Hm'. cbn [mbind result_bind fill_labels].
      unfold lb. rewrite (labels_batch_missing labels examples label Hnone). reflexivity.
Qed.

Lemma preprocess_data_missing_column_witness :
  preprocess_data (demo_labels ++ ["Nucleolus"]) demo_examples 512 = Raise (KeyError "Nucleolus").
Proof.
  apply (proj2 (preprocess_data_missing_column (demo_labels ++ ["Nucleolus"]) demo_examples 512)
           demo_text demo_labels "Nucleolus" []).
  - reflexivity.
  - exact demo_well_formed.
  - vm_compute. reflexivity.
Defined.

(** X6: on a batch whose column ["text"] holds sequences of vocabulary
    symbols, [tokenize_data] returns one id array and one mask per sequence,
    and the mask is 0 exactly where the id array holds the pad token. *)
Theorem attention_mask_marks_padding :
  forall (examples : gmap string column) text sequence_length,
    examples !! "text" = Some (ColText text) ->
    Forall (fun seq => symbols_only seq = true) text ->
    exists enc,
      tokenize_data examples tokenizer sequence_length = Ok enc /\
      length (batch_input_ids enc) = length text /\
      batch_attention_mask enc
      = map (map (fun id => if (id =? pad_token_id)%nat then 0 else 1)) (batch_input_ids enc).
Proof.
  intros examples text L Htext Hsym.
  unfold tokenize_data, getitem. rewrite Htext. cbn [mbind result_bind as_text].
  eexists. split; [reflexivity|]. unfold tokenizer.
  cbn [batch_input_ids batch_attention_mask]. split; [apply length_map|].
  rewrite map_map. apply map_ext_Forall.
  eapply Forall_impl; [exact Hsym|].
  intros seq Hs. apply attention_mask_encode, Hs.
Qed.

Lemma attention_mask_marks_padding_witness :
  exists enc,
    tokenize_data {["text" := ColText ["EVQLVESGG"; "QVQLQ"]]} tokenizer Preprocess.sequence_length
    = Ok enc /\
    length (batch_input_ids enc) = 2 /\
    batch_attention_mask enc
    = map (map (fun id => if (id =? pad_token_id)%nat then 0 else 1)) (batch_input_ids enc).
Proof.
  apply (attention_mask_marks_padding {["text" := ColText ["EVQLVESGG"; "QVQLQ"]]}
           ["EVQLVESGG"; "QVQLQ"] Preprocess.sequence_length).
  - vm_compute. reflexivity.
  - repeat constructor.
Defined.

(** X7: whatever the two random draws give, the test partition holds its
    records in the order of the file: it is the file with lines left out. *)
Theorem test_keeps_file_order :
  forall choice1 choice2 lines,
    sampler choice1 -> sampler choice2 ->
    exists ds,
      data_loading choice1 choice2 lines = Ok ds /\
      sublist (test ds) lines.
Proof.
  intros choice1 choice2 lines H1 H2.
  destruct (split_spec choice1 choice2 lines H1 H2) as (tr & va & te & Hsplit & _).
  eexists. split; [exact (data_loading_of_split _ _ _ _ _ _ Hsplit)|].
  cbn [test]. exact (split_test_sublist _ _ _ _ _ _ Hsplit).
Qed.

Lemma test_keeps_file_order_witness :
  exists ds,
    data_loading first_positions last_positions demo_lines = Ok ds /\
    sublist (test ds) demo_lines.
Proof.
  exact (test_keeps_file_order first_positions last_positions demo_lines
           first_positions_sampler last_positions_sampler).
Defined.

(** X8: whatever the two random draws give, a column (or any function of
    a line) whose values are distinct over the file has distinct values
    over the three partitions together: with distinct accessions, no
    protein is in two partitions. *)
Theorem no_line_in_two_partitions :
  forall choice1 choice2 (lines : list Row) (B : Type) (f : Row -> B),
    sampler choice1 -> sampler choice2 ->
    NoDup (f <$> lines) ->
    exists ds,
      data_loading choice1 choice2 lines = Ok ds /\
      NoDup (f <$> (train ds ++ validation ds ++ test ds)%list).
Proof.
  intros choice1 choice2 lines B f H1 H2 Hnd.
  destruct (split_spec choice1 choice2 lines H1 H2) as (tr & va & te & Hsplit & Hperm & _).
  eexists. split; [exact (data_loading_of_split _ _ _ _ _ _ Hsplit)|].
  cbn [train validation test].
  assert (Hv : (values tr ++ values va ++ values te)%list ≡ₚ values (length_filter (read_csv lines))).
  { unfold values. rewrite <- !fmap_app. apply fmap_Permutation, Hperm. }
  rewrite Hv.
  apply (sublist_NoDup _ (f <$> lines)); [exact Hnd|].
  apply fmap_sublist. apply values_filtered_sublist.
Qed.

Lemma no_line_in_two_partitions_witness :
  exists ds,
    data_loading first_positions last_positions demo_lines = Ok ds /\
    NoDup (ACC <$> (train ds ++ validation ds ++ test ds)%list).
Proof.
  apply (no_line_in_two_partitions first_positions last_positions demo_lines string ACC
           first_positions_sampler last_positions_sampler).
  apply (bool_decide_unpack _). vm_compute. exact I.
Defined.



(** *** The sizes of the partitions *)

Lemma values_filter_zip (P : Row -> bool) (l : list Row) :
  forall k,
    (filter (fun ir : nat * Row => P ir.2) (zip (seq k (length l)) l)).*2
    = List.filter P l.
Proof.
  induction l as [|x l IH]; intros k; [reflexivity|].
  cbn [length seq zip zip_with List.filter]. rewrite filter_cons. cbn [snd].
  destruct (P x) eqn:E.
  - rewrite decide_True by exact I. cbn [fmap list_fmap]. f_equal. apply IH.
  - rewrite decide_False by (intros H; exact H). apply IH.
Qed.

(** The frame after the length filter has one row per line in the window. *)
Lemma length_length_filter lines :
  length (length_filter (read_csv lines)) = length (List.filter in_window lines).
Proof.
  rewrite <- (values_filter_zip in_window lines 0).
  unfold length_filter, read_csv. rewrite length_fmap. reflexivity.
Qed.

(** Four fifths, rounded: within two fifths of a row. *)
Lemma sample_size_four_fifths n :
  4 * n <= 5 * sample_size 4 5 n + 2 /\ 5 * sample_size 4 5 n <= 4 * n + 2.
Proof.
  unfold sample_size, round_half_even. cbv zeta.
  pose proof (Nat.div_mod_eq (4 * n) 5) as Hdm.
  pose proof (Nat.mod_upper_bound (4 * n) 5 ltac:(lia)) as Hr.
  set (d := ((4 * n) / 5)%nat) in *. set (r := ((4 * n) mod 5)%nat) in *.
  clearbody d r.
  destruct (2 * r <? 5)%nat eqn:E1; [apply Nat.ltb_lt in E1; lia|].
  apply Nat.ltb_ge in E1.
  destruct (5 <? 2 * r)%nat eqn:E2; [apply Nat.ltb_lt in E2; lia|].
  apply Nat.ltb_ge in E2. lia.
Qed.

(** One half, rounded: the two halves differ by one row at most. *)
Lemma sample_size_half m :
  2 * sample_size 1 2 m <= m + 1 /\ m <= 2 * sample_size 1 2 m + 1.
Proof.
  unfold sample_size, round_half_even. cbv zeta. rewrite Nat.mul_1_l.
  pose proof (Nat.div_mod_eq m 2) as Hdm.
  pose proof (Nat.mod_upper_bound m 2 ltac:(lia)) as Hr.
  set (d := (m / 2)%nat) in *. set (r := (m mod 2)%nat) in *.
  clearbody d r.
  destruct (2 * r <? 2)%nat eqn:E1; [apply Nat.ltb_lt in E1; lia|].
  apply Nat.ltb_ge in E1.
  destruct (2 <? 2 * r)%nat eqn:E2; [apply Nat.ltb_lt in E2; lia|].
  destruct (Nat.even d); lia.
Qed.

(** X10: a request whose body is the JSON text of a list of ASCII
    sequences is read by [input_fn] under [application/json] as the list of
    these sequences, in order: the handler passes on a batch, not only a
    single sequence. *)
Theorem input_fn_reads_batch_request :
  forall py sequences,
    forallb ascii_only sequences = true ->
    Inference.input_fn py (dumps_strs sequences) "application/json"
    = Ok (JList (map JStr sequences)).
Proof.
  intros py sequences H. rewrite input_fn_json, (loads_dumps_strs py sequences H).
  cbn [mbind result_bind]. rewrite write_object_printable; [reflexivity|].
  cbn [Inference.printable repr_depth].
  assert (Hflat : foldr (fun item m => Nat.max (repr_depth item) m) 0 (map JStr sequences) <= 1).
  { clear H. induction sequences as [|s l IH]; cbn [map foldr repr_depth]; lia. }
  apply Nat.leb_le. lia.
Qed.

Lemma input_fn_reads_batch_request_witness :
  forallb ascii_only ["MKV"; "EVQLVESGG"] = true /\
  Inference.input_fn cpython (dumps_strs ["MKV"; "EVQLVESGG"]) "application/json"
  = Ok (JList [JStr "MKV"; JStr "EVQLVESGG"]).
Proof.
  split; [reflexivity|].
  apply (input_fn_reads_batch_request cpython ["MKV"; "EVQLVESGG"]). reflexivity.
Defined.

(** X11: whatever the two random draws give, with [n] lines of the file
    in the length window the three partitions hold [n] records together,
    train holds four fifths of them to within two fifths of a record, and
    validation and test differ by one record at most. *)
Theorem partition_sizes :
  forall choice1 choice2 lines,
    sampler choice1 -> sampler choice2 ->
    let n := length (List.filter in_window lines) in
    exists ds,
      data_loading choice1 choice2 lines = Ok ds /\
      length (train ds) + length (validation ds) + length (test ds) = n /\
      4 * n <= 5 * length (train ds) + 2 /\
      5 * length (train ds) <= 4 * n + 2 /\
      length (validation ds) <= length (test ds) + 1 /\
      length (test ds) <= length (validation ds) + 1.
Proof.
  intros choice1 choice2 lines H1 H2 n.
  destruct (split_spec choice1 choice2 lines H1 H2)
    as (tr & va & te & Hsplit & Hperm & Htr & Hva).
  eexists. split; [exact (data_loading_of_split _ _ _ _ _ _ Hsplit)|].
  cbn [train validation test]. unfold values. rewrite !length_fmap.
  apply Permutation_length in Hperm. rewrite !length_app, length_length_filter in Hperm.
  rewrite length_length_filter in Htr, Hva. fold n in Hperm, Htr, Hva.
  pose proof (sample_size_four_fifths n) as H45.
  pose proof (sample_size_half (n - length tr)) as H12.
  rewrite <- Htr in H45. rewrite <- Hva in H12. lia.
Qed.

Lemma partition_sizes_witness :
  exists ds,
    data_loading first_positions last_positions demo_lines = Ok ds /\
    length (train ds) + length (validation ds) + length (test ds) = 5 /\
    4 * 5 <= 5 * length (train ds) + 2 /\
    5 * length (train ds) <= 4 * 5 + 2 /\
    length (validation ds) <= length (test ds) + 1 /\
    length (test ds) <= length (validation ds) + 1.
Proof.
  exact (partition_sizes first_positions last_positions demo_lines
           first_positions_sampler last_positions_sampler).
Defined.

(** * The parsed value *)

Import JsonText.

(** *** Decimal digits *)

Lemma code_chr n : (n < 256)%N -> code (chr n) = n.
Proof. intros H. unfold code, chr. apply N_ascii_embedding. exact H. Qed.

Lemma digit_char k :
  (k < 10)%N ->
  is_digit (chr (48 + k)) = true /\ Z.of_N (code (chr (48 + k)) - 48) = Z.of_N k /\
  ((code (chr (48 + k)) =? 48)%N = true -> k = 0%N).
Proof.
  intros H. unfold is_digit. cbv zeta. rewrite code_chr by lia.
  split; [apply andb_true_iff; split; apply N.leb_le; lia|].
  split; [f_equal; lia|]. intros E. apply N.eqb_eq in E. lia.
Qed.

Lemma decimal_go_app fuel :
  forall n acc, decimal_go fuel n acc = (decimal_go fuel n [] ++ acc)%list.
Proof.
  induction fuel as [|fuel IH]; intros n acc; [reflexivity|].
  cbn [decimal_go]. cbv zeta. destruct (n <? 10)%N; [reflexivity|].
  rewrite (IH _ (_ :: acc)), (IH _ [_]), <- app_assoc. reflexivity.
Qed.

Lemma decimal_go_digits fuel :
  forall n acc, Forall (fun c => is_digit c = true) acc ->
                Forall (fun c => is_digit c = true) (decimal_go fuel n acc).
Proof.
  induction fuel as [|fuel IH]; intros n acc Hacc; [exact Hacc|].
  cbn [decimal_go]. cbv zeta.
  assert (Hd : is_digit (chr (48 + n mod 10)) = true).
  { apply digit_char. apply N.mod_lt. discriminate. }
  destruct (n <? 10)%N; [constructor; assumption|].
  apply IH. constructor; assumption.
Qed.

Lemma digits_to_Z_snoc ds z0 :
  forall d, fold_left (fun acc d => (acc * 10 + Z.of_N (code d - 48))%Z) (ds ++ [d]) z0
            = (fold_left (fun acc d => (acc * 10 + Z.of_N (code d - 48))%Z) ds z0 * 10
               + Z.of_N (code d - 48))%Z.
Proof. intros d. rewrite fold_left_app. reflexivity. Qed.

(** The digits spell the number. *)
Lemma decimal_go_value fuel :
  forall n acc,
    (n < 2 ^ N.of_nat fuel)%N ->
    digits_to_Z (decimal_go fuel n acc)
    = fold_left (fun acc d => (acc * 10 + Z.of_N (code d - 48))%Z) acc (Z.of_N n).
Proof.
  unfold digits_to_Z.
  induction fuel as [|fuel IH]; intros n acc Hn.
  - cbn in Hn. replace n with 0%N by lia. reflexivity.
  - cbn [decimal_go]. cbv zeta.
    destruct (digit_char (n mod 10) ltac:(apply N.mod_lt; discriminate)) as (_ & Hv & _).
    destruct (n <? 10)%N eqn:E.
    + apply N.ltb_lt in E. cbn [fold_left]. rewrite Hv, N.mod_small by exact E.
      reflexivity.
    + apply N.ltb_ge in E. rewrite IH.
      * cbn [fold_left]. rewrite Hv. f_equal.
        rewrite (N.div_mod n 10) at 3 by discriminate. lia.
      * apply N.Div0.div_lt_upper_bound.
        rewrite Nat2N.inj_succ, N.pow_succ_r' in Hn. lia.
Qed.

Lemma decimal_fuel n : (n < 2 ^ N.of_nat (S (N.to_nat (N.log2 n))))%N.
Proof.
  rewrite Nat2N.inj_succ, N2Nat.id.
  destruct n as [|p]; [reflexivity|].
  apply N.log2_spec. reflexivity.
Qed.

Lemma decimal_value n : digits_to_Z (decimal n) = Z.of_N n.
Proof. unfold decimal. rewrite decimal_go_value by apply decimal_fuel. reflexivity. Qed.

(** A number other than 0 starts with a digit other than 0. *)
Lemma decimal_go_head fuel :
  forall n acc,
    (0 < n)%N -> (n < 2 ^ N.of_nat fuel)%N ->
    exists d ds, decimal_go fuel n acc = (d :: ds ++ acc)%list /\
                 (code d =? 48)%N = false /\ is_digit d = true /\
                 Forall (fun c => is_digit c = true) ds.
Proof.
  induction fuel as [|fuel IH]; intros n acc Hpos Hn; [cbn in Hn; lia|].
  cbn [decimal_go]. cbv zeta.
  destruct (digit_char (n mod 10) ltac:(apply N.mod_lt; discriminate)) as (Hd & _ & Hz).
  destruct (n <? 10)%N eqn:E.
  - apply N.ltb_lt in E. exists (chr (48 + n mod 10)), []. split; [reflexivity|].
    split; [|split; [exact Hd | constructor]].
    destruct (code _ =? 48)%N eqn:E0; [|reflexivity].
    specialize (Hz eq_refl). rewrite N.mod_small in Hz by exact E. lia.
  - apply N.ltb_ge in E.
    destruct (IH (n / 10)%N (chr (48 + n mod 10) :: acc)) as (d & ds & Heq & H0 & Hdd & Hds).
    + apply N.div_str_pos. lia.
    + apply N.Div0.div_lt_upper_bound.
      rewrite Nat2N.inj_succ, N.pow_succ_r' in Hn. lia.
    + exists d, (ds ++ [chr (48 + n mod 10)])%list. rewrite Heq, <- app_assoc.
      split; [reflexivity|]. split; [exact H0|]. split; [exact Hdd|].
      apply Forall_app. split; [exact Hds | constructor; [exact Hd | constructor]].
Qed.

Lemma decimal_head n :
  exists d ds, decimal n = d :: ds /\ is_digit d = true /\
               Forall (fun c => is_digit c = true) ds /\
               ((code d =? 48)%N = true -> ds = []).
Proof.
  destruct n as [|p].
  - exists "0"%char, []. repeat split; constructor.
  - destruct (decimal_go_head _ (N.pos p) [] ltac:(reflexivity) (decimal_fuel (N.pos p)))
      as (d & ds & Heq & H0 & Hd & Hds).
    exists d, ds. unfold decimal. rewrite Heq, app_nil_r.
    split; [reflexivity|]. split; [exact Hd|]. split; [exact Hds|].
    intros E. congruence.
Qed.

(** *** An integer literal, read back *)

Lemma ends_value_head rest :
  ends_value rest = true ->
  match rest with
  | [] => True
  | c :: _ => is_digit c = false /\ (code c =? 46)%N = false /\
              (code c =? 101)%N = false /\ (code c =? 69)%N = false /\ is_ws c = false
  end.
Proof.
  destruct rest as [|c rest]; [exact (fun _ => I)|].
  unfold ends_value, is_digit, is_ws. cbv zeta. intros H.
  apply orb_true_iff in H as [H|H]; [apply orb_true_iff in H as [H|H]|];
    apply N.eqb_eq in H; rewrite H; repeat split; reflexivity.
Qed.

Lemma span_digits_app ds rest :
  Forall (fun c => is_digit c = true) ds -> ends_value rest = true ->
  span_digits (ds ++ rest) = (ds, rest).
Proof.
  intros Hds Hrest. induction Hds as [|d ds Hd _ IH].
  - cbn [app]. apply ends_value_head in Hrest.
    destruct rest as [|c rest]; [reflexivity|].
    cbn [span_digits]. destruct Hrest as [-> _]. reflexivity.
  - cbn [app span_digits]. rewrite Hd, IH. reflexivity.
Qed.

Lemma match_frac_end rest : ends_value rest = true -> match_frac rest = ([], rest).
Proof.
  intros H. apply ends_value_head in H. destruct rest as [|c rest]; [reflexivity|].
  unfold match_frac. destruct H as (_ & -> & _). reflexivity.
Qed.

Lemma match_exp_end rest : ends_value rest = true -> match_exp rest = ([], rest).
Proof.
  intros H. apply ends_value_head in H. destruct rest as [|c rest]; [reflexivity|].
  unfold match_exp. destruct H as (_ & _ & -> & -> & _). reflexivity.
Qed.

Lemma match_int_decimal n rest :
  ends_value rest = true ->
  match_int (decimal n ++ rest) = Some (false, decimal n, rest) /\
  match_int ("-"%char :: decimal n ++ rest) = Some (true, decimal n, rest).
Proof.
  intros Hrest.
  destruct (decimal_head n) as (d & ds & -> & Hd & Hds & Hzero).
  assert (Hminus : (code d =? 45)%N = false).
  { unfold is_digit in Hd. cbv zeta in Hd. apply andb_true_iff in Hd as [Hd _].
    apply N.leb_le in Hd. apply N.eqb_neq. lia. }
  unfold match_int. cbn [app].
  change (code "-" =? 45)%N with true. cbv iota. rewrite Hminus.
  destruct (code d =? 48)%N eqn:E0.
  - rewrite (Hzero eq_refl). split; reflexivity.
  - rewrite Hd, (span_digits_app ds rest Hds Hrest). split; reflexivity.
Qed.

Lemma match_number_int m z rest :
  ends_value rest = true -> within_digits m (JInt z) = true ->
  match_number m (int_text z ++ rest) = Some (Ok (JInt z, rest)).
Proof.
  intros Hrest Hwithin. cbn [within_digits] in Hwithin. cbv zeta in Hwithin.
  apply negb_true_iff in Hwithin.
  destruct (match_int_decimal (Z.abs_N z) rest Hrest) as [Hpos Hneg].
  unfold match_number, int_text.
  destruct (z <? 0)%Z eqn:Ez; cbn [app];
    [rewrite Hneg | rewrite Hpos];
    rewrite (match_frac_end rest Hrest), (match_exp_end rest Hrest);
    unfold int_of_digits; cbv zeta; rewrite Hwithin, decimal_value;
    cbn [mbind result_bind]; do 4 f_equal.
  - apply Z.ltb_lt in Ez. rewrite N2Z.inj_abs_N. lia.
  - apply Z.ltb_ge in Ez. rewrite N2Z.inj_abs_N. lia.
Qed.

(** The unfolding of the scanner at a character that opens no string and
    no container. *)
Lemma scan_once_scalar m depth c r :
  (code c =? 34)%N = false -> (code c =? 123)%N = false -> (code c =? 91)%N = false ->
  scan_once m depth (c :: r)
  = match strip_prefix (lit "null") (c :: r), strip_prefix (lit "true") (c :: r),
          strip_prefix (lit "false") (c :: r) with
    | Some r', _, _ => Ok (JNull, r')
    | _, Some r', _ => Ok (JBool true, r')
    | _, _, Some r' => Ok (JBool false, r')
    | None, None, None =>
      match match_number m (c :: r) with
      | Some res => res
      | None =>
        match strip_prefix (lit "NaN") (c :: r), strip_prefix (lit "Infinity") (c :: r),
              strip_prefix (lit "-Infinity") (c :: r) with
        | Some r', _, _ => Ok (JFloat "NaN", r')
        | _, Some r', _ => Ok (JFloat "Infinity", r')
        | _, _, Some r' => Ok (JFloat "-Infinity", r')
        | None, None, None => Raise (JSONDecodeError "Expecting value")
        end
      end
    end.
Proof. intros H1 H2 H3. destruct depth; cbn [scan_once]; rewrite H1, H2, H3; reflexivity. Qed.

Lemma int_text_head z :
  exists c t, int_text z = c :: t /\ ((code c =? 45)%N = true \/ is_digit c = true).
Proof.
  unfold int_text. destruct (decimal_head (Z.abs_N z)) as (d & ds & -> & Hd & _).
  destruct (z <? 0)%Z; cbn [app]; eexists _, _; (split; [reflexivity|]);
    [left; reflexivity | right; exact Hd].
Qed.

(** A minus sign or a digit begins none of the three names. *)
Lemma number_head c :
  (code c =? 45)%N = true \/ is_digit c = true ->
  (code c =? 34)%N = false /\ (code c =? 123)%N = false /\ (code c =? 91)%N = false /\
  Ascii.eqb "n" c = false /\ Ascii.eqb "t" c = false /\ Ascii.eqb "f" c = false /\
  is_ws c = false /\ (code c =? 93)%N = false /\ (code c <? 128)%N = true.
Proof.
  intros H.
  assert (Hc : (code c = 45 \/ 48 <= code c <= 57)%N).
  { destruct H as [H|H]; [left; apply N.eqb_eq, H|right].
    unfold is_digit in H. cbv zeta in H. apply andb_true_iff in H as [H1 H2].
    apply N.leb_le in H1, H2. lia. }
  assert (Hne : forall x, code x <> code c -> Ascii.eqb x c = false).
  { intros x Hx. destruct (Ascii.eqb_spec x c) as [->|_]; [contradiction | reflexivity]. }
  unfold is_ws. cbv zeta.
  repeat split; try (apply N.eqb_neq; lia); try (apply Hne; cbn; lia);
    try (apply N.ltb_lt; lia).
  repeat (apply orb_false_iff; split); apply N.eqb_neq; lia.
Qed.

Lemma scan_once_int m depth z rest :
  ends_value rest = true -> within_digits m (JInt z) = true ->
  scan_once m depth (int_text z ++ rest) = Ok (JInt z, rest).
Proof.
  intros Hrest Hwithin.
  pose proof (match_number_int m z rest Hrest Hwithin) as Hnum.
  destruct (int_text_head z) as (c & t & Heq & Hc). rewrite Heq in *.
  destruct (number_head c Hc) as (H1 & H2 & H3 & Hn & Ht & Hf & _).
  cbn [app] in *. rewrite (scan_once_scalar m depth c _ H1 H2 H3).
  cbn [lit list_ascii_of_string strip_prefix]. rewrite Hn, Ht, Hf, Hnum. reflexivity.
Qed.

(** *** The loops over the items of a container, on the text of the items *)

Lemma skip_ws_head c t : is_ws c = false -> skip_ws (c :: t) = c :: t.
Proof. intros H. cbn [skip_ws]. rewrite H. reflexivity. Qed.

Lemma join_items_cons (t : list ascii) texts rest :
  exists rest', (join_items (t :: texts) ++ rest)%list = (t ++ rest')%list.
Proof.
  destruct texts as [|t' texts]; [exists rest; reflexivity|].
  exists (lit ", " ++ join_items (t' :: texts) ++ rest)%list.
  change (join_items (t :: t' :: texts)) with (t ++ lit ", " ++ join_items (t' :: texts))%list.
  rewrite <- !app_assoc. reflexivity.
Qed.

Section TextLoops.

Variable scan : list ascii -> result (value * list ascii).
Variable text : value -> list ascii.

(** [scan] reads the text of [v] as [v], and the text begins with no white
    space. *)
Local Abbreviation reads := (fun v : value =>
  (forall rest, ends_value rest = true -> scan (text v ++ rest) = Ok (v, rest)) /\
  (forall rest, skip_ws (text v ++ rest) = (text v ++ rest)%list)).

Lemma array_loop_texts items :
  Forall reads items ->
  forall n acc rest,
    items <> [] -> length items <= n ->
    array_loop scan n (join_items (map text items) ++ "]"%char :: rest) acc
    = Ok (JList (rev acc ++ items), rest).
Proof.
  induction 1 as [|v items [Hv Hws] Hitems IH]; intros n acc rest Hne Hn; [contradiction|].
  destruct n as [|n]; [cbn [length] in Hn; lia|]. cbn [length] in Hn.
  destruct items as [|v' items].
  - cbn [map join_items array_loop]. rewrite (Hv ("]"%char :: rest) eq_refl).
    cbn [mbind result_bind].
    rewrite (skip_ws_head "]"%char rest eq_refl).
    change (code "]" =? 93)%N with true. cbv iota. reflexivity.
  - change (join_items (map text (v :: v' :: items)))
      with (text v ++ lit ", " ++ join_items (map text (v' :: items)))%list.
    cbn [array_loop]. rewrite <- !app_assoc.
    change (lit ", " ++ ?l)%list with (","%char :: " "%char :: l).
    rewrite (Hv (","%char :: _) eq_refl). cbn [mbind result_bind].
    rewrite (skip_ws_head ","%char _ eq_refl).
    change (code "," =? 93)%N with false. change (code "," =? 44)%N with true. cbv iota.
    change (skip_ws (" "%char :: ?l)) with (skip_ws l).
    destruct (join_items_cons (text v') (map text items) ("]"%char :: rest)) as [rest' Heq].
    change (text v' :: map text items) with (map text (v' :: items)) in Heq.
    inversion Hitems as [|? ? [_ Hws'] _]; subst.
    rewrite Heq, Hws', <- Heq.
    rewrite (IH n (v :: acc) rest); [|discriminate|cbn [length] in *; lia].
    cbn [rev]. rewrite <- app_assoc. reflexivity.
Qed.

Lemma dict_set_fresh k v (d : list (string * value)) :
  k ∉ d.*1 -> dict_set k v d = (d ++ [(k, v)])%list.
Proof.
  induction d as [|[k' v'] d IH]; intros Hk; [reflexivity|].
  cbn [fmap list_fmap fst] in Hk. apply not_elem_of_cons in Hk as [Hne Hk].
  cbn [dict_set]. destruct (String.eqb_spec k k') as [->|_]; [contradiction|].
  cbn [app]. f_equal. apply IH, Hk.
Qed.

Lemma dict_of_pairs_distinct (pairs : list (string * value)) :
  NoDup pairs.*1 -> dict_of_pairs pairs = pairs.
Proof.
  unfold dict_of_pairs.
  enough (Hgen : forall d : list (string * value),
             NoDup (d ++ pairs)%list.*1 ->
             fold_left (fun d kv => dict_set kv.1 kv.2 d) pairs d = (d ++ pairs)%list)
    by (intros H; apply (Hgen [] H)).
  induction pairs as [|[k v] pairs IH]; intros d Hnd; [rewrite app_nil_r; reflexivity|].
  cbn [fold_left fst snd].
  rewrite fmap_app in Hnd. cbn [fmap list_fmap fst] in Hnd.
  rewrite dict_set_fresh.
  - rewrite IH, <- app_assoc; [reflexivity|].
    rewrite <- app_assoc, fmap_app. exact Hnd.
  - apply NoDup_app in Hnd as (_ & Hdis & _). intros Hin.
    apply (Hdis k Hin). apply list_elem_of_here.
Qed.

(** The text of one entry of a dict. *)
Local Abbreviation entry := (fun kv : string * value =>
  match kv with (k, item) => (encode_str k ++ lit ": " ++ text item)%list end).

Lemma object_loop_texts pairs :
  Forall (fun kv => ascii_only kv.1 = true /\ reads kv.2) pairs ->
  forall n acc rest cs,
    pairs <> [] -> length pairs <= n ->
    (join_items (map entry pairs) ++ "}"%char :: rest)%list = dquote :: cs ->
    object_loop scan n cs acc = Ok (JDict (dict_of_pairs (rev acc ++ pairs)), rest).
Proof.
  induction 1 as [|[k v] pairs [Hk [Hv Hws]] Hpairs IH]; intros n acc rest cs Hne Hn Hcs;
    [contradiction|].
  destruct n as [|n]; [cbn [length] in Hn; lia|]. cbn [length] in Hn.
  cbn [fst snd] in Hk, Hv, Hws.
  assert (Hentry : forall tail,
             (encode_str k ++ lit ": " ++ text v ++ tail)%list = dquote :: cs ->
             ends_value tail = true ->
             object_loop scan (S n) cs acc
             = match skip_ws tail with
               | d :: r3 =>
                 if (code d =? 125)%N
                 then Ok (JDict (dict_of_pairs (rev ((k, v) :: acc))), r3)
                 else if (code d =? 44)%N then
                   match skip_ws r3 with
                   | q :: r4 =>
                     if (code q =? 34)%N then object_loop scan n r4 ((k, v) :: acc)
                     else Raise (JSONDecodeError
                                   "Expecting property name enclosed in double quotes")
                   | [] => Raise (JSONDecodeError
                                    "Expecting property name enclosed in double quotes")
                   end
                 else Raise (JSONDecodeError "Expecting ',' delimiter")
               | [] => Raise (JSONDecodeError "Expecting ',' delimiter")
               end).
  { intros tail Heq Htail. unfold encode_str in Heq. cbn [app] in Heq.
    injection Heq as <-. cbn [object_loop].
    rewrite <- !app_assoc. cbn [app].
    rewrite (scanstring_escape_chars _ _ [] Hk). cbn [mbind result_bind rev app].
    change (lit ": " ++ ?l)%list with (":"%char :: " "%char :: l).
    rewrite (skip_ws_head ":"%char _ eq_refl).
    change (code ":" =? 58)%N with true. cbv iota.
    change (skip_ws (" "%char :: ?l)) with (skip_ws l).
    rewrite Hws, (Hv _ Htail). cbn [mbind result_bind].
    rewrite string_of_list_ascii_of_string. reflexivity. }
  destruct pairs as [|kv' pairs].
  - cbn [map join_items] in Hcs. rewrite <- !app_assoc in Hcs.
    rewrite (Hentry _ Hcs eq_refl).
    rewrite (skip_ws_head "}"%char rest eq_refl).
    change (code "}" =? 125)%N with true. cbv iota. reflexivity.
  - change (join_items (map entry ((k, v) :: kv' :: pairs)))
      with (entry (k, v) ++ lit ", " ++ join_items (map entry (kv' :: pairs)))%list in Hcs.
    rewrite <- !app_assoc in Hcs.
    change (lit ", " ++ ?l)%list with (","%char :: " "%char :: l) in Hcs.
    rewrite (Hentry _ Hcs eq_refl).
    rewrite (skip_ws_head ","%char _ eq_refl).
    change (code "," =? 125)%N with false. change (code "," =? 44)%N with true. cbv iota.
    change (skip_ws (" "%char :: ?l)) with (skip_ws l).
    assert (Hq : exists cs', (join_items (map entry (kv' :: pairs)) ++ "}"%char :: rest)%list
                             = dquote :: cs').
    { destruct kv' as [k' v']. destruct pairs as [|kv'' pairs];
        cbn [map join_items]; unfold encode_str; cbn [app]; eexists; reflexivity. }
    destruct Hq as [cs' Hcs']. rewrite Hcs'.
    rewrite (skip_ws_head dquote cs' eq_refl).
    change (code dquote =? 34)%N with true. cbv iota.
    rewrite (IH n ((k, v) :: acc) rest cs'); [|discriminate|cbn [length] in *; lia|exact Hcs'].
    cbn [rev]. rewrite <- app_assoc. reflexivity.
Qed.

End TextLoops.

(** *** The text of a value, read back *)

Lemma value_ind_nested (P : value -> Prop) :
  P JNull -> (forall b, P (JBool b)) -> (forall z, P (JInt z)) ->
  (forall lexeme, P (JFloat lexeme)) -> (forall s, P (JStr s)) ->
  (forall items, Forall P items -> P (JList items)) ->
  (forall pairs, Forall (fun kv : string * value => P kv.2) pairs -> P (JDict pairs)) ->
  forall v, P v.
Proof.
  intros Hnull Hbool Hint Hfloat Hstr Hlist Hdict. fix IH 1.
  intros [| b | z | lexeme | s | items | pairs].
  - exact Hnull.
  - apply Hbool.
  - apply Hint.
  - apply Hfloat.
  - apply Hstr.
  - apply Hlist. induction items as [|x items IHitems]; constructor; [apply IH | exact IHitems].
  - apply Hdict. induction pairs as [|[k x] pairs IHpairs]; constructor;
      [apply IH | exact IHpairs].
Qed.

(** The text of a value begins with a character of its own. *)
Lemma text_head v :
  plain v = true ->
  exists c t, text_of v = c :: t /\ is_ws c = false /\ (code c =? 93)%N = false /\
              (code c <? 128)%N = true.
Proof.
  destruct v as [| [] | z | lexeme | s | items | pairs]; intros Hp;
    try discriminate Hp;
    try (eexists _, _; split; [reflexivity | repeat split; reflexivity]).
  cbn [text_of]. destruct (int_text_head z) as (c & t & -> & Hc).
  exists c, t. destruct (number_head c Hc) as (_ & _ & _ & _ & _ & _ & Hws & H93 & H128).
  repeat split; assumption.
Qed.

Lemma text_skip_ws v rest : plain v = true -> skip_ws (text_of v ++ rest) = (text_of v ++ rest)%list.
Proof.
  intros Hp. destruct (text_head v Hp) as (c & t & -> & Hws & _).
  apply skip_ws_head, Hws.
Qed.

Lemma length_join_texts (texts : list (list ascii)) :
  Forall (fun t => t <> []) texts -> length texts <= length (join_items texts).
Proof.
  induction 1 as [|t texts Ht _ IH]; [cbn; lia|].
  assert (Hl : 1 <= length t) by (destruct t; [contradiction | cbn; lia]).
  destruct texts as [|t' texts]; [cbn [join_items length]; lia|].
  change (join_items (t :: t' :: texts)) with (t ++ lit ", " ++ join_items (t' :: texts))%list.
  rewrite !length_app. cbn [length] in *. lia.
Qed.

Lemma nesting_items items d :
  foldr (fun item m => Nat.max (nesting item) m) 0 items <= d ->
  Forall (fun item => nesting item <= d) items.
Proof.
  induction items as [|x items IH]; intros H; constructor; cbn [foldr] in H; [lia|].
  apply IH. lia.
Qed.

Lemma nesting_pairs (pairs : list (string * value)) d :
  foldr (fun kv m => Nat.max (match kv with (_, item) => nesting item end) m) 0 pairs <= d ->
  Forall (fun kv => nesting kv.2 <= d) pairs.
Proof.
  induction pairs as [|[k x] pairs IH]; intros H; constructor; cbn [foldr] in H;
    [cbn; lia|].
  apply IH. lia.
Qed.

Lemma scan_once_brace m depth r :
  scan_once m (S depth) ("{"%char :: r) = JSONObject (scan_once m depth) (S (length r)) r.
Proof. reflexivity. Qed.

(** The scanner reads the text of a value, whatever follows it, as that
    value: when the value is plain, its integers are within the digit limit
    and it nests no deeper than the scanner may. *)
Lemma scan_text m v :
  forall depth rest,
    plain v = true -> within_digits m v = true -> nesting v <= depth ->
    ends_value rest = true ->
    scan_once m depth (text_of v ++ rest) = Ok (v, rest).
Proof.
  induction v as [| b | z | lexeme | s | items IH | pairs IH] using value_ind_nested;
    intros depth rest Hp Hw Hn Hrest.
  - destruct depth; reflexivity.
  - destruct b, depth; reflexivity.
  - apply scan_once_int; assumption.
  - discriminate Hp.
  - apply scan_once_encode_str. exact Hp.
  - cbn [plain within_digits nesting] in Hp, Hw, Hn.
    destruct depth as [|depth]; [lia|]. apply le_S_n in Hn.
    apply nesting_items in Hn.
    rewrite forallb_forall in Hp, Hw. rewrite Forall_forall in IH, Hn.
    assert (Hreads : Forall (fun v : value =>
                       (forall rest, ends_value rest = true ->
                                     scan_once m depth (text_of v ++ rest) = Ok (v, rest)) /\
                       (forall rest, skip_ws (text_of v ++ rest) = (text_of v ++ rest)%list))
                            items).
    { apply Forall_forall. intros x Hx. pose proof (proj1 (list_elem_of_In _ _) Hx) as Hx'.
      split.
      - intros rest' Hrest'. apply (IH x Hx); auto.
      - intros rest'. apply text_skip_ws. auto. }
    cbn [text_of]. change (lit "[" ++ ?l)%list with ("["%char :: l). cbn [app].
    rewrite scan_once_bracket, <- app_assoc. change (lit "]" ++ rest)%list with ("]"%char :: rest).
    unfold JSONArray. destruct items as [|x items]; [reflexivity|].
    destruct (text_head x (Hp x (or_introl eq_refl))) as (c & t & Hx & Hws & H93 & _).
    destruct (join_items_cons (text_of x) (map text_of items) ("]"%char :: rest)) as [r' Hr'].
    change (text_of x :: map text_of items) with (map text_of (x :: items)) in Hr'.
    set (r := (join_items (map text_of (x :: items)) ++ "]"%char :: rest)%list) in *.
    assert (Hr : r = c :: (t ++ r')%list) by (rewrite Hr', Hx; reflexivity).
    assert (Hlen : length (x :: items) <= S (length r)).
    { unfold r. rewrite length_app.
      etransitivity; [|apply Nat.le_succ_diag_r].
      etransitivity; [|apply Nat.le_add_r].
      rewrite <- (length_map text_of (x :: items)). apply length_join_texts.
      apply Forall_forall. intros tx Htx.
      apply list_elem_of_In, in_map_iff in Htx as [y [<- Hy]].
      destruct (text_head y (Hp y Hy)) as (cy & ty & -> & _). discriminate. }
    generalize dependent (S (length r)). intros n Hlen.
    rewrite Hr, (skip_ws_head c _ Hws), H93, <- Hr.
    unfold r. rewrite (array_loop_texts _ text_of (x :: items) Hreads);
      [reflexivity | discriminate | exact Hlen].
  - cbn [plain within_digits nesting] in Hp, Hw, Hn.
    apply andb_true_iff in Hp as [Hp Hnd]. apply bool_decide_eq_true_1 in Hnd.
    destruct depth as [|depth]; [lia|]. apply le_S_n in Hn.
    apply nesting_pairs in Hn.
    rewrite forallb_forall in Hp, Hw. rewrite Forall_forall in IH, Hn.
    assert (Hreads : Forall (fun kv : string * value =>
                       ascii_only kv.1 = true /\
                       (forall rest, ends_value rest = true ->
                                     scan_once m depth (text_of kv.2 ++ rest) = Ok (kv.2, rest)) /\
                       (forall rest, skip_ws (text_of kv.2 ++ rest) = (text_of kv.2 ++ rest)%list))
                            pairs).
    { apply Forall_forall. intros [k x] Hx. pose proof (proj1 (list_elem_of_In _ _) Hx) as Hx'.
      specialize (Hp _ Hx'). specialize (Hw _ Hx'). cbn [fst snd] in *.
      apply andb_true_iff in Hp as [Hk Hpx].
      split; [exact Hk|]. split.
      - intros rest' Hrest'. apply (IH (k, x) Hx); auto; apply (Hn (k, x) Hx).
      - intros rest'. apply text_skip_ws. exact Hpx. }
    cbn [text_of]. change (lit "{" ++ ?l)%list with ("{"%char :: l). cbn [app].
    rewrite scan_once_brace, <- app_assoc. change (lit "}" ++ rest)%list with ("}"%char :: rest).
    unfold JSONObject. destruct pairs as [|[k x] pairs]; [reflexivity|].
    set (entry := fun kv : string * value =>
                    match kv with (k, item) => (encode_str k ++ lit ": " ++ text_of item)%list end).
    set (r := (join_items (map entry ((k, x) :: pairs)) ++ "}"%char :: rest)%list) in *.
    assert (Hr : exists cs, r = dquote :: cs).
    { unfold r. destruct pairs as [|kv' pairs]; cbn [map join_items]; unfold entry, encode_str;
        cbn [app]; eexists; reflexivity. }
    destruct Hr as [cs Hr].
    assert (Hlen : length ((k, x) :: pairs) <= S (length r)).
    { unfold r. rewrite length_app.
      etransitivity; [|apply Nat.le_succ_diag_r].
      etransitivity; [|apply Nat.le_add_r].
      rewrite <- (length_map entry ((k, x) :: pairs)). apply length_join_texts.
      apply Forall_forall. intros tx Htx.
      apply list_elem_of_In, in_map_iff in Htx as [[k' y] [<- Hy]].
      unfold entry, encode_str. discriminate. }
    generalize dependent (S (length r)). intros n Hlen.
    rewrite Hr, (skip_ws_head dquote _ eq_refl).
    change (code dquote =? 125)%N with false. change (code dquote =? 34)%N with true. cbv iota.
    rewrite (object_loop_texts _ text_of ((k, x) :: pairs) Hreads n [] rest cs);
      [cbn [rev app]; rewrite (dict_of_pairs_distinct _ Hnd); reflexivity
      | discriminate | exact Hlen | exact Hr].
Qed.

Lemma starts_with_bom_ascii c t : (code c <? 128)%N = true -> starts_with_bom (c :: t) = false.
Proof.
  intros H. apply N.ltb_lt in H. destruct t as [|b [|d t]]; try reflexivity.
  cbn [starts_with_bom]. replace (code c =? 239)%N with false; [reflexivity|].
  symmetry. apply N.eqb_neq. lia.
Qed.

(** [json.loads] gives back a plain value from its text. *)
Lemma loads_text py v :
  plain v = true -> within_digits (int_max_str_digits py) v = true ->
  nesting v <= S (json_nesting py) ->
  loads py (string_of_list_ascii (text_of v)) = Ok v.
Proof.
  intros Hp Hw Hn. unfold loads. rewrite list_ascii_of_string_of_list.
  destruct (text_head v Hp) as (c & t & Heq & Hws & _ & H128).
  rewrite Heq, (starts_with_bom_ascii c t H128). cbv zeta.
  rewrite (skip_ws_head c t Hws), <- Heq, <- (app_nil_r (text_of v)).
  rewrite (scan_text _ v _ [] Hp Hw Hn eq_refl). reflexivity.
Qed.

(** [print] can write a plain value that [repr] has room for. *)
Lemma printable_plain py v :
  plain v = true -> repr_depth v <= S (S (repr_nesting py)) ->
  Inference.printable py v = true.
Proof.
  intros Hp Hn. destruct v; try (apply Nat.leb_le; exact Hn).
  apply printable_ascii. exact Hp.
Qed.

(** C10, as the code has it: under [text/csv] (also when the content type
    is left out) [input_fn] returns the request body as it is, and under
    [application/json] the value that [json.loads] reads from the body, in
    both cases when [print] can write that value to the log; otherwise it
    raises.  On the JSON text of a value made of ASCII strings, integers
    within the digit limit, booleans and [None], in lists and dicts with
    distinct keys, nested no deeper than the interpreter lets the scanner
    and [repr] go, it returns that value. *)
Theorem input_fn_returns_body_or_parsed :
  (forall py body sequence,
      Inference.input_fn py body "text/csv" = Ok sequence <->
      sequence = JStr body /\ Inference.printable py (JStr body) = true) /\
  (forall py body, Inference.input_fn_default py body = Inference.input_fn py body "text/csv") /\
  (forall py body sequence,
      Inference.input_fn py body "application/json" = Ok sequence <->
      Json.loads py body = Ok sequence /\ Inference.printable py sequence = true) /\
  (forall py v,
      plain v = true -> within_digits (int_max_str_digits py) v = true ->
      nesting v <= S (json_nesting py) -> repr_depth v <= S (S (repr_nesting py)) ->
      Inference.input_fn py (string_of_list_ascii (text_of v)) "application/json" = Ok v).
Proof.
  assert (Hwrite : forall py v u, Inference.write_object py v = Ok u <->
                                  Inference.printable py v = true).
  { intros py v u. pose proof (write_object_raises py v) as Hr.
    destruct (Inference.printable py v) eqn:Ep.
    - rewrite (write_object_printable py v Ep). destruct u. split; reflexivity.
    - destruct (Inference.write_object py v) as [[]|e]; cbn [raises] in Hr.
      + exfalso. destruct Hr as [_ Hr]. exact (Hr eq_refl).
      + split; discriminate. }
  assert (Hjson : forall py body sequence,
      Inference.input_fn py body "application/json" = Ok sequence <->
      Json.loads py body = Ok sequence /\ Inference.printable py sequence = true).
  { intros py body sequence. rewrite input_fn_json.
    destruct (Json.loads py body) as [v|e]; cbn [mbind result_bind].
    - pose proof (Hwrite py v tt) as Hv.
      destruct (Inference.write_object py v) as [[]|e]; cbn [mbind result_bind]; split.
      + intros H. injection H as <-. split; [reflexivity | apply Hv; reflexivity].
      + intros [H _]. exact H.
      + discriminate.
      + intros [H Hp]. injection H as <-. apply Hv in Hp. discriminate Hp.
    - split; [discriminate | intros [H _]; discriminate H]. }
  split; [|split; [reflexivity|split; [exact Hjson|]]].
  - intros py body sequence. rewrite input_fn_csv.
    pose proof (Hwrite py (JStr body) tt) as Hv.
    destruct (Inference.write_object py (JStr body)) as [[]|e]; cbn [mbind result_bind]; split.
    + intros H. injection H as <-. split; [reflexivity | apply Hv; reflexivity].
    + intros [-> _]. reflexivity.
    + discriminate.
    + intros [_ Hp]. apply Hv in Hp. discriminate Hp.
  - intros py v Hp Hw Hn Hr. apply Hjson. split.
    + apply loads_text; assumption.
    + apply printable_plain; assumption.
Qed.

Lemma input_fn_returns_body_or_parsed_witness :
  Inference.input_fn cpython
    (string_of_list_ascii
       (text_of (JDict [("inputs", JStr "MKV");
                        ("ids", JList [JInt 12; JInt (-305); JNull; JBool true])])))
    "application/json"
  = Ok (JDict [("inputs", JStr "MKV");
               ("ids", JList [JInt 12; JInt (-305); JNull; JBool true])]).
Proof.
  apply (proj2 (proj2 (proj2 input_fn_returns_body_or_parsed))).
  - vm_compute. reflexivity.
  - vm_compute. reflexivity.
  - apply Nat.leb_le. vm_compute. reflexivity.
  - apply Nat.leb_le. vm_compute. reflexivity.
Defined.

(** C10 as stated fails: the body is JSON text, [json.loads] reads a [str]
    from it, and [input_fn] does not return it, because the log cannot
    encode the lone surrogate it holds; the same [str] as the body of a
    [text/csv] request is not returned either. *)
Lemma input_fn_raises_on_parsed_value :
  exists sequence,
    Json.loads cpython lone_surrogate_body = Ok (JStr sequence) /\
    Inference.input_fn cpython lone_surrogate_body "application/json"
    = Raise UnicodeEncodeError /\
    Inference.input_fn cpython sequence "text/csv" = Raise UnicodeEncodeError.
Proof. eexists. repeat split; vm_compute; reflexivity. Qed.
